(** * archivebot: the archive, the directory cache, the query language and
      the event dispatcher of [src/archivebot.py]

    The development embeds the Python program as executable definitions:
    - Python [str] values are [string]s whose characters are the code points
      0..255 (for which [lower], [isspace], [int] and the regular expression
      of the program are tabulated below exactly);
    - the module-level dictionary [ENV] is a record of [gmap]s;
    - the SQLite connection is a record of tables, a table being its column
      names, its UNIQUE ... ON CONFLICT REPLACE constraints and its rows in
      rowid order;
    - every function that touches [ENV], the cursor or the Slack client is a
      computation in a state-and-exception monad over [world]: a raised
      exception keeps the effects performed before it, as in Python.

    Where the program leaves a behaviour to its libraries, the embedding
    follows CPython 3.11 ([int], [repr], [str.split]) and SQLite 3.40
    (LIKE, ON CONFLICT REPLACE, the order of the rows of a SELECT). *)

From Stdlib Require Import ZArith NArith Ascii String List Lia Bool.
From stdpp Require Import base option list sorting gmap strings pretty.

Local Open Scope string_scope.
Local Open Scope list_scope.

(** ** Python string methods used by the program *)

Module Py.

Definition ord (c : ascii) : N := N_of_ascii c.

(** [str.isspace] on one character, as [str.split()] and [str.strip()]
    use it. *)
Definition isspace (c : ascii) : bool :=
  let n := ord c in
  (((9 <=? n) && (n <=? 13)) || ((28 <=? n) && (n <=? 32))
   || (n =? 133) || (n =? 160))%N.

(** The blanks that [int(...)] strips around a literal. *)
Definition int_blank (c : ascii) : bool :=
  let n := ord c in
  (((9 <=? n) && (n <=? 13)) || (n =? 32) || (n =? 133) || (n =? 160))%N.

Definition lower_char (c : ascii) : ascii :=
  let n := ord c in
  if (((65 <=? n) && (n <=? 90))
      || ((192 <=? n) && (n <=? 222) && negb (n =? 215)))%N
  then ascii_of_N (n + 32) else c.

(** [s.lower()] *)
Fixpoint lower (s : string) : string :=
  match s with
  | EmptyString => EmptyString
  | String c s' => String (lower_char c) (lower s')
  end.

Definition flush (cur : option string) : list string :=
  match cur with
  | Some w => [String.rev w]
  | None => []
  end.

(** [s.split()]: maximal runs of non-blank characters; [cur] holds the
    run being read, most recent character first. *)
Fixpoint split_go (cur : option string) (s : string) : list string :=
  match s with
  | EmptyString => flush cur
  | String c s' =>
      if isspace c then flush cur ++ split_go None s'
      else split_go (Some (String c (default EmptyString cur))) s'
  end.

Definition split (s : string) : list string := split_go None s.

(** [s.split(sep)] for a one-character separator: never empty. *)
Fixpoint split_on (sep : ascii) (s : string) : list string :=
  match s with
  | EmptyString => [EmptyString]
  | String c s' =>
      if Ascii.eqb c sep then EmptyString :: split_on sep s'
      else match split_on sep s' with
           | w :: ws => String c w :: ws
           | [] => [String c EmptyString]
           end
  end.

(** [s.replace(c, '')] for a one-character [c]. *)
Fixpoint remove_char (c : ascii) (s : string) : string :=
  match s with
  | EmptyString => EmptyString
  | String d s' =>
      if Ascii.eqb d c then remove_char c s' else String d (remove_char c s')
  end.

Fixpoint lstrip (blank : ascii -> bool) (s : string) : string :=
  match s with
  | EmptyString => EmptyString
  | String c s' => if blank c then lstrip blank s' else s
  end.

Definition strip_with (blank : ascii -> bool) (s : string) : string :=
  String.rev (lstrip blank (String.rev (lstrip blank s))).

(** [s.strip()] *)
Definition strip (s : string) : string := strip_with isspace s.

(** [s[:n]] *)
Definition take (n : nat) (s : string) : string := String.substring 0 n s.

(** [s[0]] and [s[-1]], absent on the empty string. *)
Definition first (s : string) : option ascii := String.get 0 s.

Fixpoint last (s : string) : option ascii :=
  match s with
  | EmptyString => None
  | String c EmptyString => Some c
  | String _ s' => last s'
  end.

(** [sep.join(l)] *)
Definition join (sep : string) (l : list string) : string :=
  String.concat sep l.

(** Number of occurrences of a character. *)
Fixpoint count (c : ascii) (s : string) : nat :=
  match s with
  | EmptyString => 0
  | String d s' => (if Ascii.eqb d c then 1 else 0) + count c s'
  end.

Definition digit (c : ascii) : option Z :=
  let n := ord c in
  if ((48 <=? n) && (n <=? 57))%N then Some (Z.of_N n - 48)%Z else None.

(** [repr(s)]: single quotes unless the text holds a single quote and no
    double quote; the quote in use and the backslash are escaped with a
    backslash, tab, newline and carriage return are written as backslash
    and [t], [n], [r], and every other character that is not printable
    (0..31, 127..160 and 173 among the code points below 256) is written
    as backslash, [x] and two hexadecimal digits. *)
Definition dquote : ascii := ascii_of_nat 34.
Definition backslash : ascii := ascii_of_nat 92.

Definition hexdigit (n : N) : ascii :=
  default "0"%char (String.get (N.to_nat n) "0123456789abcdef").

Definition isprintable (c : ascii) : bool :=
  let n := ord c in
  negb ((n <? 32) || ((127 <=? n) && (n <=? 160)) || (n =? 173))%N.

Definition repr_char (q c : ascii) : string :=
  let n := ord c in
  if Ascii.eqb c q || Ascii.eqb c backslash
  then String backslash (String c EmptyString)
  else if (n =? 9)%N then String backslash "t"
  else if (n =? 10)%N then String backslash "n"
  else if (n =? 13)%N then String backslash "r"
  else if isprintable c then String c EmptyString
  else String backslash
         (String "x" (String (hexdigit (n / 16))
                             (String (hexdigit (n mod 16)) EmptyString))).

Fixpoint repr_body (q : ascii) (s : string) : string :=
  match s with
  | EmptyString => EmptyString
  | String c s' => repr_char q c +:+ repr_body q s'
  end.

Definition repr (s : string) : string :=
  let q := if Nat.ltb 0 (count "'" s) && Nat.eqb (count dquote s) 0
           then dquote else "'"%char in
  String q (repr_body q s +:+ String q EmptyString).

(** The digits at the head of an [int] literal after its sign: digits
    with single underscores between them.  The result is the number of
    digits read, their value and what follows them; [None] when two
    underscores follow each other or an underscore ends the run.  [us]
    tells whether the previous character was an underscore. *)
Fixpoint int_run (n : N) (acc : Z) (us : bool) (s : string)
  : option (N * Z * string) :=
  match s with
  | EmptyString => if us then None else Some (n, acc, EmptyString)
  | String c s' =>
      match digit c with
      | Some d => int_run (n + 1) (10 * acc + d)%Z false s'
      | None =>
          if Ascii.eqb c "_" then (if us then None else int_run n acc true s')
          else if us then None else Some (n, acc, s)
      end
  end.

(** [sys.get_int_max_str_digits()], as the interpreter starts. *)
Definition max_str_digits : N := 4300.

(** [int(s)] in base 10, with the message of the [ValueError] it raises:
    blanks around the literal and one sign are dropped; a run of more than
    4300 digits is refused before what follows it is looked at; the
    message for any other text quotes at most 200 characters of its
    [repr]. *)
Definition int_read (s : string) : string + Z :=
  let invalid := "invalid literal for int() with base 10: " +:+ take 200 (repr s) in
  let signed := match strip_with int_blank s with
                | String "+" b => (false, b)
                | String "-" b => (true, b)
                | b => (false, b)
                end in
  match signed.2 with
  | String "_" _ => inl invalid
  | body =>
      match int_run 0 0 false body with
      | None => inl invalid
      | Some (n, v, rest) =>
          if (max_str_digits <? n)%N then
            inl ("Exceeds the limit (4300 digits) for integer string conversion: value has "
                 +:+ pretty n
                 +:+ " digits; use sys.set_int_max_str_digits() to increase the limit")
          else if (n =? 0)%N || negb (String.eqb rest EmptyString) then inl invalid
          else inr (if signed.1 then (- v)%Z else v)
      end
  end.

(** [int(s)], [None] standing for the [ValueError] it raises. *)
Definition int (s : string) : option Z :=
  match int_read s with
  | inr n => Some n
  | inl _ => None
  end.

End Py.

(** ** Exceptions *)

Inductive exn : Type :=
| ValueError (msg : string)
| IndexError
| KeyError (key : string)
| TypeError
| AttributeError
| OverflowError
| OperationalError (msg : string).

Definition result (A : Type) : Type := exn + A.

(** ** The SQLite tables *)

Module Sql.

(** A table: column names, the column sets declared
    [UNIQUE(...) ON CONFLICT REPLACE], and the rows in rowid order.  All
    values are TEXT. *)
Record table : Type := Table {
  t_cols : list string;
  t_unique : list (list string);
  t_rows : list (list string)
}.

Fixpoint index_of (c : string) (cols : list string) : option nat :=
  match cols with
  | [] => None
  | c' :: cols' => if String.eqb c c' then Some 0 else S <$> index_of c cols'
  end.

Definition cell (cols : list string) (row : list string) (c : string)
  : option string :=
  i ← index_of c cols; row !! i.

(** [create table if not exists]: an existing table is left as it is. *)
Definition create_if_not_exists (existing : option table)
    (cols : list string) (unique : list (list string)) : table :=
  match existing with
  | Some t => t
  | None => Table cols unique []
  end.

Definition same_key (cols key : list string) (r1 r2 : list string) : bool :=
  forallb (fun c => match cell cols r1 c, cell cols r2 c with
                    | Some a, Some b => String.eqb a b
                    | _, _ => false
                    end) key.

Definition conflicts (t : table) (new old : list string) : bool :=
  existsb (fun key => same_key (t_cols t) key new old) (t_unique t).

(** One row of [INSERT INTO t VALUES(?, ..., ?)]: the values go to the
    columns by position, and rows that clash with the new one on a
    REPLACE constraint are deleted before it is added. *)
Definition insert_row (t : table) (vals : list string) : table :=
  Table (t_cols t) (t_unique t)
        (filter (fun old => conflicts t vals old = false) (t_rows t) ++ [vals]).

Definition arity_error (name : string) (t : table) (n : nat) : exn :=
  OperationalError
    ("table " +:+ name +:+ " has " +:+ pretty (length (t_cols t))
     +:+ " columns but " +:+ pretty n +:+ " values were supplied").

(** [cursor.executemany('INSERT INTO name VALUES(?, ..n.., ?)', rows)]:
    the statement is compiled first, and is refused when the table does
    not have [n] columns. *)
Definition insert_values (name : string) (n : nat) (t : table)
    (rows : list (list string)) : result table :=
  if Nat.eqb (length (t_cols t)) n
  then inr (foldl insert_row t rows)
  else inl (arity_error name t n).

(** The tuple [i] a SELECT of the program yields:
    [id, message, user, timestamp, channel]. *)
Record row : Type := Row {
  r_id : string;
  r_message : string;
  r_user : string;
  r_timestamp : string;
  r_channel : string
}.

Definition selected : list string :=
  ["id"; "message"; "user"; "timestamp"; "channel"].

Definition project (cols : list string) (r : list string) : row :=
  let get c := default EmptyString (cell cols r c) in
  Row (get "id") (get "message") (get "user") (get "timestamp") (get "channel").

(** ASCII-only case folding, as SQLite's LIKE does. *)
Definition fold_case (c : ascii) : ascii :=
  let n := Py.ord c in
  if ((65 <=? n) && (n <=? 90))%N then ascii_of_N (n + 32) else c.

(** [s LIKE p]: [%] stands for any run of characters, [_] for any one
    character, letters compare without case. *)
Fixpoint like (p : string) : string -> bool :=
  match p with
  | EmptyString => fun s => match s with EmptyString => true | _ => false end
  | String c p' =>
      if Ascii.eqb c "%" then
        fix skip (s : string) : bool :=
          like p' s || match s with
                       | EmptyString => false
                       | String _ s' => skip s'
                       end
      else fun s =>
        match s with
        | EmptyString => false
        | String d s' =>
            (Ascii.eqb c "_" || Ascii.eqb (fold_case c) (fold_case d))
            && like p' s'
        end
  end.

(** The conjuncts the program puts after WHERE. *)
Inductive cond : Type :=
| IdLike (pat : string)
| MessageLike (pat : string)
| UserEq (u : string)
| ChannelEq (c : string).

Inductive order : Type := Asc | Desc.

Record select : Type := Select {
  q_where : list cond;
  q_order : option order
}.

Definition holds (r : row) (c : cond) : bool :=
  match c with
  | IdLike p => like p (r_id r)
  | MessageLike p => like p (r_message r)
  | UserEq u => String.eqb (r_user r) u
  | ChannelEq c => String.eqb (r_channel r) c
  end.

Definition ts_le (a b : row) : Prop := String.le (r_timestamp a) (r_timestamp b).
Definition ts_ge (a b : row) : Prop := String.le (r_timestamp b) (r_timestamp a).

#[global] Instance ts_le_dec : RelDecision ts_le.
Proof. intros a b. unfold ts_le. apply _. Defined.
#[global] Instance ts_ge_dec : RelDecision ts_ge.
Proof. intros a b. unfold ts_ge. apply _. Defined.

(** A sort that keeps rows of equal rank in the order they came in. *)
Fixpoint insert_by (R : row -> row -> Prop) `{!RelDecision R} (x : row)
    (l : list row) : list row :=
  match l with
  | [] => [x]
  | y :: l' => if decide (R x y) then x :: l else y :: insert_by R x l'
  end.

Definition sort_by (R : row -> row -> Prop) `{!RelDecision R} (l : list row)
  : list row :=
  foldr (insert_by R) [] l.

(** ORDER BY timestamp: the timestamps are compared as text, and rows
    with equal timestamps stay in the order the scan yielded them. *)
Definition sorted (o : option order) (l : list row) : list row :=
  match o with
  | None => l
  | Some Asc => sort_by ts_le l
  | Some Desc => sort_by ts_ge l
  end.

Definition by_channel (q : select) : bool :=
  existsb (fun c => match c with ChannelEq _ => true | _ => false end)
          (q_where q).

(** The rows that satisfy the WHERE clause, in the order SQLite (3.40, no
    statistics gathered) reads them.  A table has no index but those of
    its UNIQUE constraints.  The rows are read in rowid order, except that
    a statement with a [channel = ?] conjunct on a table whose constraint
    is the [UNIQUE(channel, timestamp)] of line 33 is answered through the
    index of that constraint, which yields the rows of the channel by
    timestamp, compared as text.  With other constraints the choice of an
    index is the planner's, and is not modelled: what is stated below
    about the order of the rows is stated for tables with the constraint
    of line 33 or with none. *)
Definition scan (q : select) (t : table) : list row :=
  let l := filter (fun r => forallb (holds r) (q_where q) = true)
                  (map (project (t_cols t)) (t_rows t)) in
  if by_channel q && bool_decide (t_unique t = [["channel"; "timestamp"]])
  then sort_by ts_le l else l.

Definition matching (q : select) (t : table) : list row :=
  sorted (q_order q) (scan q t).

(** [cursor.execute('SELECT id,message,user,timestamp,channel FROM
    messages WHERE ...')]: refused when a named column is missing. *)
Definition execute (q : select) (t : table) : result (list row) :=
  match List.find (fun c => negb (bool_decide (c ∈ t_cols t))) selected with
  | Some c => inl (OperationalError ("no such column: " +:+ c))
  | None => inr (matching q t)
  end.

(** [cursor.fetchmany(size)]: [size] is converted to a C [int]; rows are
    appended until their number equals [size], which never happens for
    [size <= 0]. *)
Definition fetchmany {A} (size : Z) (pending : list A) : result (list A) :=
  if ((size <? - 2 ^ 31) || (2 ^ 31 <=? size))%Z then inl OverflowError
  else if (size <=? 0)%Z then inr pending
  else inr (List.firstn (Z.to_nat size) pending).

End Sql.

(** ** The world the program runs in *)

(** What [sc.api_call('users.list')] lists for a member. *)
Record member : Type := Member {
  m_name : string;
  m_id : string;
  m_image_72 : option string          (* m['profile'].get('image_72', ...) *)
}.

(** What [channels.list] and [groups.list] list for a channel.  The keys
    the program tests or may miss are optional. *)
Record channel_obj : Type := ChannelObj {
  c_name : string;
  c_id : string;
  c_is_group : bool;                  (* 'is_group' in m *)
  c_is_private : option bool;         (* m['is_private'] *)
  c_members : option (list string)    (* m['members'] *)
}.

Record backend : Type := Backend {
  users_list : list member;
  channels_list : list channel_obj;
  groups_list : list channel_obj
}.

(** An entry of [ENV['channel_info']]. *)
Record visibility : Type := Visibility {
  is_private : bool;
  members : list string
}.

(** The dictionary [ENV]. *)
Record directory : Type := Directory {
  user_id : gmap string string;
  id_user : gmap string string;
  channel_id : gmap string string;
  id_channel : gmap string string;
  channel_info : gmap string visibility
}.

Definition ENV0 : directory := Directory ∅ ∅ ∅ ∅ ∅.

(** The database file.  The users and channels tables are taken with the
    columns of lines 34-35, which the statements on them agree with; the
    messages table keeps its columns explicit, because the statements of
    the program and line 33 do not agree on them. *)
Record database : Type := Database {
  messages : Sql.table;
  users : list (string * string * string);      (* name, id, avatar *)
  channels : list (string * string)             (* name, id *)
}.

(** Line 33. *)
Definition messages_schema : list string * list (list string) :=
  (["message"; "user"; "channel"; "timestamp"], [["channel"; "timestamp"]]).

(** Lines 31-35 on a file in which the messages table is [existing]. *)
Definition connect (existing : option Sql.table)
    (us : list (string * string * string)) (cs : list (string * string))
  : database :=
  Database (Sql.create_if_not_exists existing messages_schema.1 messages_schema.2)
           us cs.

(** Calls made on the cursor and the connection, oldest first. *)
Inductive statement : Type :=
| SelectMessages (q : Sql.select)
| InsertMessages (rows : list (list string))
| InsertUsers (rows : list (string * string * string))
| InsertChannels (rows : list (string * string))
| Commit.

Record world : Type := World {
  ENV : directory;
  db : database;
  sc : backend;                       (* what the workspace lists now *)
  outbox : list (string * string);    (* send_message(message, channel), oldest first *)
  journal : list statement;
  logs_txt : list string;             (* lines written to logs.txt *)
  drawn : nat                         (* uuid.uuid4() calls so far *)
}.

Definition with_ENV (f : directory -> directory) (w : world) : world :=
  World (f (ENV w)) (db w) (sc w) (outbox w) (journal w) (logs_txt w) (drawn w).
Definition with_db (f : database -> database) (w : world) : world :=
  World (ENV w) (f (db w)) (sc w) (outbox w) (journal w) (logs_txt w) (drawn w).
Definition with_outbox (f : list (string * string) -> list (string * string))
    (w : world) : world :=
  World (ENV w) (db w) (sc w) (f (outbox w)) (journal w) (logs_txt w) (drawn w).
Definition with_journal (f : list statement -> list statement) (w : world) : world :=
  World (ENV w) (db w) (sc w) (outbox w) (f (journal w)) (logs_txt w) (drawn w).
Definition with_logs_txt (f : list string -> list string) (w : world) : world :=
  World (ENV w) (db w) (sc w) (outbox w) (journal w) (f (logs_txt w)) (drawn w).
Definition with_drawn (f : nat -> nat) (w : world) : world :=
  World (ENV w) (db w) (sc w) (outbox w) (journal w) (logs_txt w) (f (drawn w)).

(** ** State and exceptions *)

Definition M (A : Type) : Type := world -> result A * world.

#[global] Instance M_ret : MRet M := fun A a w => (inr a, w).
#[global] Instance M_bind : MBind M := fun A B k m w =>
  match m w with
  | (inl e, w') => (inl e, w')
  | (inr a, w') => k a w'
  end.

Definition raise {A} (e : exn) : M A := fun w => (inl e, w).
Definition lift {A} (r : result A) : M A := fun w => (r, w).
Definition gets {A} (f : world -> A) : M A := fun w => (inr (f w), w).
Definition modify (f : world -> world) : M unit := fun w => (inr tt, f w).

(** [try: body except: handler()] *)
Definition try_except {A} (body : M A) (handler : M A) : M A :=
  fun w => match body w with
           | (inl _, w') => handler w'
           | r => r
           end.

(** [try: body except ValueError as e: handler(str(e))] *)
Definition try_except_ValueError {A} (body : M A) (handler : string -> M A) : M A :=
  fun w => match body w with
           | (inl (ValueError msg), w') => handler msg w'
           | r => r
           end.

(** [for x in l: body(x)] *)
Fixpoint for_each {A} (l : list A) (body : A -> M unit) : M unit :=
  match l with
  | [] => mret tt
  | x :: l' => body x;; for_each l' body
  end.

(** [dict(pairs)]: a later pair with the same key wins. *)
Definition dict {V} (pairs : list (string * V)) : gmap string V :=
  foldl (fun m kv => <[kv.1 := kv.2]> m) ∅ pairs.

(** [INSERT INTO users ...] / [INSERT INTO channels ...] under
    [UNIQUE(id) ON CONFLICT REPLACE]. *)
Definition upsert_user (rows : list (string * string * string))
    (r : string * string * string) : list (string * string * string) :=
  filter (fun old => old.1.2 ≠ r.1.2) rows ++ [r].
Definition upsert_channel (rows : list (string * string))
    (r : string * string) : list (string * string) :=
  filter (fun old => old.2 ≠ r.2) rows ++ [r].

Definition commit : M unit := modify (with_journal (fun j => j ++ [Commit])).

(** ** Directory cache (lines 56-131) *)

Definition default_avatar : string :=
  "https://secure.gravatar.com/avatar/c3a07fba0c4787b0ef1d417838eae9c5.jpg?s=32&d=https%3A%2F%2Ffst.slack-edge.com%2F66f9%2Fimg%2Favatars%2Fava_0024-32.png".

Definition update_users : M unit :=
  info ← gets (fun w => users_list (sc w));
  modify (with_ENV (fun E =>
    Directory (dict (map (fun m => (m_name m, m_id m)) info))
              (dict (map (fun m => (m_id m, m_name m)) info))
              (channel_id E) (id_channel E) (channel_info E)));;
  let args := map (fun m => (m_name m, m_id m, default default_avatar (m_image_72 m))) info in
  modify (with_journal (fun j => j ++ [InsertUsers args]));;
  modify (with_db (fun d => Database (messages d) (foldl upsert_user (users d) args) (channels d)));;
  commit.

Definition get_user_name (uid : string) : M (option string) :=
  E ← gets ENV;
  (if decide (is_Some (id_user E !! uid)) then mret tt else update_users);;
  gets (fun w => id_user (ENV w) !! uid).

Definition get_user_id (name : string) : M (option string) :=
  E ← gets ENV;
  (if decide (is_Some (user_id E !! name)) then mret tt else update_users);;
  gets (fun w => user_id (ENV w) !! name).

(** The body of the loop of lines 90-99, the [args.append] apart. *)
Definition record_channel (m : channel_obj) : M unit :=
  priv ← (if c_is_group m then mret true
          else match c_is_private m with
               | Some b => mret b
               | None => raise (KeyError "is_private")
               end);
  mem ← match c_members m with
        | Some l => mret l
        | None => raise (KeyError "members")
        end;
  modify (with_ENV (fun E =>
    Directory (user_id E) (id_user E) (channel_id E) (id_channel E)
              (<[c_id m := Visibility priv mem]> (channel_info E)))).

Definition update_channels : M unit :=
  info ← gets (fun w => channels_list (sc w) ++ groups_list (sc w));
  modify (with_ENV (fun E =>
    Directory (user_id E) (id_user E)
              (dict (map (fun m => (c_name m, c_id m)) info))
              (dict (map (fun m => (c_id m, c_name m)) info))
              (channel_info E)));;
  for_each info record_channel;;
  let args := map (fun m => (c_name m, c_id m)) info in
  modify (with_journal (fun j => j ++ [InsertChannels args]));;
  modify (with_db (fun d => Database (messages d) (users d) (foldl upsert_channel (channels d) args)));;
  commit.

Definition get_channel_name (uid : string) : M (option string) :=
  E ← gets ENV;
  (if decide (is_Some (id_channel E !! uid)) then mret tt else update_channels);;
  gets (fun w => id_channel (ENV w) !! uid).

Definition get_channel_id (name : string) : M (option string) :=
  E ← gets ENV;
  (if decide (is_Some (channel_id E !! name)) then mret tt else update_channels);;
  gets (fun w => channel_id (ENV w) !! name).

Definition send_message (message channel : string) : M unit :=
  modify (with_outbox (fun o => o ++ [(message, channel)])).

(** [can_query_channel]: Python's [None], which the function returns by
    falling off its end, is [None]; [True] and [False] are [Some _]. *)
Definition can_query_channel (cid uid : string) : M (option bool) :=
  E ← gets ENV;
  if decide (is_Some (id_channel E !! cid)) then
    match channel_info E !! cid with
    | Some ci => mret (Some (negb (is_private ci) || bool_decide (uid ∈ members ci)))
    | None => raise (KeyError cid)
    end
  else mret None.

(** Truth value of what [can_query_channel] returns. *)
Definition truthy (v : option bool) : bool := default false v.

(** ** Events *)

(** The dictionaries under ['message'] and ['previous_message']. *)
Record payload : Type := Payload {
  p_text : option string;
  p_user : option string;
  p_ts : option string
}.

(** An event read from the RTM stream: every key may be missing. *)
Record event : Type := Event {
  e_subtype : option string;
  e_text : option string;
  e_channel : option string;
  e_user : option string;
  e_ts : option string;
  e_message : option payload;
  e_previous_message : option payload
}.

(** [event['text'] = t] *)
Definition set_text (t : string) (ev : event) : event :=
  Event (e_subtype ev) (Some t) (e_channel ev) (e_user ev) (e_ts ev)
        (e_message ev) (e_previous_message ev).

(** [d[k]] *)
Definition item {A} (k : string) (v : option A) : M A :=
  match v with
  | Some a => mret a
  | None => raise (KeyError k)
  end.

(** [l[n]] *)
Definition index {A} (l : list A) (n : nat) : M A :=
  match l !! n with
  | Some a => mret a
  | None => raise IndexError
  end.

(** The local variables of [handle_query] that the token loop sets. *)
Record plan : Type := Plan {
  text : list string;
  user : option string;
  channel : option string;
  sort : option string;
  limit : Z
}.

(** Lines 150-154. *)
Definition plan0 : plan := Plan [] None None None 10.

(** [len(p) > 2 and p[0] == ':' and p[-1] == ':'] *)
Definition is_emoji (p : string) : bool :=
  (2 <? String.length p)%nat
  && bool_decide (Py.first p = Some ":"%char)
  && bool_decide (Py.last p = Some ":"%char).

(** [if s:] on a value that is [None] or a string. *)
Definition nonempty (s : option string) : option string :=
  match s with
  | Some EmptyString => None
  | _ => s
  end.

(** Lines 196-211: the statement built from the parsed tokens. *)
Definition build_query (v : plan) : Sql.select :=
  Sql.Select
    ([Sql.MessageLike ("%" +:+ Py.join " " (text v) +:+ "%")]
     ++ match nonempty (user v) with Some u => [Sql.UserEq u] | None => [] end
     ++ match nonempty (channel v) with Some c => [Sql.ChannelEq c] | None => [] end)
    (match nonempty (sort v) with
     | Some s => if String.eqb s "desc" then Some Sql.Desc
                 else if String.eqb s "asc" then Some Sql.Asc else None
     | None => None
     end).

(** Lines 235-248. *)
Definition get_user (id : option string) : string :=
  match id with
  | Some i =>
      if String.eqb i "U15HY5TG8" then "Evan"
      else if String.eqb i "U15HSHSS2" then "Tommy"
      else if String.eqb i "U15HZ01QX" then "James"
      else if String.eqb i "U15J5H60P" then "Andrew"
      else if String.eqb i "U15HRTAHL" then "Joe"
      else i
  | None => "bot"
  end.

(** The regular expression of line 270, compiled with [re.I]. *)
Definition hex (c : ascii) : bool :=
  let n := Py.ord c in
  (((48 <=? n) && (n <=? 57)) || ((65 <=? n) && (n <=? 70))
   || ((97 <=? n) && (n <=? 102)))%N.
Definition variant (c : ascii) : bool :=
  bool_decide (c ∈ ["8"; "9"; "a"; "b"; "A"; "B"]%char).
Definition lit (d : ascii) (c : ascii) : bool := Ascii.eqb c d.

Definition uuid4hex : list (ascii -> bool) :=
  replicate 8 hex ++ [lit "-"] ++ replicate 4 hex ++ [lit "-"; lit "4"]
  ++ replicate 3 hex ++ [lit "-"; variant] ++ replicate 3 hex ++ [lit "-"]
  ++ replicate 12 hex.

(** [pattern.match(s)]: the pattern must match at the start of [s]. *)
Fixpoint re_match (pattern : list (ascii -> bool)) (s : string) : bool :=
  match pattern, s with
  | [], _ => true
  | _ :: _, EmptyString => false
  | cls :: pattern', String c s' => cls c && re_match pattern' s'
  end.

Definition operations_channel : string := "CJ9745N3U".
Definition mention : string := "<@UJ8U80MKL>".


(** ** A small workspace to run the program on *)

Module Sample.

Definition strftime : Z -> result string := fun n => inr (pretty n).
Definition notice_time : string -> result string := fun s => inr s.
Definition uuid4 : nat -> string :=
  fun n => "0000000" +:+ pretty n +:+ "-0000-4000-8000-000000000000".

(** One user, a public channel she is in, and a private group she is not
    in. *)
Definition workspace : backend :=
  Backend [Member "alice" "U1" None]
          [ChannelObj "general" "C1" false (Some false) (Some ["U1"])]
          [ChannelObj "secret" "G1" true None (Some ["U2"])].

(** Lines 289-290. *)
Definition boot (w : world) : world := (update_channels (update_users w).2).2.

(** The program started on a new database file. *)
Definition fresh : world :=
  World ENV0 (connect None [] []) workspace [] [] [] 0.

(** A messages table made beforehand with the [id] column, holding two
    messages of the public channel and one of the private group. *)
Definition stored : Sql.table :=
  Sql.Table ["id"; "message"; "user"; "channel"; "timestamp"]
            [["channel"; "timestamp"]]
            [["aaaa"; "hello world"; "U1"; "C1"; "1.0"];
             ["bbbb"; "hello secret"; "U2"; "G1"; "2.0"];
             ["cccc"; "hello there"; "U1"; "C1"; "3.0"]].

(** The program started on that file, its directory not yet loaded. *)
Definition cold : world :=
  World ENV0 (connect (Some stored) [] []) workspace [] [] [] 0.

(** The same, after lines 289-290. *)
Definition archive : world := boot cold.

(** A message event without subtype. *)
Definition said (ch usr txt ts : string) : event :=
  Event None (Some txt) (Some ch) (Some usr) (Some ts) None None.

(** An edit event as the workspace sends it: no top-level text. *)
Definition edited (ch : string) (old new : string) : event :=
  Event (Some "message_changed") None (Some ch) None None
        (Some (Payload (Some new) (Some "U1") (Some "1.0")))
        (Some (Payload (Some old) (Some "U1") (Some "1.0"))).

(** A workspace whose groups list holds an object without the [is_group]
    key. *)
Definition odd_workspace : backend :=
  Backend [] [] [ChannelObj "g" "G9" false (Some false) (Some [])].

Definition odd : world :=
  World ENV0 (connect None [] []) odd_workspace [] [] [] 0.

End Sample.

Module Sample2.

(** A bot message that mentions the bot and quotes an identifier. *)
Definition bot_mention : event :=
  Event (Some "bot_message")
        (Some "<@UJ8U80MKL> 123e4567-e89b-42d3-a456-426614174000")
        (Some "C1") (Some "U9") (Some "5.0") None None.

(** The same text from a user. *)
Definition user_mention : event :=
  Event None (Some "<@UJ8U80MKL> 123e4567-e89b-42d3-a456-426614174000")
        (Some "C1") (Some "U1") (Some "5.0") None None.

(** An edit event that also carries the keys of a plain message. *)
Definition edited_with_text : event :=
  Event (Some "message_changed") (Some "new body") (Some "C1") (Some "U1")
        (Some "1.0")
        (Some (Payload (Some "new body") (Some "U1") (Some "1.0")))
        (Some (Payload (Some "hello world") (Some "U1") (Some "1.0"))).

End Sample2.

(** Closes a goal [x ∉ [a; b; ...]] between distinct closed terms. *)
Ltac not_among :=
  let H := fresh in
  intros H; repeat (apply elem_of_cons in H as [H|H]; [discriminate|]);
  by apply elem_of_nil in H.

Module Sample3.

(** A workspace in which a name is listed twice, and a users table that
    holds a stale row for [U1] and a row for a user who has left. *)
Definition twins_workspace : backend :=
  Backend [Member "alice" "U1" None; Member "bob" "U2" None;
           Member "alice" "U3" (Some "https://example.org/a.png")]
          [ChannelObj "general" "C1" false (Some false) (Some ["U1"])]
          [].

Definition twins : world :=
  World ENV0
        (connect (Some Sample.stored)
           [("carol", "U0", "old.png"); ("al", "U1", "stale.png")] [])
        twins_workspace [] [] [] 0.

(** A workspace whose second channel object has no [members] key. *)
Definition broken_workspace : backend :=
  Backend []
          [ChannelObj "general" "C1" false (Some false) (Some ["U1"]);
           ChannelObj "lobby" "C7" false (Some false) None;
           ChannelObj "late" "C8" false (Some false) (Some [])]
          [].

Definition broken : world :=
  World ENV0 (connect (Some Sample.stored) [] []) broken_workspace [] [] [] 0.

(** A deletion event as the workspace sends it: no top-level text. *)
Definition deleted (ch old : string) : event :=
  Event (Some "message_deleted") None (Some ch) None None None
        (Some (Payload (Some old) (Some "U1") (Some "1.0"))).

(** A batch whose second event is a blank direct message. *)
Definition batch : list (option string * event) :=
  [(Some "message", Sample.said "C1" "U1" "one" "7.0");
   (Some "message", Sample.said "D1" "U1" "" "9.0");
   (Some "message", Sample.said "C1" "U1" "two" "8.0")].

End Sample3.

Module Sample4.

(** A messages table whose rows were stored out of the order of their
    timestamps. *)
Definition shuffled : Sql.table :=
  Sql.Table ["id"; "message"; "user"; "channel"; "timestamp"]
            [["channel"; "timestamp"]]
            [["aaaa"; "hello late"; "U1"; "C1"; "3.0"];
             ["bbbb"; "hello secret"; "U2"; "G1"; "2.0"];
             ["cccc"; "hello early"; "U1"; "C1"; "1.0"]].


End Sample4.
(** ** The handlers (lines 121-124 and 134-283) *)

Section Handlers.

(** What the platform decides: the local-time rendering of an epoch
    second ([datetime.fromtimestamp(n).strftime('%Y-%m-%d %H:%M:%S')]), of
    a timestamp string in a notice ([float], [fromtimestamp] and
    [strftime("%m/%d/%Y, %H:%M:%S %p")], with whatever they raise), and the
    identifiers [uuid.uuid4()] draws. *)
Variable strftime_local : Z -> result string.
Variable notice_time : string -> result string.
Variable uuid4 : nat -> string.

Definition convert_timestamp (ts : string) : M string :=
  match Py.int_read (default EmptyString (head (Py.split_on "." ts))) with
  | inr n => lift (strftime_local n)
  | inl msg => raise (ValueError msg)
  end.

(** Lines 176-194: a token that splits in two around its colon. *)
Definition parse_filter (v : plan) (p0 p1 : string) : M plan :=
  v ← (if String.eqb p0 "from" then
         u ← get_user_id (Py.strip (Py.remove_char "@" p1));
         match u with
         | None => raise (ValueError ("User " +:+ p1 +:+ " not found"))
         | Some _ => mret (Plan (text v) u (channel v) (sort v) (limit v))
         end
       else mret v);
  v ← (if String.eqb p0 "in" then
         c ← get_channel_id (Py.strip (Py.remove_char "#" p1));
         match c with
         | None => raise (ValueError ("Channel " +:+ p1 +:+ " not found"))
         | Some _ => mret (Plan (text v) (user v) c (sort v) (limit v))
         end
       else mret v);
  v ← (if String.eqb p0 "sort" then
         if bool_decide (p1 ∈ ["asc"; "desc"])
         then mret (Plan (text v) (user v) (channel v) (Some p1) (limit v))
         else raise (ValueError ("Invalid sort order " +:+ p1))
       else mret v);
  if String.eqb p0 "limit" then
    match Py.int p1 with
    | Some n => mret (Plan (text v) (user v) (channel v) (sort v) n)
    | None => raise (ValueError (p1 +:+ " not a valid number"))
    end
  else mret v.

(** Lines 166-194: the body of the loop over the tokens. *)
Definition parse_token (v : plan) (p : string) : M plan :=
  if is_emoji p then mret (Plan (text v ++ [p]) (user v) (channel v) (sort v) (limit v))
  else
    match Py.split_on ":" p with
    | [p0] => mret (Plan (text v ++ [p0]) (user v) (channel v) (sort v) (limit v))
    | [p0; p1] => parse_filter v p0 p1
    | _ => mret v
    end.

Fixpoint parse_tokens (v : plan) (params : list string) : M plan :=
  match params with
  | [] => mret v
  | p :: params' => v' ← parse_token v p; parse_tokens v' params'
  end.

(** Lines 158-211: the statement and the limit. *)
Definition parse_query (params : list string) : M (Sql.select * Z) :=
  p ← index params 0;
  if String.eqb (Py.take 3 p) "id:" then
    uid ← index (Py.split_on ":" p) 1;
    mret (Sql.Select [Sql.IdLike uid] None, limit plan0)
  else
    v ← parse_tokens plan0 params;
    mret (build_query v, limit v).

(** Line 216. *)
Definition execute (q : Sql.select) : M (list Sql.row) :=
  modify (with_journal (fun j => j ++ [SelectMessages q]));;
  t ← gets (fun w => messages (db w));
  lift (Sql.execute q t).

(** Lines 223-225: one rendered record. *)
Definition render (i : Sql.row) : M string :=
  name ← get_user_name (Sql.r_user i);
  ts ← convert_timestamp (Sql.r_timestamp i);
  cname ← get_channel_name (Sql.r_channel i);
  match cname with
  | None => raise TypeError
  | Some c =>
      mret (Sql.r_message i +:+ " (@" +:+ default "None" name +:+ ", " +:+ ts
            +:+ ", " +:+ "#" +:+ c +:+ ", " +:+ "id:" +:+ Sql.r_id i +:+ ")")
  end.

(** The list comprehension of lines 223-225: the records rendered, with
    their lines. *)
Fixpoint render_visible (ev : event) (res : list Sql.row)
  : M (list (Sql.row * string)) :=
  match res with
  | [] => mret []
  | i :: res' =>
      uid ← item "user" (e_user ev);
      ok ← can_query_channel (Sql.r_channel i) uid;
      if truthy ok then
        line ← render i;
        rest ← render_visible ev res';
        mret ((i, line) :: rest)
      else render_visible ev res'
  end.

(** Lines 218-230. *)
Definition respond (ev : event) (res : list Sql.row) : M unit :=
  res_message ← (match res with
                 | [] => mret None
                 | _ => shown ← render_visible ev res;
                        mret (Some (Py.join (String (ascii_of_nat 10) EmptyString)
                                            (map snd shown)))
                 end);
  ch ← item "channel" (e_channel ev);
  match nonempty res_message with
  | Some m => send_message m ch
  | None => send_message "No results found" ch
  end.

(** Lines 150-230: the body of the [try]. *)
Definition query_body (ev : event) : M unit :=
  t ← item "text" (e_text ev);
  '(query, lim) ← parse_query (Py.split (Py.lower t));
  pending ← execute query;
  res ← lift (Sql.fetchmany lim pending);
  respond ev res.

(** Lines 231-233: the handler of the [try]. *)
Definition report (ev : event) (msg : string) : M unit :=
  ch ← item "channel" (e_channel ev);
  send_message msg ch.

Definition handle_query (ev : event) : M unit :=
  try_except_ValueError (query_body ev) (report ev).

(** [event.get("previous_message").get(k)] and the like. *)
Definition attr {A} (d : option payload) (get : payload -> A) : M A :=
  match d with
  | Some p => mret (get p)
  | None => raise AttributeError
  end.

(** [s + x] for a string [s] and an [x] that may be [None]. *)
Definition concat (s : string) (x : option string) : M string :=
  match x with
  | Some t => mret (s +:+ t)
  | None => raise TypeError
  end.

(** [fromtimestamp(float(x)).strftime(...)] *)
Definition notice_when (x : option string) : M string :=
  match x with
  | Some t => lift (notice_time t)
  | None => raise TypeError
  end.

(** [get_channel_name(event.get("channel"))] *)
Definition channel_name_of (ev : event) : M (option string) :=
  match e_channel ev with
  | Some c => get_channel_name c
  | None => update_channels;; mret None
  end.

(** Lines 253-254.  [numvar] is only computed for what it may raise. *)
Definition deleted_notice (ev : event) : M unit :=
  ts ← attr (e_previous_message ev) p_ts;
  notice_when ts;;
  who ← attr (e_previous_message ev) p_user;
  ts ← attr (e_previous_message ev) p_ts;
  sent_on ← notice_when ts;
  cname ← channel_name_of ev;
  s ← concat ("The following message from @" +:+ get_user who +:+ " (sent on "
              +:+ sent_on +:+ ") was deleted from #") cname;
  old ← attr (e_previous_message ev) p_text;
  s ← concat (s +:+ String (ascii_of_nat 10) ">") old;
  send_message (s +:+ String (ascii_of_nat 10) EmptyString) operations_channel.

(** Lines 256-257. *)
Definition changed_notice (ev : event) : M unit :=
  attr (e_message ev) p_text;;
  who ← attr (e_message ev) p_user;
  ts ← attr (e_previous_message ev) p_ts;
  sent_on ← notice_when ts;
  cname ← channel_name_of ev;
  s ← concat ("@" +:+ get_user who +:+ " edited their message (sent on "
              +:+ sent_on +:+ ") from #") cname;
  old ← attr (e_previous_message ev) p_text;
  s ← concat (s +:+ ": " +:+ String (ascii_of_nat 10) ">") old;
  new ← attr (e_message ev) p_text;
  s ← concat (s +:+ String (ascii_of_nat 10) (" to say: " +:+ String (ascii_of_nat 10) ">")) new;
  send_message s operations_channel.

(** Lines 280-283. *)
Definition archive (txt usr : string) (ev : event) : M unit :=
  n ← gets drawn;
  modify (with_drawn S);;
  ch ← item "channel" (e_channel ev);
  ts ← item "ts" (e_ts ev);
  let rows := [[uuid4 n; txt; usr; ch; ts]] in
  modify (with_journal (fun j => j ++ [InsertMessages rows]));;
  t ← gets (fun w => messages (db w));
  t' ← lift (Sql.insert_values "messages" 5 t rows);
  modify (with_db (fun d => Database t' (users d) (channels d)));;
  commit.

(** Lines 252-257: the two notices. *)
Definition notices (ev : event) : M unit :=
  (if bool_decide (e_subtype ev = Some "message_deleted")
   then deleted_notice ev else mret tt);;
  (if bool_decide (e_subtype ev = Some "message_changed")
   then changed_notice ev else mret tt).

(** Lines 258-283: the routing of the event. *)
Definition route (ev : event) : M unit :=
  match e_text ev with
  | None => mret tt
  | Some txt =>
      if bool_decide (e_subtype ev = Some "bot_message") then mret tt
      else
        ch ← item "channel" (e_channel ev);
        c0 ← (match Py.first ch with Some c => mret c | None => raise IndexError end);
        if Ascii.eqb c0 "D" then
          modify (with_logs_txt (fun l =>
            l ++ [get_user (e_user ev) +:+ "|" +:+ txt
                  +:+ String (ascii_of_nat 10) EmptyString]));;
          handle_query ev
        else if String.eqb (Py.take 12 txt) mention then
          a1 ← index (Py.split txt) 1;
          if re_match uuid4hex a1
          then handle_query (set_text ("id:" +:+ a1) ev)
          else mret tt
        else
          match e_user ev with
          | None => mret tt
          | Some usr => archive txt usr ev
          end
  end.

Definition handle_message (ev : event) : M unit :=
  notices ev;; route ev.

(** Lines 296-301: what the loop does with one event of type [type]. *)
Definition dispatch (type : option string) (ev : event) : M unit :=
  ty ← item "type" type;
  if String.eqb ty "message" then
    handle_message ev;;
    if bool_decide (e_subtype ev = Some "group_leave") then update_channels
    else mret tt
  else if bool_decide (ty ∈ ["group_joined"; "member_joined_channel";
                             "channel_created"; "group_left"])
  then update_channels
  else mret tt.

(** Lines 293-305 on the events of one [sc.rtm_read()]: an exception ends
    the [for] loop, is logged, and the program goes on to the next read. *)
Definition read_cycle (batch : list (option string * event)) : M unit :=
  try_except (for_each batch (fun te => dispatch te.1 te.2)) (mret tt).


(** The events that get past lines 252-278: a text, none of the subtypes
    the dispatcher singles out, a channel that is not a direct-message
    channel, a text that does not start with the mention of the bot, an
    author and a timestamp. *)
Definition reaches_archive (ev : event) (txt usr ch ts : string) : Prop :=
  e_text ev = Some txt /\ e_user ev = Some usr
  /\ e_channel ev = Some ch /\ e_ts ev = Some ts
  /\ (e_subtype ev ∉ [Some "message_deleted"; Some "message_changed"; Some "bot_message"])
  /\ (exists c0, Py.first ch = Some c0 /\ c0 <> "D"%char)
  /\ Py.take 12 txt <> mention.

(** The columns the statements of lines 162, 196 and 280 assume. *)
Definition archive_columns : list string :=
  ["id"; "message"; "user"; "channel"; "timestamp"].

(** What the comprehension of line 225 keeps: [can_query_channel] returned
    a true value. *)
Definition visible (E : directory) (uid : string) (r : Sql.row) : bool :=
  match id_channel E !! Sql.r_channel r, channel_info E !! Sql.r_channel r with
  | Some _, Some ci => negb (is_private ci) || bool_decide (uid ∈ members ci)
  | _, _ => false
  end.




(** A stored row holds the channel [ch] and the timestamp [ts]. *)
Definition at_key (ch ts : string) (r : list string) : Prop :=
  Sql.cell archive_columns r "channel" = Some ch
  /\ Sql.cell archive_columns r "timestamp" = Some ts.

#[global] Instance at_key_dec ch ts r : Decision (at_key ch ts r).
Proof. unfold at_key. apply _. Defined.

(** ** Further notions used to state what the code does *)

(** The identifier of a row of the users table. *)
Definition user_row_id (r : string * string * string) : string := r.1.2.

(** The row line 64 builds for a member. *)
Definition user_row (m : member) : string * string * string :=
  (m_name m, m_id m, default default_avatar (m_image_72 m)).

(** What [channels.list] and [groups.list] list together (line 85). *)
Definition listing (w : world) : list channel_obj :=
  channels_list (sc w) ++ groups_list (sc w).

(** The audit file, the count of identifiers drawn and what the workspace
    lists are as before. *)
Definition quiet (w w' : world) : Prop :=
  logs_txt w' = logs_txt w /\ drawn w' = drawn w /\ sc w' = sc w.

(** A text made of blanks only. *)
Fixpoint blank (s : string) : bool :=
  match s with
  | EmptyString => true
  | String c s' => Py.isspace c && blank s'
  end.


(** Why a token of a free-text query makes the parser raise [ValueError]
    with message [msg], the world going from [w] to [w']: it splits in two
    around its colon, and its key is [from] with a name that does not
    resolve, [in] with a channel that does not resolve, [sort] with a value
    other than [asc] and [desc], or [limit] with a value [int] refuses. *)
Definition token_failure (tok : string) (w w' : world) (msg : string) : Prop :=
  exists p0 p1,
    Py.split_on ":" tok = [p0; p1]
    /\ ((p0 = "from"
         /\ get_user_id (Py.strip (Py.remove_char "@" p1)) w = (inr None, w')
         /\ msg = "User " +:+ p1 +:+ " not found")
        \/ (p0 = "in"
            /\ get_channel_id (Py.strip (Py.remove_char "#" p1)) w = (inr None, w')
            /\ msg = "Channel " +:+ p1 +:+ " not found")
        \/ (p0 = "sort" /\ (p1 ∉ ["asc"; "desc"]) /\ w' = w
            /\ msg = "Invalid sort order " +:+ p1)
        \/ (p0 = "limit" /\ Py.int p1 = None /\ w' = w
            /\ msg = p1 +:+ " not a valid number")).

(** Why the timestamp of a record makes [convert_timestamp] raise
    [ValueError] with message [msg]: its part before the first dot is
    refused by [int], or the platform refuses the number. *)
Definition timestamp_failure (ts msg : string) : Prop :=
  let secs := default EmptyString (head (Py.split_on "." ts)) in
  Py.int_read secs = inl msg
  \/ exists n, Py.int_read secs = inr n /\ strftime_local n = inl (ValueError msg).



(** The constraints for which the order of the rows is modelled: none, or
    the one of line 33. *)
Definition planned (t : Sql.table) : Prop :=
  Sql.t_unique t = [] \/ Sql.t_unique t = messages_schema.2.

(** ** The string functions on the values Python gives *)

Example split_ex :
  Py.split (Py.lower "  Hello  :Smile: from:@Bob x") = ["hello"; ":smile:"; "from:@bob"; "x"].
Proof. reflexivity. Qed.

Example int_ex : map Py.int ["+5"; "1_0"; "-3"; " 5"; "5 "; "0x10"; ""; "1__0"; "_1"; "1_"; "-"; "007"]
  = [Some 5; Some 10; Some (-3); Some 5; Some 5; None; None; None; None; None; None; Some 7]%Z.
Proof. reflexivity. Qed.

Example int_read_ex :
  Py.int_read "soon" = inl "invalid literal for int() with base 10: 'soon'"
  /\ Py.int_read " 1_000 " = inr 1000%Z
  /\ Py.int_read (String (ascii_of_nat 9) "x'y")
     = inl ("invalid literal for int() with base 10: "
            +:+ String Py.dquote (String Py.backslash "tx'y")
            +:+ String Py.dquote EmptyString)
  /\ Py.int_read (String (ascii_of_nat 160) (String (ascii_of_nat 7) "z"))
     = inl ("invalid literal for int() with base 10: '"
            +:+ String Py.backslash "xa0" +:+ String Py.backslash "x07z'").
Proof. repeat split; reflexivity. Qed.

(** The limit on the digits of a literal: 4300 are read, 4301 are
    refused, whatever follows them. *)
Example int_digits_ex :
  let ones n := String.concat EmptyString (replicate n "1") in
  is_Some (Py.int (ones 4300))
  /\ Py.int (ones 4301) = None
  /\ Py.int_read (ones 4301 +:+ "x")
     = inl "Exceeds the limit (4300 digits) for integer string conversion: value has 4301 digits; use sys.set_int_max_str_digits() to increase the limit".
Proof. vm_compute. repeat split. by eexists. Qed.

(** Rows with equal timestamps keep their order under ORDER BY, in both
    directions; a statement with [channel = ?] on a table with the
    constraint of line 33 yields the rows by timestamp. *)
Example order_ex :
  let t := Sql.Table ["id"; "message"; "user"; "channel"; "timestamp"]
                     [["channel"; "timestamp"]]
                     [["a"; "h"; "U1"; "C1"; "3"]; ["b"; "h"; "U1"; "C2"; "1"];
                      ["c"; "h"; "U1"; "C1"; "1"]; ["d"; "h"; "U1"; "C1"; "10"]] in
  map Sql.r_id (Sql.matching (Sql.Select [Sql.MessageLike "%h%"] (Some Sql.Asc)) t)
  = ["b"; "c"; "d"; "a"]
  /\ map Sql.r_id (Sql.matching (Sql.Select [Sql.MessageLike "%h%"] (Some Sql.Desc)) t)
     = ["a"; "d"; "b"; "c"]
  /\ map Sql.r_id (Sql.matching (Sql.Select [Sql.MessageLike "%h%"; Sql.ChannelEq "C1"] None) t)
     = ["c"; "d"; "a"]
  /\ map Sql.r_id (Sql.matching (Sql.Select [Sql.MessageLike "%h%"] None) t)
     = ["a"; "b"; "c"; "d"].
Proof. repeat split; reflexivity. Qed.

Example like_ex :
  Sql.like "%hello%" "Oh HELLO there" = true /\ Sql.like "id_" "IDx" = true
  /\ Sql.like "%" "" = true /\ Sql.like "abc" "abcd" = false /\ Sql.like "a%c" "abdcc" = true.
Proof. repeat split; reflexivity. Qed.

Example uuid_ex :
  re_match uuid4hex "123E4567-e89b-42d3-A456-426614174000xyz" = true
  /\ re_match uuid4hex "123e4567-e89b-12d3-a456-426614174000" = false.
Proof. split; reflexivity. Qed.

Example split_on_ex : Py.split_on ":" "a::b" = ["a"; ""; "b"] /\ Py.split_on ":" "" = [""] /\ Py.split_on ":" ":" = [""; ""].
Proof. repeat split; reflexivity. Qed.

Example strip_ex : Py.strip " x y  " = "x y" /\ Py.remove_char "@" "A@b@" = "Ab" /\ Py.take 3 "x" = "x" /\ Py.last "abc" = Some "c"%char.
Proof. repeat split; reflexivity. Qed.

(** ** Reasoning about computations *)

Lemma bind_run {A B} (m : M A) (k : A -> M B) w :
  (m ≫= k) w = match m w with
               | (inl e, w') => (inl e, w')
               | (inr a, w') => k a w'
               end.
Proof. reflexivity. Qed.

Lemma ret_bind {A B} (a : A) (k : A -> M B) : (mret a ≫= k) = k a.
Proof. reflexivity. Qed.

Lemma gets_bind {A B} (f : world -> A) (k : A -> M B) w :
  (gets f ≫= k) w = k (f w) w.
Proof. reflexivity. Qed.

Lemma modify_bind {B} (f : world -> world) (k : unit -> M B) w :
  (modify f ≫= k) w = k tt (f w).
Proof. reflexivity. Qed.

Lemma raise_bind {A B} (e : exn) (k : A -> M B) w :
  (raise e ≫= k) w = (inl e, w).
Proof. reflexivity. Qed.

Lemma lift_bind {A B} (r : result A) (k : A -> M B) w :
  (lift r ≫= k) w = match r with
                    | inl e => (inl e, w)
                    | inr a => k a w
                    end.
Proof. by destruct r. Qed.

Lemma bind_assoc {A B C} (m : M A) (k : A -> M B) (h : B -> M C) w :
  ((m ≫= k) ≫= h) w = (m ≫= (fun a => k a ≫= h)) w.
Proof. rewrite !bind_run. by destruct (m w) as [[e|a] w1]. Qed.

(** One step of a run whose first action is elementary. *)
Ltac mstep :=
  repeat first [ rewrite ret_bind | rewrite gets_bind | rewrite modify_bind
               | rewrite raise_bind | rewrite lift_bind ].

Lemma bind_inv {A B} (m : M A) (k : A -> M B) w r w' :
  (m ≫= k) w = (r, w') ->
  (exists e, m w = (inl e, w') /\ r = inl e)
  \/ (exists a w1, m w = (inr a, w1) /\ k a w1 = (r, w')).
Proof.
  rewrite bind_run. destruct (m w) as [[e|a] w1]; intros H.
  - left. exists e. by inversion H.
  - right. by exists a, w1.
Qed.

Lemma bind_ok {A B} (m : M A) (k : A -> M B) w a w1 :
  m w = (inr a, w1) -> (m ≫= k) w = k a w1.
Proof. intros H. by rewrite bind_run, H. Qed.

Lemma bind_raise {A B} (m : M A) (k : A -> M B) w e w1 :
  m w = (inl e, w1) -> (m ≫= k) w = (inl e, w1).
Proof. intros H. by rewrite bind_run, H. Qed.

(** [preserves R m]: every run of [m], raising or not, takes a world to an
    [R]-related one. *)
Definition preserves (R : relation world) {A} (m : M A) : Prop :=
  forall w r w', m w = (r, w') -> R w w'.

Section Preserves.
Context (R : relation world) `{!PreOrder R}.

Lemma preserves_ret {A} (a : A) : preserves R (mret a).
Proof. intros w r w' H. inversion H. reflexivity. Qed.

Lemma preserves_raise {A} (e : exn) : preserves R (@raise A e).
Proof. intros w r w' H. inversion H. reflexivity. Qed.

Lemma preserves_lift {A} (x : result A) : preserves R (lift x).
Proof. intros w r w' H. inversion H. reflexivity. Qed.

Lemma preserves_gets {A} (f : world -> A) : preserves R (gets f).
Proof. intros w r w' H. inversion H. reflexivity. Qed.

Lemma preserves_modify (f : world -> world) :
  (forall w, R w (f w)) -> preserves R (modify f).
Proof. intros Hf w r w' H. inversion H. apply Hf. Qed.

Lemma preserves_bind {A B} (m : M A) (k : A -> M B) :
  preserves R m -> (forall a, preserves R (k a)) -> preserves R (m ≫= k).
Proof.
  intros Hm Hk w r w' H. apply bind_inv in H as [(e & H & _)|(a & w1 & H1 & H2)].
  - by eapply Hm.
  - etrans; [by eapply Hm | by eapply Hk].
Qed.

Lemma preserves_for_each {A} (l : list A) (body : A -> M unit) :
  (forall x, preserves R (body x)) -> preserves R (for_each l body).
Proof.
  intros Hb. induction l as [|x l IH]; simpl.
  - apply preserves_ret.
  - apply preserves_bind; auto.
Qed.

Lemma preserves_try {A} (body : M A) (handler : string -> M A) :
  preserves R body -> (forall msg, preserves R (handler msg)) ->
  preserves R (try_except_ValueError body handler).
Proof.
  intros Hb Hh w r w'. unfold try_except_ValueError.
  destruct (body w) as [[e|a] w1] eqn:E.
  - destruct e; try (intros H; inversion H; subst; by eapply Hb).
    intros H. etrans; [by eapply Hb | by eapply Hh].
  - intros H; inversion H; subst; by eapply Hb.
Qed.

End Preserves.

(** Decomposes a goal [preserves R m] along the structure of [m]; what is
    left are the calls and the [modify] steps. *)
Ltac frame_step :=
  match goal with
  | |- PreOrder _ => apply _
  | |- forall _, _ => intros ?
  | |- preserves _ (mret _) => apply preserves_ret
  | |- preserves _ (raise _) => apply preserves_raise
  | |- preserves _ (lift _) => apply preserves_lift
  | |- preserves _ (gets _) => apply preserves_gets
  | |- preserves _ (modify _) => apply preserves_modify
  | |- preserves _ (_ ≫= _) => apply preserves_bind
  | |- preserves _ (for_each _ _) => apply preserves_for_each
  | |- preserves _ (try_except_ValueError _ _) => apply preserves_try
  | |- preserves _ (if ?b then _ else _) => destruct b
  | |- preserves _ (match ?x with _ => _ end) => destruct x
  | |- preserves _ (let '(_, _) := ?x in _) => destruct x
  end.

Ltac frame := repeat frame_step.

(** ** What the parts of the program leave alone *)

Definition on_directory (s : statement) : bool :=
  match s with
  | InsertUsers _ | InsertChannels _ | Commit => true
  | _ => false
  end.

Definition not_insert (s : statement) : bool :=
  match s with
  | InsertMessages _ => false
  | _ => true
  end.

(** The messages table is neither read nor written: the statements run
    are those of a directory refresh, and nothing is sent. *)
Definition directory_step (w w' : world) : Prop :=
  messages (db w') = messages (db w)
  /\ outbox w' = outbox w
  /\ sc w' = sc w
  /\ exists j, journal w' = journal w ++ j /\ forallb on_directory j = true.

(** Nothing is archived: the messages table is as before and no INSERT on
    it was run. *)
Definition never_archives (w w' : world) : Prop :=
  messages (db w') = messages (db w)
  /\ exists j, journal w' = journal w ++ j /\ forallb not_insert j = true.

(** The channel half of [ENV] is as before. *)
Definition same_channels (w w' : world) : Prop :=
  id_channel (ENV w') = id_channel (ENV w)
  /\ channel_info (ENV w') = channel_info (ENV w).

#[local] Instance directory_step_po : PreOrder directory_step.
Proof.
  split.
  - intros w. split; [done|]. split; [done|]. split; [done|].
    exists []. by rewrite app_nil_r.
  - intros w1 w2 w3 (A1 & B1 & C1 & j1 & D1 & E1) (A2 & B2 & C2 & j2 & D2 & E2).
    split; [congruence|]. split; [congruence|]. split; [congruence|].
    exists (j1 ++ j2).
    rewrite D2, D1, app_assoc, forallb_app, E1, E2. done.
Qed.

#[local] Instance never_archives_po : PreOrder never_archives.
Proof.
  split.
  - intros w. split; [done|]. exists []. by rewrite app_nil_r.
  - intros w1 w2 w3 (A1 & j1 & D1 & E1) (A2 & j2 & D2 & E2).
    split; [congruence|]. exists (j1 ++ j2).
    rewrite D2, D1, app_assoc, forallb_app, E1, E2. done.
Qed.

#[local] Instance same_channels_po : PreOrder same_channels.
Proof.
  split.
  - by intros w.
  - intros w1 w2 w3 [A1 B1] [A2 B2]. split; congruence.
Qed.

Lemma directory_step_never_archives w w' :
  directory_step w w' -> never_archives w w'.
Proof.
  intros (A & _ & _ & j & D & E). split; [done|]. exists j. split; [done|].
  apply forallb_forall. intros s Hs.
  rewrite forallb_forall in E. specialize (E s Hs). by destruct s.
Qed.

Lemma directory_step_same (w w' : world) :
  messages (db w') = messages (db w) -> outbox w' = outbox w -> sc w' = sc w ->
  journal w' = journal w -> directory_step w w'.
Proof.
  intros A B C D. split; [done|]. split; [done|]. split; [done|].
  exists []. by rewrite app_nil_r.
Qed.

Lemma directory_step_journal (w : world) (j : list statement) :
  forallb on_directory j = true ->
  directory_step w (with_journal (fun j0 => j0 ++ j) w).
Proof.
  intros H. split; [done|]. split; [done|]. split; [done|]. by exists j.
Qed.

Lemma update_users_directory : preserves directory_step update_users.
Proof.
  unfold update_users, commit. frame.
  - by apply directory_step_same.
  - by apply directory_step_journal.
  - by apply directory_step_same.
  - by apply directory_step_journal.
Qed.

Lemma record_channel_directory m : preserves directory_step (record_channel m).
Proof.
  unfold record_channel. frame; by apply directory_step_same.
Qed.

Lemma update_channels_directory : preserves directory_step update_channels.
Proof.
  unfold update_channels, commit. frame.
  - by apply directory_step_same.
  - apply record_channel_directory.
  - by apply directory_step_journal.
  - by apply directory_step_same.
  - by apply directory_step_journal.
Qed.

Lemma get_user_id_directory name : preserves directory_step (get_user_id name).
Proof. unfold get_user_id. frame. apply update_users_directory. Qed.

Lemma get_user_name_directory uid : preserves directory_step (get_user_name uid).
Proof. unfold get_user_name. frame. apply update_users_directory. Qed.

Lemma get_channel_id_directory name : preserves directory_step (get_channel_id name).
Proof. unfold get_channel_id. frame. apply update_channels_directory. Qed.

Lemma get_channel_name_directory uid : preserves directory_step (get_channel_name uid).
Proof. unfold get_channel_name. frame. apply update_channels_directory. Qed.

Lemma parse_filter_directory v p0 p1 : preserves directory_step (parse_filter v p0 p1).
Proof.
  unfold parse_filter. frame;
    first [apply get_user_id_directory | apply get_channel_id_directory].
Qed.

Lemma parse_token_directory v p : preserves directory_step (parse_token v p).
Proof.
  unfold parse_token. frame. apply parse_filter_directory.
Qed.

Lemma parse_tokens_directory params :
  forall v, preserves directory_step (parse_tokens v params).
Proof.
  induction params as [|p params IH]; intros v; simpl.
  - frame.
  - frame; [apply parse_token_directory | apply IH].
Qed.

Lemma parse_query_directory params : preserves directory_step (parse_query params).
Proof.
  unfold parse_query, index. frame. apply parse_tokens_directory.
Qed.

(** ** Strings *)

Lemma append_assoc (s1 s2 s3 : string) :
  (s1 +:+ s2) +:+ s3 = s1 +:+ (s2 +:+ s3).
Proof.
  induction s1 as [|c s1 IH]; [reflexivity|].
  change (String c ((s1 +:+ s2) +:+ s3) = String c (s1 +:+ (s2 +:+ s3))).
  by rewrite IH.
Qed.

Lemma split_on_length sep s :
  length (Py.split_on sep s) = S (Py.count sep s).
Proof.
  induction s as [|c s IH]; simpl; [done|].
  destruct (Ascii.eqb c sep); simpl; [by rewrite IH|].
  destruct (Py.split_on sep s); simpl in *; lia.
Qed.

(** ** Dictionaries *)

Lemma dict_acc_notin {V} (l : list (string * V)) (acc : gmap string V) k :
  k ∉ map fst l ->
  foldl (fun m kv => <[kv.1 := kv.2]> m) acc l !! k = acc !! k.
Proof.
  revert acc. induction l as [|[k' v] l IH]; intros acc Hk; simpl; [done|].
  simpl in Hk. apply not_elem_of_cons in Hk as [Hne Hk].
  rewrite IH by done. by apply lookup_insert_ne.
Qed.

Lemma dict_acc_in {V} (l : list (string * V)) (acc : gmap string V) k :
  k ∈ map fst l \/ is_Some (acc !! k) ->
  is_Some (foldl (fun m kv => <[kv.1 := kv.2]> m) acc l !! k).
Proof.
  revert acc. induction l as [|[k' v] l IH]; intros acc Hk; simpl.
  - destruct Hk as [Hk|Hk]; [by apply elem_of_nil in Hk|done].
  - apply IH. simpl in Hk. destruct (decide (k = k')) as [->|Hne].
    + right. rewrite lookup_insert_eq. by eexists.
    + destruct Hk as [Hk|Hk].
      * left. apply elem_of_cons in Hk as [Hk|Hk]; [done|exact Hk].
      * right. by rewrite lookup_insert_ne.
Qed.

Lemma dict_lookup_None {V} (l : list (string * V)) k :
  k ∉ map fst l -> dict l !! k = None.
Proof. intros H. unfold dict. by rewrite dict_acc_notin. Qed.

Lemma dict_lookup_is_Some {V} (l : list (string * V)) k :
  k ∈ map fst l -> is_Some (dict l !! k).
Proof. intros H. apply dict_acc_in. by left. Qed.

(** ** The channel refresh *)

(** The entry line 91 stores for a channel object, when no key is
    missing. *)
Definition entry_of (m : channel_obj) : option visibility :=
  priv ← (if c_is_group m then Some true else c_is_private m);
  mem ← c_members m;
  Some (Visibility priv mem).

Lemma record_channel_ok m w w' :
  record_channel m w = (inr tt, w') ->
  exists v, entry_of m = Some v
    /\ w' = with_ENV (fun E =>
              Directory (user_id E) (id_user E) (channel_id E) (id_channel E)
                        (<[c_id m := v]> (channel_info E))) w.
Proof.
  unfold record_channel, entry_of.
  destruct (c_is_group m), (c_is_private m) as [b|], (c_members m) as [l|];
    cbn; intros H; inversion H; eexists; split; reflexivity.
Qed.

Lemma for_each_app {A} (l1 l2 : list A) (body : A -> M unit) w w' :
  for_each (l1 ++ l2) body w = (inr tt, w') ->
  exists w1, for_each l1 body w = (inr tt, w1)
             /\ for_each l2 body w1 = (inr tt, w').
Proof.
  revert w. induction l1 as [|x l1 IH]; intros w; simpl.
  - intros H. by exists w.
  - intros H. apply bind_inv in H as [(e & _ & ?)|(a & w1 & H1 & H2)]; [done|].
    apply IH in H2 as (w2 & H2 & H3). exists w2. split; [|done].
    destruct a. by rewrite (bind_ok _ _ _ _ _ H1).
Qed.

Lemma for_each_record_channel (l : list channel_obj) w w' :
  for_each l record_channel w = (inr tt, w') ->
  id_channel (ENV w') = id_channel (ENV w)
  /\ forall (k : string) (P : visibility -> Prop),
       (forall m v, m ∈ l -> c_id m = k -> entry_of m = Some v -> P v) ->
       (exists m, m ∈ l /\ c_id m = k)
       \/ (exists v, channel_info (ENV w) !! k = Some v /\ P v) ->
       exists v, channel_info (ENV w') !! k = Some v /\ P v.
Proof.
  revert w. induction l as [|m l IH]; intros w; simpl.
  - intros H. inversion H; subst. split; [done|].
    intros k P _ [(m & Hm & _)|Hv]; [by apply elem_of_nil in Hm|done].
  - intros H. apply bind_inv in H as [(e & _ & ?)|(a & w1 & H1 & H2)]; [done|].
    destruct a. apply record_channel_ok in H1 as (v & Hv & ->).
    apply IH in H2 as [Hid Hinfo]. split; [done|].
    intros k P HP Hk. apply Hinfo.
    + intros m' v' Hm'. apply HP. by right.
    + destruct (decide (c_id m = k)) as [Heq|Hne].
      * right. exists v. simpl. rewrite <- Heq, lookup_insert_eq. split; [done|].
        eapply HP; [by left|done..].
      * destruct Hk as [(m' & Hm' & Hk)|(v' & Hv' & HPv)].
        -- apply elem_of_cons in Hm' as [->|Hm']; [done|]. left. by exists m'.
        -- right. exists v'. simpl. by rewrite lookup_insert_ne.
Qed.

Lemma update_channels_ok w w' :
  update_channels w = (inr tt, w') ->
  let info := channels_list (sc w) ++ groups_list (sc w) in
  id_channel (ENV w') = dict (map (fun m => (c_id m, c_name m)) info)
  /\ exists w1 w2,
       for_each (channels_list (sc w)) record_channel w1 = (inr tt, w2)
       /\ id_channel (ENV w2) = id_channel (ENV w')
       /\ exists w3, for_each (groups_list (sc w)) record_channel w2 = (inr tt, w3)
                     /\ ENV w3 = ENV w'.
Proof.
  unfold update_channels. intros H.
  apply bind_inv in H as [(e & _ & ?)|(info & w0 & H0 & H)]; [done|].
  inversion H0; subst; clear H0.
  apply bind_inv in H as [(e & _ & ?)|([] & w1 & H1 & H)]; [done|].
  inversion H1; subst; clear H1.
  apply bind_inv in H as [(e & _ & ?)|([] & w3 & H3 & H)]; [done|].
  apply for_each_app in H3 as (w2 & H2 & H3).
  apply bind_inv in H as [(e & _ & ?)|([] & w4 & H4 & H)]; [done|].
  inversion H4; subst; clear H4.
  apply bind_inv in H as [(e & _ & ?)|([] & w5 & H5 & H)]; [done|].
  inversion H5; subst; clear H5.
  inversion H; subst; clear H. simpl.
  pose proof (for_each_record_channel _ _ _ H2) as [E2 _].
  pose proof (for_each_record_channel _ _ _ H3) as [E3 _].
  split.
  - rewrite E3, E2. reflexivity.
  - eexists _, w2. split; [exact H2|]. split; [by rewrite E3|].
    exists w3. split; [exact H3|reflexivity].
Qed.

(** ** The archival branch *)

Lemma handle_message_archive ev txt usr ch ts w :
  reaches_archive ev txt usr ch ts ->
  handle_message ev w = archive txt usr ev w.
Proof.
  intros (Ht & Hu & Hc & _ & Hs & (c0 & Hc0 & HD) & Hm).
  unfold handle_message, notices, route.
  rewrite !bool_decide_eq_false_2 by (intros E; apply Hs; rewrite E; set_solver).
  rewrite Ht, Hc, Hu. unfold item. rewrite !ret_bind, Hc0, ret_bind.
  apply Ascii.eqb_neq in HD. rewrite HD.
  apply String.eqb_neq in Hm. rewrite Hm. reflexivity.
Qed.

Lemma archive_run txt usr ev ch ts w :
  e_channel ev = Some ch -> e_ts ev = Some ts ->
  let rows := [[uuid4 (drawn w); txt; usr; ch; ts]] in
  let w1 := with_journal (fun j => j ++ [InsertMessages rows]) (with_drawn S w) in
  archive txt usr ev w
  = match Sql.insert_values "messages" 5 (messages (db w)) rows with
    | inl e => (inl e, w1)
    | inr t' =>
        (inr tt,
         with_journal (fun j => j ++ [Commit])
           (with_db (fun d => Database t' (users d) (channels d)) w1))
    end.
Proof.
  intros Hc Ht. unfold archive, commit. rewrite Hc, Ht. unfold item. mstep.
  cbn [drawn with_drawn with_journal db].
  destruct (Sql.insert_values _ _ _ _); reflexivity.
Qed.

(** On a table with the five columns, the row is stored and replaces the
    rows of the same channel and timestamp when the table has the
    constraint of line 33. *)
Lemma insert_values_archive rows0 row :
  Sql.insert_values "messages" 5
    (Sql.Table archive_columns messages_schema.2 rows0) [row]
  = inr (Sql.Table archive_columns messages_schema.2
           (filter (fun old => Sql.same_key archive_columns ["channel"; "timestamp"]
                                 row old = false) rows0 ++ [row])).
Proof.
  unfold Sql.insert_values.
  change (Nat.eqb _ 5) with true. cbn [foldl]. unfold Sql.insert_row.
  cbn [Sql.t_cols Sql.t_unique Sql.t_rows]. do 3 f_equal.
  apply list_filter_iff. intros old. unfold Sql.conflicts.
  cbn [Sql.t_cols Sql.t_unique messages_schema snd existsb].
  by rewrite orb_false_r.
Qed.

Lemma archive_replaces ev txt usr ch ts w rows0 :
  reaches_archive ev txt usr ch ts ->
  messages (db w) = Sql.Table archive_columns messages_schema.2 rows0 ->
  exists w',
    handle_message ev w = (inr tt, w')
    /\ messages (db w')
       = Sql.Table archive_columns messages_schema.2
           (filter (fun old => Sql.same_key archive_columns ["channel"; "timestamp"]
                                 [uuid4 (drawn w); txt; usr; ch; ts] old = false) rows0
            ++ [[uuid4 (drawn w); txt; usr; ch; ts]]).
Proof.
  intros Hr Hm. rewrite (handle_message_archive _ _ _ _ _ _ Hr).
  destruct Hr as (_ & _ & Hc & Ht & _).
  rewrite (archive_run _ _ _ _ _ _ Hc Ht), Hm, insert_values_archive.
  eexists. split; reflexivity.
Qed.

Lemma same_key_at_key id txt usr ch ts old :
  Sql.same_key archive_columns ["channel"; "timestamp"] [id; txt; usr; ch; ts] old = true
  <-> at_key ch ts old.
Proof.
  unfold Sql.same_key, at_key. cbn [forallb].
  change (Sql.cell archive_columns [id; txt; usr; ch; ts] "channel") with (Some ch).
  change (Sql.cell archive_columns [id; txt; usr; ch; ts] "timestamp") with (Some ts).
  rewrite andb_true_r, andb_true_iff.
  destruct (Sql.cell archive_columns old "channel") as [c|],
           (Sql.cell archive_columns old "timestamp") as [t|];
    rewrite ?String.eqb_eq; split; intros [A B]; try discriminate;
    split; congruence.
Qed.

(** On such a table, after an event that reaches the archival branch the
    rows with its channel and timestamp are the one row just written,
    whatever was stored before: a second event with the same pair leaves
    one record, with the later text. *)
Lemma archive_replaces_same_key ev txt usr ch ts w rows0 :
  reaches_archive ev txt usr ch ts ->
  messages (db w) = Sql.Table archive_columns messages_schema.2 rows0 ->
  exists w',
    handle_message ev w = (inr tt, w')
    /\ Sql.t_cols (messages (db w')) = archive_columns
    /\ Sql.t_unique (messages (db w')) = messages_schema.2
    /\ filter (at_key ch ts) (Sql.t_rows (messages (db w')))
       = [[uuid4 (drawn w); txt; usr; ch; ts]]
    /\ forall ch' ts', (ch', ts') <> (ch, ts) ->
         filter (at_key ch' ts') (Sql.t_rows (messages (db w')))
         = filter (at_key ch' ts') rows0.
Proof.
  intros Hr Hm.
  destruct (archive_replaces _ _ _ _ _ _ _ Hr Hm) as (w' & Hrun & Ht).
  exists w'. split; [done|]. rewrite Ht. cbn [Sql.t_cols Sql.t_unique Sql.t_rows].
  split; [done|]. split; [done|].
  assert (Hconf : forall old,
    Sql.same_key archive_columns ["channel"; "timestamp"]
                 [uuid4 (drawn w); txt; usr; ch; ts] old = false
    <-> ~ at_key ch ts old).
  { intros old. rewrite <- (same_key_at_key (uuid4 (drawn w)) txt usr).
    by destruct (Sql.same_key _ _ _ _). }
  split.
  - rewrite filter_app, list_filter_filter.
    rewrite (filter_cons_True (at_key ch ts)) by (split; reflexivity).
    rewrite filter_nil.
    replace (filter _ rows0) with (@nil (list string)); [done|].
    symmetry. clear Hm Ht. induction rows0 as [|r rows0 IH]; [done|].
    rewrite filter_cons_False; [apply IH|]. rewrite Hconf. tauto.
  - intros ch' ts' Hne.
    rewrite filter_app, list_filter_filter.
    rewrite (filter_cons_False (at_key ch' ts')).
    2:{ intros [A B]. apply Hne. cbv in A, B. congruence. }
    rewrite filter_nil, app_nil_r. apply list_filter_iff. intros old. rewrite Hconf.
    split; [tauto|]. intros H. split; [done|]. intros [A B].
    destruct H as [A' B']. apply Hne. congruence.
Qed.

Lemma preserves_weaken (R R' : relation world) {A} (m : M A) :
  (forall w w', R w w' -> R' w w') -> preserves R m -> preserves R' m.
Proof. intros HR Hm w r w' H. apply HR. by eapply Hm. Qed.

Lemma never_archives_same (w w' : world) :
  messages (db w') = messages (db w) -> journal w' = journal w ->
  never_archives w w'.
Proof. intros A B. split; [done|]. exists []. by rewrite app_nil_r. Qed.

Ltac by_directory :=
  apply (preserves_weaken directory_step); [apply directory_step_never_archives|].

Lemma send_message_never m c : preserves never_archives (send_message m c).
Proof. unfold send_message. frame. by apply never_archives_same. Qed.

Lemma execute_never q : preserves never_archives (execute q).
Proof.
  unfold execute. frame. split; [done|]. by exists [SelectMessages q].
Qed.

Lemma render_never i : preserves never_archives (render i).
Proof.
  unfold render, convert_timestamp. frame.
  - by_directory. apply get_user_name_directory.
  - by_directory. apply get_channel_name_directory.
Qed.

Lemma render_visible_never ev res : preserves never_archives (render_visible ev res).
Proof.
  induction res as [|i res IH]; simpl; [frame|].
  unfold item, can_query_channel. frame; first [apply render_never | apply IH].
Qed.

Lemma respond_never ev res : preserves never_archives (respond ev res).
Proof.
  unfold respond, item. frame;
    first [apply render_visible_never | apply send_message_never].
Qed.

Lemma report_never ev msg : preserves never_archives (report ev msg).
Proof. unfold report, item. frame. apply send_message_never. Qed.

Lemma handle_query_never ev : preserves never_archives (handle_query ev).
Proof.
  unfold handle_query, query_body, item. frame.
  - by_directory. apply parse_query_directory.
  - apply execute_never.
  - apply respond_never.
  - apply report_never.
Qed.

Lemma channel_name_of_directory ev : preserves directory_step (channel_name_of ev).
Proof.
  unfold channel_name_of. frame.
  - apply get_channel_name_directory.
  - apply update_channels_directory.
Qed.

Lemma notices_never ev : preserves never_archives (notices ev).
Proof.
  unfold notices, deleted_notice, changed_notice, attr, notice_when, concat.
  frame; first [ apply send_message_never
               | by_directory; apply channel_name_of_directory ].
Qed.

(** ** The query pipeline *)

Lemma same_channels_same (w w' : world) :
  id_channel (ENV w') = id_channel (ENV w) ->
  channel_info (ENV w') = channel_info (ENV w) -> same_channels w w'.
Proof. by split. Qed.

Lemma update_users_channels : preserves same_channels update_users.
Proof. unfold update_users, commit. frame; by apply same_channels_same. Qed.

Lemma get_user_name_channels uid : preserves same_channels (get_user_name uid).
Proof. unfold get_user_name. frame. apply update_users_channels. Qed.

Lemma convert_timestamp_world ts w r w' :
  convert_timestamp ts w = (r, w') -> w' = w.
Proof.
  unfold convert_timestamp. destruct (Py.int_read _); intros H; by inversion H.
Qed.

Lemma get_channel_name_cached uid w :
  is_Some (id_channel (ENV w) !! uid) ->
  get_channel_name uid w = (inr (id_channel (ENV w) !! uid), w).
Proof.
  intros H. unfold get_channel_name. rewrite gets_bind.
  destruct (decide _) as [_|Hn]; [|done]. reflexivity.
Qed.

Lemma render_channels i w r w' :
  is_Some (id_channel (ENV w) !! Sql.r_channel i) ->
  render i w = (r, w') -> same_channels w w'.
Proof.
  intros Hin H. unfold render in H.
  apply bind_inv in H as [(e & H1 & _)|(name & wa & H1 & H)];
    [by eapply get_user_name_channels|].
  apply get_user_name_channels in H1 as Hwa.
  apply bind_inv in H as [(e & H2 & _)|(ts & wb & H2 & H)];
    apply convert_timestamp_world in H2 as ->; [done|].
  rewrite bind_run, get_channel_name_cached in H
    by (destruct Hwa as [-> _]; done).
  destruct (id_channel (ENV wa) !! Sql.r_channel i); inversion H; by subst.
Qed.

Lemma visible_same_channels w w' uid r :
  same_channels w w' -> visible (ENV w') uid r = visible (ENV w) uid r.
Proof. intros [A B]. unfold visible. by rewrite A, B. Qed.

Lemma can_query_channel_visible cid uid w r w' :
  can_query_channel cid uid w = (inr r, w') ->
  w' = w
  /\ truthy r = match id_channel (ENV w) !! cid, channel_info (ENV w) !! cid with
                | Some _, Some ci => negb (is_private ci) || bool_decide (uid ∈ members ci)
                | _, _ => false
                end.
Proof.
  unfold can_query_channel. rewrite gets_bind.
  destruct (decide _) as [[n Hn]|Hn].
  - rewrite Hn. destruct (channel_info (ENV w) !! cid); intros H;
      inversion H; subst. split; reflexivity.
  - intros H. inversion H; subst. split; [reflexivity|].
    destruct (id_channel (ENV w') !! cid) eqn:E; [|reflexivity].
    destruct Hn. by eexists.
Qed.

(** The records rendered are the fetched records that pass the gate, in
    the order fetched. *)
Lemma render_visible_filter ev uid res :
  e_user ev = Some uid ->
  forall w shown w',
    render_visible ev res w = (inr shown, w') ->
    map fst shown = filter (fun r => visible (ENV w) uid r = true) res.
Proof.
  intros Hu. induction res as [|i res IH]; intros w shown w'; simpl.
  - intros H. by inversion H.
  - rewrite Hu. unfold item. rewrite ret_bind. intros H.
    apply bind_inv in H as [(e & _ & ?)|(ok & wa & H1 & H)]; [done|].
    apply can_query_channel_visible in H1 as [-> Hok].
    change (match _ with Some _ => _ | None => _ end) with (visible (ENV w) uid i) in Hok.
    destruct (truthy ok).
    + apply bind_inv in H as [(e & _ & ?)|(line & wb & H2 & H)]; [done|].
      apply render_channels in H2 as Hwb.
      2:{ unfold visible in Hok. destruct (id_channel (ENV w) !! Sql.r_channel i); [by eexists|done]. }
      apply bind_inv in H as [(e & _ & ?)|(rest & wc & H3 & H)]; [done|].
      inversion H; subst. simpl. rewrite filter_cons_True by done.
      f_equal. rewrite (IH _ _ _ H3). apply list_filter_iff. intros r.
      by rewrite (visible_same_channels _ _ _ _ Hwb).
    + rewrite filter_cons_False by (rewrite <- Hok; done). by eapply IH.
Qed.






Lemma parse_tokens_app l1 : forall l2 v w,
  parse_tokens v (l1 ++ l2) w
  = (parse_tokens v l1 ≫= fun v' => parse_tokens v' l2) w.
Proof.
  induction l1 as [|p l1 IH]; intros l2 v w; simpl; [done|].
  rewrite bind_assoc, !bind_run.
  destruct (parse_token v p w) as [[e|v'] w1]; [done|]. apply IH.
Qed.

Lemma split_on_none sep s : Py.count sep s = 0 -> Py.split_on sep s = [s].
Proof.
  induction s as [|c s IH]; simpl; [done|].
  destruct (Ascii.eqb c sep); simpl; intros H; [lia|]. by rewrite IH.
Qed.

Lemma split_on_from name :
  Py.count ":" name = 0 -> Py.split_on ":" ("from:" +:+ name) = ["from"; name].
Proof.
  intros H.
  change (Py.split_on ":" ("from:" +:+ name)) with ("from" :: Py.split_on ":" name).
  by rewrite split_on_none.
Qed.

Lemma is_emoji_from name : is_emoji ("from:" +:+ name) = false.
Proof.
  unfold is_emoji. cbn [String.append Py.first String.get].
  rewrite bool_decide_eq_false_2 by discriminate. by rewrite andb_false_r.
Qed.

Lemma update_users_run w :
  update_users w
  = (inr tt,
     let info := users_list (sc w) in
     let args := map (fun m => (m_name m, m_id m, default default_avatar (m_image_72 m))) info in
     World (Directory (dict (map (fun m => (m_name m, m_id m)) info))
                      (dict (map (fun m => (m_id m, m_name m)) info))
                      (channel_id (ENV w)) (id_channel (ENV w)) (channel_info (ENV w)))
           (Database (messages (db w)) (foldl upsert_user (users (db w)) args) (channels (db w)))
           (sc w) (outbox w) (journal w ++ [InsertUsers args] ++ [Commit])
           (logs_txt w) (drawn w)).
Proof.
  unfold update_users, commit. mstep.
  unfold modify, with_journal, with_db, with_ENV. cbn.
  by rewrite <- app_assoc.
Qed.

Lemma parse_query_free params p0 w :
  head params = Some p0 -> Py.take 3 p0 <> "id:" ->
  parse_query params w
  = (parse_tokens plan0 params ≫= fun v => mret (build_query v, limit v)) w.
Proof.
  intros Hh Hid. unfold parse_query, index.
  destruct params as [|p params]; [done|]. simpl in Hh. inversion Hh; subst p.
  cbn [lookup list_lookup]. rewrite ret_bind.
  apply String.eqb_neq in Hid. by rewrite Hid.
Qed.

Lemma parse_token_unknown_user v name w :
  Py.count ":" name = 0 ->
  user_id (ENV w) !! Py.strip (Py.remove_char "@" name) = None ->
  Py.strip (Py.remove_char "@" name) ∉ map m_name (users_list (sc w)) ->
  parse_token v ("from:" +:+ name) w
  = (inl (ValueError ("User " +:+ name +:+ " not found")), (update_users w).2).
Proof.
  intros Hname Hmiss Hnone.
  unfold parse_token. rewrite is_emoji_from, split_on_from by done.
  unfold parse_filter.
  change (String.eqb "from" "from") with true. cbn beta iota.
  rewrite !bind_assoc. unfold get_user_id. rewrite bind_assoc, gets_bind.
  destruct (decide _) as [[x Hx]|_]; [congruence|].
  rewrite bind_assoc, (bind_ok _ _ _ _ _ (update_users_run w)).
  rewrite gets_bind. cbn [ENV user_id].
  rewrite (dict_lookup_None _ (Py.strip (Py.remove_char "@" name)))
    by (by rewrite map_map).
  rewrite !raise_bind. by rewrite update_users_run.
Qed.

Lemma split_on_id p :
  Py.take 3 p = "id:" -> exists uid l, Py.split_on ":" p = "id" :: uid :: l.
Proof.
  destruct p as [|a [|b [|c s]]]; try discriminate.
  unfold Py.take. cbn [String.substring]. intros H.
  injection H as -> -> -> _.
  change (Py.split_on ":" (String "i" (String "d" (String ":" s))))
    with ("id" :: Py.split_on ":" s).
  pose proof (split_on_length ":" s) as Hl.
  destruct (Py.split_on ":" s) as [|uid l]; [simpl in Hl; lia|]. by exists uid, l.
Qed.





Lemma render_visible_length ev res w shown w' :
  render_visible ev res w = (inr shown, w') -> length shown <= length res.
Proof.
  intros H. destruct (e_user ev) as [uid|] eqn:Hu.
  - apply (render_visible_filter _ _ _ Hu) in H.
    rewrite <- (length_map fst), H. apply length_filter.
  - destruct res; simpl in H; [by inversion H|].
    rewrite Hu in H. discriminate.
Qed.

Lemma take_elem_of {A} (x : A) n l : x ∈ take n l -> x ∈ l.
Proof.
  intros H. apply elem_of_take in H as (i & Hi & _).
  apply list_elem_of_lookup. by exists i.
Qed.

(** ** The event loop *)

Lemma read_cycle_returns batch w : exists w', read_cycle batch w = (inr tt, w').
Proof.
  unfold read_cycle, try_except.
  destruct (for_each batch _ w) as [[e|[]] w']; by eexists.
Qed.

(** ** The cache after a refresh *)

Lemma dict_lookup_in {V} (l : list (string * V)) k :
  is_Some (dict l !! k) -> k ∈ map fst l.
Proof.
  intros H. destruct (decide (k ∈ map fst l)) as [Hin|Hout]; [done|].
  rewrite (dict_lookup_None l k Hout) in H. by destruct H.
Qed.

(** After a refresh that completes, every channel that has a name in the
    cache has a visibility entry: the gate does not raise. *)
Lemma update_channels_covers w w' cid :
  update_channels w = (inr tt, w') ->
  is_Some (id_channel (ENV w') !! cid) -> is_Some (channel_info (ENV w') !! cid).
Proof.
  intros H Hin.
  apply update_channels_ok in H as (Hid & w1 & w2 & H1 & _ & w3 & H3 & HE).
  rewrite Hid in Hin. apply dict_lookup_in in Hin.
  rewrite map_map in Hin. cbn in Hin.
  apply list_elem_of_fmap in Hin as (m & -> & Hm).
  apply for_each_record_channel in H1 as [_ Hinfo1].
  apply for_each_record_channel in H3 as [_ Hinfo3].
  rewrite <- HE.
  destruct (Hinfo3 (c_id m) (fun _ => True)) as (v & Hv & _); [done| |by eexists].
  apply elem_of_app in Hm as [Hm|Hm].
  - right. destruct (Hinfo1 (c_id m) (fun _ => True)) as (v & Hv & _);
      [done|left; by exists m|]. by exists v.
  - left. by exists m.
Qed.

(** ** The order of the rows *)

Lemma insert_by_Permutation (R : Sql.row -> Sql.row -> Prop) `{!RelDecision R} x l :
  Sql.insert_by R x l ≡ₚ x :: l.
Proof using Type.
  induction l as [|y l IH]; simpl; [done|].
  destruct (decide (R x y)); [done|]. by rewrite IH, Permutation_swap.
Qed.

Lemma sort_by_Permutation (R : Sql.row -> Sql.row -> Prop) `{!RelDecision R} l :
  Sql.sort_by R l ≡ₚ l.
Proof using Type.
  unfold Sql.sort_by. induction l as [|x l IH]; simpl; [done|].
  by rewrite insert_by_Permutation, IH.
Qed.

Lemma HdRel_insert_by (R : Sql.row -> Sql.row -> Prop) `{!RelDecision R} y x l :
  R y x -> HdRel R y l -> HdRel R y (Sql.insert_by R x l).
Proof using Type.
  intros Hyx Hl. destruct l as [|z l]; simpl; [by constructor|].
  destruct (decide (R x z)); constructor; [done|]. by inversion Hl.
Qed.

Lemma insert_by_Sorted (R : Sql.row -> Sql.row -> Prop) `{!RelDecision R}
    `{!Total R} x l :
  Sorted R l -> Sorted R (Sql.insert_by R x l).
Proof using Type.
  induction 1 as [|y l Hl IH Hy]; simpl; [by repeat constructor|].
  destruct (decide (R x y)) as [Hxy|Hxy].
  - constructor; [by constructor|by constructor].
  - constructor; [done|]. apply HdRel_insert_by; [|done].
    by destruct (total R x y).
Qed.

Lemma sort_by_Sorted (R : Sql.row -> Sql.row -> Prop) `{!RelDecision R}
    `{!Total R} l :
  Sorted R (Sql.sort_by R l).
Proof using Type.
  unfold Sql.sort_by. induction l as [|x l IH]; simpl; [constructor|].
  by apply insert_by_Sorted.
Qed.

Lemma insert_by_sorted_head (R : Sql.row -> Sql.row -> Prop) `{!RelDecision R} x l :
  Forall (R x) l -> Sql.insert_by R x l = x :: l.
Proof using Type.
  destruct l as [|y l]; simpl; [done|].
  intros H. apply Forall_cons in H as [H _]. by destruct (decide (R x y)).
Qed.

(** A list that is in order already is left as it is. *)
Lemma sort_by_id (R : Sql.row -> Sql.row -> Prop) `{!RelDecision R} l :
  StronglySorted R l -> Sql.sort_by R l = l.
Proof using Type.
  unfold Sql.sort_by. induction 1 as [|x l Hl IH Hx]; simpl; [done|].
  rewrite IH. by apply insert_by_sorted_head.
Qed.

#[local] Instance ts_le_total : Total Sql.ts_le.
Proof. intros a b. unfold Sql.ts_le. apply total, _. Qed.
#[local] Instance ts_ge_total : Total Sql.ts_ge.
Proof. intros a b. unfold Sql.ts_ge. apply total, _. Qed.

Lemma sorted_Permutation o l : Sql.sorted o l ≡ₚ l.
Proof using Type.
  destruct o as [[]|]; cbn [Sql.sorted]; [| |done]; apply sort_by_Permutation.
Qed.

Lemma scan_Permutation q t :
  Sql.scan q t
  ≡ₚ filter (fun r => forallb (Sql.holds r) (Sql.q_where q) = true)
            (map (Sql.project (Sql.t_cols t)) (Sql.t_rows t)).
Proof using Type.
  unfold Sql.scan. destruct (_ && _); [apply sort_by_Permutation|done].
Qed.

Lemma matching_Permutation q t :
  Sql.matching q t
  ≡ₚ filter (fun r => forallb (Sql.holds r) (Sql.q_where q) = true)
            (map (Sql.project (Sql.t_cols t)) (Sql.t_rows t)).
Proof using Type.
  unfold Sql.matching. by rewrite sorted_Permutation, scan_Permutation.
Qed.

Lemma matching_elem q t r :
  r ∈ Sql.matching q t
  <-> r ∈ map (Sql.project (Sql.t_cols t)) (Sql.t_rows t)
      /\ forallb (Sql.holds r) (Sql.q_where q) = true.
Proof using Type.
  rewrite (matching_Permutation q t), list_elem_of_filter.
  split; intros [A B]; by split.
Qed.

(** A statement without [channel = ?] reads the table in rowid order. *)
Lemma scan_rowid q t :
  Sql.by_channel q = false ->
  Sql.scan q t
  = filter (fun r => forallb (Sql.holds r) (Sql.q_where q) = true)
           (map (Sql.project (Sql.t_cols t)) (Sql.t_rows t)).
Proof using Type. intros H. unfold Sql.scan. by rewrite H. Qed.

(** ** The channel refresh, step by step *)

Lemma record_channel_result m w :
  match entry_of m with
  | Some v =>
      record_channel m w
      = (inr tt, with_ENV (fun E =>
           Directory (user_id E) (id_user E) (channel_id E) (id_channel E)
                     (<[c_id m := v]> (channel_info E))) w)
  | None =>
      record_channel m w = (inl (KeyError "is_private"), w)
      \/ record_channel m w = (inl (KeyError "members"), w)
  end.
Proof using Type.
  unfold record_channel, entry_of.
  destruct (c_is_group m), (c_is_private m) as [b|], (c_members m) as [l|];
    cbn; auto.
Qed.

Lemma for_each_record_channel_fail (l : list channel_obj) w e w' :
  for_each l record_channel w = (inl e, w') ->
  (e = KeyError "is_private" \/ e = KeyError "members")
  /\ exists m, m ∈ l /\ entry_of m = None.
Proof using Type.
  revert w. induction l as [|m l IH]; intros w; simpl; [discriminate|].
  intros H. pose proof (record_channel_result m w) as Hm.
  destruct (entry_of m) as [v|] eqn:E.
  - rewrite (bind_ok _ _ _ _ _ Hm) in H. apply IH in H as (He & m' & Hm' & HN).
    split; [done|]. exists m'. split; [by right|done].
  - destruct Hm as [Hm|Hm]; rewrite (bind_raise _ _ _ _ _ Hm) in H;
      inversion H; subst; (split; [auto|exists m; split; [by left|done]]).
Qed.

(** ** Tokens *)

Lemma is_emoji_no_colon p : Py.count ":" p = 0 -> is_emoji p = false.
Proof using Type.
  intros H. unfold is_emoji. destruct p as [|c p]; [done|].
  cbn [Py.first String.get]. simpl in H.
  destruct (Ascii.eqb c ":") eqn:E; [simpl in H; lia|].
  apply Ascii.eqb_neq in E.
  rewrite (bool_decide_eq_false_2 (Some c = Some ":"%char)) by congruence.
  by rewrite andb_false_r.
Qed.

Lemma query_fails_at_token ev t ch pre tok post v1 w w1 msg w2 :
  e_text ev = Some t -> e_channel ev = Some ch ->
  Py.split (Py.lower t) = pre ++ tok :: post ->
  (forall p0, head (Py.split (Py.lower t)) = Some p0 -> Py.take 3 p0 <> "id:") ->
  parse_tokens plan0 pre w = (inr v1, w1) ->
  parse_token v1 tok w1 = (inl (ValueError msg), w2) ->
  handle_query ev w = (inr tt, with_outbox (fun o => o ++ [(msg, ch)]) w2).
Proof using Type.
  intros Ht Hc Hsplit Hid Hpre Htok.
  assert (Hq : parse_query (Py.split (Py.lower t)) w = (inl (ValueError msg), w2)).
  { destruct (Py.split (Py.lower t)) as [|p0 l] eqn:E; [by destruct pre|].
    rewrite (parse_query_free (p0 :: l) p0 w eq_refl (Hid p0 eq_refl)).
    rewrite Hsplit, bind_run, parse_tokens_app, (bind_ok _ _ _ _ _ Hpre).
    cbn [parse_tokens]. by rewrite bind_run, Htok. }
  unfold handle_query, try_except_ValueError, query_body.
  rewrite Ht. unfold item. rewrite ret_bind, (bind_raise _ _ _ _ _ Hq).
  unfold report. rewrite Hc. reflexivity.
Qed.

(** ** The shape of an emoji token *)



Lemma is_emoji_spec p :
  is_emoji p = true
  <-> 2 < String.length p /\ Py.first p = Some ":"%char /\ Py.last p = Some ":"%char.
Proof using Type.
  unfold is_emoji. rewrite !andb_true_iff, !bool_decide_eq_true, Nat.ltb_lt.
  split; intros H; [by destruct H as [[? ?] ?]|by destruct H as (? & ? & ?)].
Qed.


Lemma last_count c s : Py.last s = Some c -> 1 <= Py.count c s.
Proof using Type.
  induction s as [|d s IH]; [done|]. cbn [Py.last Py.count].
  destruct s as [|e s].
  - intros [= ->]. rewrite Ascii.eqb_refl. simpl. lia.
  - intros H. specialize (IH H). lia.
Qed.

(** A token of the emoji shape has two colons at least. *)
Lemma is_emoji_colons p : is_emoji p = true -> 2 <= Py.count ":" p.
Proof using Type.
  intros H. apply is_emoji_spec in H as (Hl & Hf & Hla).
  destruct p as [|c [|d p]]; [done|simpl in Hl; lia|].
  cbn in Hf. injection Hf as ->. cbn [Py.last] in Hla.
  cbn [Py.count]. rewrite Ascii.eqb_refl.
  pose proof (last_count ":" (String d p) Hla) as H1. cbn [Py.count] in H1. lia.
Qed.

(** ** What raises what *)

Lemma get_user_id_returns name w :
  exists x w', get_user_id name w = (inr x, w').
Proof using Type.
  unfold get_user_id. rewrite gets_bind.
  destruct (decide _); [by eexists _, _|].
  rewrite (bind_ok _ _ _ _ _ (update_users_run w)). by eexists _, _.
Qed.

Lemma get_user_name_returns uid w :
  exists x w', get_user_name uid w = (inr x, w').
Proof using Type.
  unfold get_user_name. rewrite gets_bind.
  destruct (decide _); [by eexists _, _|].
  rewrite (bind_ok _ _ _ _ _ (update_users_run w)). by eexists _, _.
Qed.

Lemma update_channels_raises w e w' :
  update_channels w = (inl e, w') -> exists k, e = KeyError k.
Proof using Type.
  unfold update_channels. rewrite gets_bind, modify_bind. intros H.
  apply bind_inv in H as [(e' & H & [= ->])|([] & w3 & _ & H)].
  - apply for_each_record_channel_fail in H as [[->| ->] _]; by eexists.
  - unfold commit in H. rewrite !modify_bind in H. discriminate.
Qed.

Lemma get_channel_id_raises name w e w' :
  get_channel_id name w = (inl e, w') -> exists k, e = KeyError k.
Proof using Type.
  unfold get_channel_id. rewrite gets_bind. intros H.
  destruct (decide _); [discriminate|].
  apply bind_inv in H as [(e' & H & [= ->])|([] & w3 & _ & H)]; [|discriminate].
  by eapply update_channels_raises.
Qed.

Lemma get_channel_name_raises uid w e w' :
  get_channel_name uid w = (inl e, w') -> exists k, e = KeyError k.
Proof using Type.
  unfold get_channel_name. rewrite gets_bind. intros H.
  destruct (decide _); [discriminate|].
  apply bind_inv in H as [(e' & H & [= ->])|([] & w3 & _ & H)]; [|discriminate].
  by eapply update_channels_raises.
Qed.

(** ** The tokens that make the parser fail *)

Lemma parse_filter_from v p1 w :
  parse_filter v "from" p1 w
  = match get_user_id (Py.strip (Py.remove_char "@" p1)) w with
    | (inr None, w1) => (inl (ValueError ("User " +:+ p1 +:+ " not found")), w1)
    | (inr (Some u), w1) =>
        (inr (Plan (text v) (Some u) (channel v) (sort v) (limit v)), w1)
    | (inl e, w1) => (inl e, w1)
    end.
Proof using Type.
  unfold parse_filter.
  change (String.eqb "from" "from") with true.
  change (String.eqb "from" "in") with false.
  change (String.eqb "from" "sort") with false.
  change (String.eqb "from" "limit") with false. cbn beta iota.
  rewrite !bind_assoc, bind_run.
  destruct (get_user_id _ w) as [[e|[u|]] w1]; reflexivity.
Qed.

Lemma parse_filter_in v p1 w :
  parse_filter v "in" p1 w
  = match get_channel_id (Py.strip (Py.remove_char "#" p1)) w with
    | (inr None, w1) => (inl (ValueError ("Channel " +:+ p1 +:+ " not found")), w1)
    | (inr (Some c), w1) =>
        (inr (Plan (text v) (user v) (Some c) (sort v) (limit v)), w1)
    | (inl e, w1) => (inl e, w1)
    end.
Proof using Type.
  unfold parse_filter.
  change (String.eqb "in" "from") with false.
  change (String.eqb "in" "in") with true.
  change (String.eqb "in" "sort") with false.
  change (String.eqb "in" "limit") with false. cbn beta iota.
  rewrite ret_bind, !bind_assoc, bind_run.
  destruct (get_channel_id _ w) as [[e|[c|]] w1]; reflexivity.
Qed.

Lemma parse_filter_sort v p1 w :
  parse_filter v "sort" p1 w
  = if bool_decide (p1 ∈ ["asc"; "desc"])
    then (inr (Plan (text v) (user v) (channel v) (Some p1) (limit v)), w)
    else (inl (ValueError ("Invalid sort order " +:+ p1)), w).
Proof using Type.
  unfold parse_filter.
  change (String.eqb "sort" "from") with false.
  change (String.eqb "sort" "in") with false.
  change (String.eqb "sort" "sort") with true.
  change (String.eqb "sort" "limit") with false. cbn beta iota.
  rewrite !ret_bind. by destruct (bool_decide _).
Qed.

Lemma parse_filter_limit v p1 w :
  parse_filter v "limit" p1 w
  = match Py.int p1 with
    | Some n => (inr (Plan (text v) (user v) (channel v) (sort v) n), w)
    | None => (inl (ValueError (p1 +:+ " not a valid number")), w)
    end.
Proof using Type.
  unfold parse_filter.
  change (String.eqb "limit" "from") with false.
  change (String.eqb "limit" "in") with false.
  change (String.eqb "limit" "sort") with false.
  change (String.eqb "limit" "limit") with true. cbn beta iota.
  rewrite !ret_bind. by destruct (Py.int p1).
Qed.

Lemma parse_filter_other v p0 p1 w :
  p0 ∉ ["from"; "in"; "sort"; "limit"] -> parse_filter v p0 p1 w = (inr v, w).
Proof using Type.
  intros Hk. unfold parse_filter.
  assert (Hf : String.eqb p0 "from" = false)
    by (apply String.eqb_neq; intros ->; apply Hk; by left).
  assert (Hi : String.eqb p0 "in" = false)
    by (apply String.eqb_neq; intros ->; apply Hk; right; by left).
  assert (Hs : String.eqb p0 "sort" = false)
    by (apply String.eqb_neq; intros ->; apply Hk; do 2 right; by left).
  assert (Hl : String.eqb p0 "limit" = false)
    by (apply String.eqb_neq; intros ->; apply Hk; do 3 right; by left).
  rewrite Hf, Hi, Hs, Hl. reflexivity.
Qed.

Lemma parse_filter_fails v p0 p1 w msg w' :
  parse_filter v p0 p1 w = (inl (ValueError msg), w')
  <-> (p0 = "from"
       /\ get_user_id (Py.strip (Py.remove_char "@" p1)) w = (inr None, w')
       /\ msg = "User " +:+ p1 +:+ " not found")
      \/ (p0 = "in"
          /\ get_channel_id (Py.strip (Py.remove_char "#" p1)) w = (inr None, w')
          /\ msg = "Channel " +:+ p1 +:+ " not found")
      \/ (p0 = "sort" /\ (p1 ∉ ["asc"; "desc"]) /\ w' = w
          /\ msg = "Invalid sort order " +:+ p1)
      \/ (p0 = "limit" /\ Py.int p1 = None /\ w' = w
          /\ msg = p1 +:+ " not a valid number").
Proof using Type.
  destruct (decide (p0 ∈ ["from"; "in"; "sort"; "limit"])) as [Hin|Hout].
  - repeat (apply elem_of_cons in Hin as [->|Hin]); [| | | |by apply elem_of_nil in Hin].
    + rewrite parse_filter_from.
      destruct (get_user_id_returns (Py.strip (Py.remove_char "@" p1)) w)
        as (x & w1 & Hx). rewrite Hx. split.
      * destruct x; [discriminate|]. intros [= <- <-]. by left.
      * intros [(_ & H & ->)|[(? & _)|[(? & _)|(? & _)]]]; try discriminate.
        by injection H as -> ->.
    + rewrite parse_filter_in. split.
      * destruct (get_channel_id _ w) as [[e|[c|]] w1] eqn:Hx; try discriminate.
        -- apply get_channel_id_raises in Hx as [k ->]. discriminate.
        -- intros [= <- <-]. right. by left.
      * intros [(? & _)|[(_ & H & ->)|[(? & _)|(? & _)]]]; try discriminate.
        by rewrite H.
    + rewrite parse_filter_sort. split.
      * destruct (bool_decide _) eqn:E; [discriminate|].
        apply bool_decide_eq_false in E. intros [= <- <-]. do 2 right. by left.
      * intros [(? & _)|[(? & _)|[(_ & H & -> & ->)|(? & _)]]]; try discriminate.
        by rewrite bool_decide_eq_false_2.
    + rewrite parse_filter_limit. split.
      * destruct (Py.int p1) eqn:E; [discriminate|].
        intros [= <- <-]. by do 3 right.
      * intros [(? & _)|[(? & _)|[(? & _)|(_ & H & -> & ->)]]]; try discriminate.
        by rewrite H.
  - rewrite (parse_filter_other _ _ _ _ Hout). split; [discriminate|].
    intros [(-> & _)|[(-> & _)|[(-> & _)|(-> & _)]]]; destruct Hout;
      repeat constructor.
Qed.

Lemma parse_token_fails v tok w msg w' :
  parse_token v tok w = (inl (ValueError msg), w') <-> token_failure tok w w' msg.
Proof using Type.
  unfold token_failure. split.
  - unfold parse_token. destruct (is_emoji tok); [discriminate|].
    destruct (Py.split_on ":" tok) as [|p0 [|p1 [|p2 l]]]; try discriminate.
    intros H. apply parse_filter_fails in H. by exists p0, p1.
  - intros (p0 & p1 & Hs & H). unfold parse_token.
    assert (He : is_emoji tok = false).
    { destruct (is_emoji tok) eqn:E; [|done]. apply is_emoji_colons in E.
      pose proof (split_on_length ":" tok) as Hl. rewrite Hs in Hl. simpl in Hl. lia. }
    rewrite He, Hs. by apply parse_filter_fails.
Qed.

Lemma parse_tokens_fails l : forall v w msg w',
  parse_tokens v l w = (inl (ValueError msg), w') ->
  exists pre tok post v1 w1,
    l = pre ++ tok :: post
    /\ parse_tokens v pre w = (inr v1, w1)
    /\ token_failure tok w1 w' msg.
Proof using Type.
  induction l as [|p l IH]; intros v w msg w'; simpl; [discriminate|].
  intros H. apply bind_inv in H as [(e & H & [= <-])|(v1 & w1 & H1 & H)].
  - exists [], p, l, v, w. split; [done|]. split; [done|].
    by apply parse_token_fails in H.
  - apply IH in H as (pre & tok & post & v2 & w2 & -> & Hp & Hf).
    exists (p :: pre), tok, post, v2, w2. split; [done|]. split; [|done].
    simpl. by rewrite (bind_ok _ _ _ _ _ H1).
Qed.

(** ** Rendering *)

Lemma convert_timestamp_fails ts w msg w' :
  convert_timestamp ts w = (inl (ValueError msg), w')
  <-> timestamp_failure ts msg /\ w' = w.
Proof.
  unfold convert_timestamp, timestamp_failure.
  destruct (Py.int_read _) as [m|n]; cbn [raise lift]; split.
  - intros [= <- <-]. split; [by left|done].
  - intros [[[= ->]|(n & [=] & _)] ->]. done.
  - unfold lift. intros [= H <-]. split; [|done]. right. by exists n.
  - intros [[[=]|(n' & [= <-] & H)] ->]. unfold lift. by rewrite H.
Qed.

Lemma render_directory i : preserves directory_step (render i).
Proof.
  unfold render, convert_timestamp. frame.
  - apply get_user_name_directory.
  - apply get_channel_name_directory.
Qed.

Lemma render_visible_directory ev res :
  preserves directory_step (render_visible ev res).
Proof.
  induction res as [|i res IH]; simpl; [frame|].
  unfold item, can_query_channel. frame; first [apply render_directory | apply IH].
Qed.

Lemma render_fails i w msg w' :
  render i w = (inl (ValueError msg), w') ->
  timestamp_failure (Sql.r_timestamp i) msg.
Proof.
  unfold render. intros H.
  apply bind_inv in H as [(e & H & _)|(name & wa & _ & H)].
  { destruct (get_user_name_returns (Sql.r_user i) w) as (x & w1 & Hx). congruence. }
  apply bind_inv in H as [(e & H & [= <-])|(ts & wb & _ & H)].
  { by apply convert_timestamp_fails in H as [H _]. }
  apply bind_inv in H as [(e & H & [= <-])|(cname & wc & _ & H)].
  { apply get_channel_name_raises in H as [k Hk]. discriminate. }
  destruct cname; discriminate.
Qed.

Lemma render_timestamp_fails i w msg :
  timestamp_failure (Sql.r_timestamp i) msg ->
  exists w', render i w = (inl (ValueError msg), w').
Proof.
  intros Hf. unfold render.
  destruct (get_user_name_returns (Sql.r_user i) w) as (x & w1 & Hx).
  rewrite (bind_ok _ _ _ _ _ Hx). exists w1.
  apply bind_raise. by apply convert_timestamp_fails.
Qed.


Lemma render_visible_fails ev res : forall w msg w',
  render_visible ev res w = (inl (ValueError msg), w') ->
  exists r, r ∈ res /\ timestamp_failure (Sql.r_timestamp r) msg.
Proof.
  induction res as [|i res IH]; intros w msg w'; simpl; [discriminate|].
  intros H.
  apply bind_inv in H as [(e & H & [= <-])|(uid & wa & _ & H)].
  { unfold item in H. destruct (e_user ev); discriminate. }
  apply bind_inv in H as [(e & H & [= <-])|(ok & wb & _ & H)].
  { unfold can_query_channel in H. rewrite gets_bind in H.
    destruct (decide _); [|discriminate].
    destruct (channel_info _ !! _); discriminate. }
  destruct (truthy ok).
  - apply bind_inv in H as [(e & H & [= <-])|(line & wc & _ & H)].
    { exists i. split; [by left|]. by eapply render_fails. }
    apply bind_inv in H as [(e & H & [= <-])|(rest & wd & _ & H)]; [|discriminate].
    apply IH in H as (r & Hr & Hf). exists r. split; [by right|done].
  - apply IH in H as (r & Hr & Hf). exists r. split; [by right|done].
Qed.







(** Records the requester may not see are skipped. *)
Lemma render_visible_hidden ev uid res w :
  e_user ev = Some uid ->
  (forall r, r ∈ res ->
     id_channel (ENV w) !! Sql.r_channel r = None
     \/ exists ci, channel_info (ENV w) !! Sql.r_channel r = Some ci
                   /\ is_private ci = true /\ uid ∉ members ci) ->
  render_visible ev res w = (inr [], w).
Proof using Type.
  intros Hu. induction res as [|i res IH]; intros Hall; [reflexivity|].
  cbn [render_visible]. rewrite Hu. unfold item. rewrite ret_bind.
  assert (Hg : exists ok, can_query_channel (Sql.r_channel i) uid w = (inr ok, w)
                          /\ truthy ok = false).
  { unfold can_query_channel. rewrite gets_bind.
    destruct (Hall i) as [Hn|(ci & Hci & Hp & Hm)]; [by left| |].
    - destruct (decide _) as [[x Hx]|_]; [congruence|]. by exists None.
    - destruct (decide _) as [_|_]; [|by exists None].
      rewrite Hci. eexists. split; [reflexivity|].
      cbn. rewrite Hp. by rewrite bool_decide_eq_false_2. }
  destruct Hg as (ok & Hg & Hok). rewrite (bind_ok _ _ _ _ _ Hg), Hok.
  apply IH. intros r Hr. apply Hall. by right.
Qed.


Lemma respond_fails ev res w msg w' :
  respond ev res w = (inl (ValueError msg), w') ->
  exists r, r ∈ res /\ timestamp_failure (Sql.r_timestamp r) msg.
Proof.
  unfold respond. intros H.
  apply bind_inv in H as [(e & H & [= <-])|(rm & wa & _ & H)].
  - destruct res as [|i res]; [discriminate|].
    apply bind_inv in H as [(e & H & [= <-])|(sh & wb & _ & H)]; [|discriminate].
    by eapply render_visible_fails.
  - unfold item in H. destruct (e_channel ev); [|discriminate].
    rewrite ret_bind in H. destruct (nonempty rm); discriminate.
Qed.

(** [respond] sends its one message last: when it raises nothing was
    sent. *)
Lemma respond_outbox ev res w r w' :
  respond ev res w = (r, w') ->
  match r with
  | inl _ => outbox w' = outbox w
  | inr _ => exists msg ch, e_channel ev = Some ch
                            /\ outbox w' = outbox w ++ [(msg, ch)]
  end.
Proof.
  unfold respond. intros H.
  assert (Hd : preserves directory_step
                 (match res with
                  | [] => mret None
                  | _ :: _ =>
                      shown ← render_visible ev res;
                      mret (Some (Py.join (String (ascii_of_nat 10) EmptyString)
                                          (map snd shown)))
                  end)).
  { destruct res; frame. apply render_visible_directory. }
  apply bind_inv in H as [(e & H & ->)|(rm & wa & H1 & H)].
  - by apply Hd in H as (_ & ? & _).
  - apply Hd in H1 as (_ & Ho & _). unfold item in H.
    destruct (e_channel ev) as [ch|]; [|injection H as <- <-; done].
    rewrite ret_bind in H. unfold send_message in H.
    destruct (nonempty rm) as [m|]; injection H as <- <-;
      eexists _, ch; (split; [done|]); cbn; by rewrite Ho.
Qed.

(** ** The body of the query handler *)

Lemma sql_execute_cases q t :
  Sql.execute q t = inr (Sql.matching q t)
  \/ exists m, Sql.execute q t = inl (OperationalError m).
Proof using Type.
  unfold Sql.execute. destruct (List.find _ _); [right; by eexists|by left].
Qed.

Lemma fetchmany_cases {A} (size : Z) (pending : list A) :
  Sql.fetchmany size pending = inl OverflowError
  \/ exists res, Sql.fetchmany size pending = inr res /\ res ⊆ pending.
Proof using Type.
  unfold Sql.fetchmany. destruct (_ || _); [by left|]. right.
  destruct (size <=? 0)%Z; eexists; (split; [reflexivity|]); [done|].
  intros x Hx. by eapply take_elem_of.
Qed.

Lemma execute_inv q w r w' :
  execute q w = (r, w') ->
  w' = with_journal (fun j => j ++ [SelectMessages q]) w
  /\ r = Sql.execute q (messages (db w)).
Proof using Type.
  unfold execute. rewrite modify_bind, gets_bind. unfold lift.
  by intros [= <- <-].
Qed.

Lemma parse_query_fails params w msg w' :
  parse_query params w = (inl (ValueError msg), w') ->
  exists pre tok post v1 w1,
    params = pre ++ tok :: post
    /\ parse_tokens plan0 pre w = (inr v1, w1)
    /\ token_failure tok w1 w' msg.
Proof using Type.
  unfold parse_query, index. intros H.
  destruct (params !! 0) as [p|]; [|discriminate]. rewrite ret_bind in H.
  destruct (String.eqb (Py.take 3 p) "id:").
  - destruct (Py.split_on ":" p !! 1); discriminate.
  - apply bind_inv in H as [(e & H & [= <-])|(v & w1 & _ & H)]; [|discriminate].
    by apply parse_tokens_fails.
Qed.

Lemma query_body_fails ev t w msg w' :
  e_text ev = Some t ->
  query_body ev w = (inl (ValueError msg), w') ->
  (exists pre tok post v1 w1,
     Py.split (Py.lower t) = pre ++ tok :: post
     /\ parse_tokens plan0 pre w = (inr v1, w1)
     /\ token_failure tok w1 w' msg)
  \/ (exists r,
        r ∈ map (Sql.project (Sql.t_cols (messages (db w))))
                (Sql.t_rows (messages (db w)))
        /\ timestamp_failure (Sql.r_timestamp r) msg).
Proof.
  intros Ht H. unfold query_body, item in H. rewrite Ht, ret_bind in H.
  apply bind_inv in H as [(e & H & [= <-])|([q lim] & wa & Hp & H)].
  { left. by apply parse_query_fails. }
  right. apply parse_query_directory in Hp as (Hm & _).
  apply bind_inv in H as [(e & H & [= <-])|(pending & wb & He & H)].
  { apply execute_inv in H as [_ H].
    destruct (sql_execute_cases q (messages (db wa))) as [E|[m E]];
      rewrite E in H; discriminate. }
  apply execute_inv in He as [-> He].
  destruct (sql_execute_cases q (messages (db wa))) as [E|[m E]];
    rewrite E in He; [|discriminate]. injection He as ->.
  rewrite lift_bind in H.
  destruct (fetchmany_cases lim (Sql.matching q (messages (db wa))))
    as [E'|(res & E' & Hsub)]; rewrite E' in H; [discriminate|].
  apply respond_fails in H as (r & Hr & Hf). exists r. split; [|done].
  apply Hsub, matching_elem in Hr as [Hr _]. by rewrite <- Hm.
Qed.

(** The body sends one message, as its last step. *)
Lemma query_body_outbox ev w r w' :
  query_body ev w = (r, w') ->
  match r with
  | inl _ => outbox w' = outbox w
  | inr _ => exists msg ch, e_channel ev = Some ch
                            /\ outbox w' = outbox w ++ [(msg, ch)]
  end.
Proof.
  unfold query_body, item. intros H.
  destruct (e_text ev) as [t|]; [|by injection H as <- <-].
  rewrite ret_bind in H.
  apply bind_inv in H as [(e & H & ->)|([q lim] & wa & Hp & H)].
  { by apply parse_query_directory in H as (_ & ? & _). }
  apply parse_query_directory in Hp as (_ & Ho & _).
  apply bind_inv in H as [(e & H & ->)|(pending & wb & He & H)].
  { apply execute_inv in H as [-> _]. done. }
  apply execute_inv in He as [-> _].
  rewrite lift_bind in H.
  destruct (Sql.fetchmany lim pending) as [e|res]; [by injection H as <- <-|].
  apply respond_outbox in H. destruct r; cbn [outbox with_journal] in H.
  - congruence.
  - destruct H as (msg & ch & Hc & H). exists msg, ch. split; [done|]. congruence.
Qed.

Lemma handle_query_cases ev ch w :
  e_channel ev = Some ch ->
  handle_query ev w
  = match query_body ev w with
    | (inl (ValueError msg), w1) =>
        (inr tt, with_outbox (fun o => o ++ [(msg, ch)]) w1)
    | r => r
    end.
Proof using Type.
  intros Hc. unfold handle_query, try_except_ValueError, report, item.
  rewrite Hc. by destruct (query_body ev w) as [[[]|] w1].
Qed.

(** ** The query language *)


(** ** The visibility gate *)

(** C2 (as the code has it). [can_query_channel] looks the channel up in
    the id-to-name map: when it is not there the function falls off its
    end and returns [None], which the caller's [if] takes for false; when
    it is there and the visibility table has its entry, the function
    returns the boolean "not private or the user is a member"; when it is
    there without an entry the lookup raises [KeyError].  [ENV] is never
    changed. *)
Theorem can_query_channel_spec (cid uid : string) (w : world) :
  (id_channel (ENV w) !! cid = None ->
   can_query_channel cid uid w = (inr None, w))
  /\ (forall name ci,
        id_channel (ENV w) !! cid = Some name ->
        channel_info (ENV w) !! cid = Some ci ->
        exists b, can_query_channel cid uid w = (inr (Some b), w)
                  /\ (b = true <-> is_private ci = false \/ uid ∈ members ci))
  /\ (forall name,
        id_channel (ENV w) !! cid = Some name ->
        channel_info (ENV w) !! cid = None ->
        can_query_channel cid uid w = (inl (KeyError cid), w)).
Proof using Type.
  unfold can_query_channel. rewrite bind_run. simpl. split; [|split].
  - intros ->. destruct (decide _) as [[x Hx]|_]; [done|reflexivity].
  - intros name ci Hn Hc. rewrite Hn, Hc.
    destruct (decide _) as [_|Hx]; [|by destruct Hx].
    eexists. split; [reflexivity|].
    by rewrite orb_true_iff, negb_true_iff, bool_decide_eq_true.
  - intros name Hn Hc. rewrite Hn, Hc.
    destruct (decide _) as [_|Hx]; [|by destruct Hx]. reflexivity.
Qed.

(** C10 (as the code has it). After a channel refresh that completes,
    every channel of the groups list whose objects carry the [is_group] key
    is recorded in the visibility table as private, whatever its
    [is_private] field says or whether it has one, and the gate then
    answers, for that channel, whether the requester is in the recorded
    member list. *)
Theorem update_channels_groups (w w' : world) (g : channel_obj) :
  update_channels w = (inr tt, w') ->
  g ∈ groups_list (sc w) ->
  (forall g', g' ∈ groups_list (sc w) -> c_id g' = c_id g -> c_is_group g' = true) ->
  exists ci,
    channel_info (ENV w') !! c_id g = Some ci
    /\ is_private ci = true
    /\ forall uid,
         can_query_channel (c_id g) uid w'
         = (inr (Some (bool_decide (uid ∈ members ci))), w').
Proof.
  intros H Hg Hkey.
  apply update_channels_ok in H as (Hid & w1 & w2 & _ & _ & w3 & H3 & HE).
  apply for_each_record_channel in H3 as [_ Hinfo].
  destruct (Hinfo (c_id g) (fun v => is_private v = true)) as (ci & Hci & Hp).
  - intros m v Hm Hk. unfold entry_of. rewrite (Hkey m Hm Hk). simpl.
    destruct (c_members m); simpl; [|done]. by intros [= <-].
  - left. by exists g.
  - exists ci. rewrite <- HE. split; [done|]. split; [done|]. intros uid.
    assert (Hin : is_Some (id_channel (ENV w') !! c_id g)).
    { rewrite Hid. apply dict_lookup_is_Some. rewrite map_map. simpl.
      apply list_elem_of_fmap. exists g. split; [done|].
      apply elem_of_app. by right. }
    destruct Hin as [name Hname].
    unfold can_query_channel. rewrite bind_run. simpl.
    rewrite Hname. rewrite <- HE, Hci.
    destruct (decide _) as [_|Hx]; [|destruct Hx; by eexists].
    by rewrite Hp.
Qed.

(** ** The archive *)

(** C1 (what the code does on the table it creates). The messages table of
    line 33 has four columns, and the INSERT of line 280 supplies five
    values: for every event that reaches the archival branch the statement
    is refused with [OperationalError], which leaves [handle_message], and
    the table is as before. *)
Theorem archive_refused_by_created_table (ev : event) (txt usr ch ts : string)
    (w : world) :
  reaches_archive ev txt usr ch ts ->
  Sql.t_cols (messages (db w)) = messages_schema.1 ->
  exists w',
    handle_message ev w
    = (inl (OperationalError
              "table messages has 4 columns but 5 values were supplied"), w')
    /\ messages (db w') = messages (db w).
Proof.
  intros Hr Hcols. rewrite (handle_message_archive _ _ _ _ _ _ Hr).
  destruct Hr as (_ & _ & Hc & Ht & _).
  rewrite (archive_run _ _ _ _ _ _ Hc Ht).
  unfold Sql.insert_values, Sql.arity_error. rewrite Hcols. cbn.
  eexists. split; [reflexivity|done].
Qed.

(** ** The dispatcher *)

(** C9 (as the code has it). For an event outside a direct-message channel
    whose text starts with the mention of the bot: whatever the subtype and
    the outcome, nothing is archived (the messages table is as before and
    no INSERT on it is run).  A bot message is dropped at line 260.
    Otherwise, once the notices of lines 252-257 are out: when the second
    blank-separated token starts with a version-4 UUID, the event, its text
    replaced by [id:] and that token, is handed to [handle_query]; when the
    second token does not match, the dispatcher returns and nothing more is
    done; when there is no second token, [args[1]] raises [IndexError],
    which leaves [handle_message], and nothing more is done. *)
Theorem mention_never_archived (ev : event) (txt ch : string) (c0 : ascii)
    (w : world) :
  e_text ev = Some txt -> Py.take 12 txt = mention ->
  e_channel ev = Some ch -> Py.first ch = Some c0 -> c0 <> "D"%char ->
  (forall r w', handle_message ev w = (r, w') -> never_archives w w')
  /\ (forall w1 a1,
        e_subtype ev <> Some "bot_message" ->
        notices ev w = (inr tt, w1) ->
        Py.split txt !! 1 = Some a1 -> re_match uuid4hex a1 = true ->
        handle_message ev w = handle_query (set_text ("id:" +:+ a1) ev) w1)
  /\ (forall w1 a1,
        e_subtype ev <> Some "bot_message" ->
        notices ev w = (inr tt, w1) ->
        Py.split txt !! 1 = Some a1 -> re_match uuid4hex a1 = false ->
        handle_message ev w = (inr tt, w1))
  /\ (forall w1,
        e_subtype ev <> Some "bot_message" ->
        notices ev w = (inr tt, w1) ->
        Py.split txt !! 1 = None ->
        handle_message ev w = (inl IndexError, w1))
  /\ (e_subtype ev = Some "bot_message" -> handle_message ev w = (inr tt, w)).
Proof.
  intros Ht Hm Hc Hc0 HD.
  apply Ascii.eqb_neq in HD. apply String.eqb_eq in Hm.
  assert (Hroute : route ev
    = if bool_decide (e_subtype ev = Some "bot_message") then mret tt
      else a1 ← index (Py.split txt) 1;
           if re_match uuid4hex a1
           then handle_query (set_text ("id:" +:+ a1) ev) else mret tt).
  { unfold route. rewrite Ht, Hc. unfold item.
    rewrite ret_bind, Hc0, ret_bind, HD, Hm. reflexivity. }
  split; [|split; [|split; [|split]]].
  - revert w. change (preserves never_archives (handle_message ev)).
    unfold handle_message. rewrite Hroute. unfold index. frame.
    + apply notices_never.
    + apply handle_query_never.
  - intros w1 a1 Hb Hn Ha Hre. unfold handle_message.
    rewrite (bind_ok _ _ _ _ _ Hn), Hroute.
    rewrite bool_decide_eq_false_2 by done.
    unfold index. rewrite Ha, ret_bind, Hre. reflexivity.
  - intros w1 a1 Hb Hn Ha Hre. unfold handle_message.
    rewrite (bind_ok _ _ _ _ _ Hn), Hroute.
    rewrite bool_decide_eq_false_2 by done.
    unfold index. rewrite Ha, ret_bind, Hre. reflexivity.
  - intros w1 Hb Hn Ha. unfold handle_message.
    rewrite (bind_ok _ _ _ _ _ Hn), Hroute.
    rewrite bool_decide_eq_false_2 by done.
    unfold index. rewrite Ha. reflexivity.
  - intros Hb. unfold handle_message, notices. rewrite Hroute, Hb.
    rewrite (bool_decide_eq_false_2 (Some "bot_message" = Some "message_deleted"))
      by discriminate.
    rewrite (bool_decide_eq_false_2 (Some "bot_message" = Some "message_changed"))
      by discriminate.
    rewrite (bool_decide_eq_true_2 (Some "bot_message" = Some "bot_message"))
      by reflexivity.
    reflexivity.
Qed.

(** C8 (as the code has it). For an event of subtype [message_changed]
    without a top-level text, whose [message] and [previous_message] carry
    their texts, whose previous timestamp the platform renders and whose
    channel name resolves, the dispatcher sends one message, to the
    operations channel: the notice with the old and the new text; the
    messages table is as before, and the statements run, if any, are those
    of the channel refresh. *)
Theorem edit_notice (ev : event) (m pm : payload) (new old ts sent_on ch name : string)
    (w w1 : world) :
  e_subtype ev = Some "message_changed" -> e_text ev = None ->
  e_message ev = Some m -> e_previous_message ev = Some pm ->
  p_text m = Some new -> p_text pm = Some old ->
  p_ts pm = Some ts -> notice_time ts = inr sent_on ->
  e_channel ev = Some ch -> get_channel_name ch w = (inr (Some name), w1) ->
  let notice :=
    "@" +:+ get_user (p_user m) +:+ " edited their message (sent on " +:+ sent_on
    +:+ ") from #" +:+ name +:+ ": " +:+ String (ascii_of_nat 10) ">" +:+ old
    +:+ String (ascii_of_nat 10) (" to say: " +:+ String (ascii_of_nat 10) ">")
    +:+ new in
  handle_message ev w
  = (inr tt, with_outbox (fun o => o ++ [(notice, operations_channel)]) w1)
  /\ outbox w1 = outbox w
  /\ directory_step w w1.
Proof.
  intros Hs Ht Hm Hpm Hnew Hold Hts Hwhen Hch Hname notice.
  split; [|split].
  - unfold handle_message, notices, route. rewrite Hs, Ht.
    rewrite (bool_decide_eq_false_2 (Some "message_changed" = Some "message_deleted"))
      by discriminate.
    rewrite (bool_decide_eq_true_2 (Some "message_changed" = Some "message_changed"))
      by reflexivity.
    rewrite ret_bind. unfold changed_notice, attr, notice_when, channel_name_of.
    rewrite Hm, Hpm, Hch. cbn beta iota. rewrite !ret_bind.
    rewrite Hts, Hold, Hnew. cbn beta iota. rewrite Hwhen.
    rewrite bind_assoc, lift_bind.
    rewrite bind_assoc, (bind_ok _ _ _ _ _ Hname).
    unfold concat, send_message. rewrite !ret_bind.
    rewrite bind_run. cbn [modify]. unfold notice.
    rewrite !append_assoc. reflexivity.
  - by apply get_channel_name_directory in Hname as (_ & ? & _).
  - by apply get_channel_name_directory in Hname.
Qed.

(** ** Failures of a query *)

(** C4 (as the code has it). The [try] of [handle_query] catches
    [ValueError] and nothing else.  When the body raises a [ValueError] its
    message is sent to the channel of the event, as the only message, and
    [handle_query] returns; no [ValueError] leaves [handle_query].  The
    body raises [ValueError] for a token [from:] or [in:] whose name does
    not resolve, a token [sort:] with a value other than [asc] and [desc],
    a token [limit:] with a value [int] refuses, and a stored timestamp
    that [int] or the platform refuses, and for nothing else; whichever
    token fails first decides the reply.  Every other exception leaves
    [handle_query] as the body raised it, with nothing sent.  A query that
    returns has sent exactly one message, to the channel of the event.  An
    exception that leaves ends the handling of the events just read, and
    no more: the cycle of the event loop returns whatever its events
    raise. *)
Theorem handle_query_catches_ValueError (ev : event) (ch : string) (w : world) :
  e_channel ev = Some ch ->
  (forall msg w1,
     query_body ev w = (inl (ValueError msg), w1) ->
     handle_query ev w = (inr tt, with_outbox (fun o => o ++ [(msg, ch)]) w1)
     /\ outbox w1 = outbox w)
  /\ (forall msg w', handle_query ev w <> (inl (ValueError msg), w'))
  /\ (forall t msg w1,
        e_text ev = Some t ->
        query_body ev w = (inl (ValueError msg), w1) ->
        (exists pre tok post v1 wa,
           Py.split (Py.lower t) = pre ++ tok :: post
           /\ parse_tokens plan0 pre w = (inr v1, wa)
           /\ token_failure tok wa w1 msg)
        \/ (exists r,
              r ∈ map (Sql.project (Sql.t_cols (messages (db w))))
                      (Sql.t_rows (messages (db w)))
              /\ timestamp_failure (Sql.r_timestamp r) msg))
  /\ (forall t pre tok post v1 wa w1 msg,
        e_text ev = Some t ->
        Py.split (Py.lower t) = pre ++ tok :: post ->
        (forall p0, head (Py.split (Py.lower t)) = Some p0 ->
                    Py.take 3 p0 <> "id:") ->
        parse_tokens plan0 pre w = (inr v1, wa) ->
        token_failure tok wa w1 msg ->
        handle_query ev w
        = (inr tt, with_outbox (fun o => o ++ [(msg, ch)]) w1))
  /\ (forall i msg w0,
        timestamp_failure (Sql.r_timestamp i) msg ->
        exists w1, render i w0 = (inl (ValueError msg), w1))
  /\ (forall e w',
        handle_query ev w = (inl e, w') ->
        (forall msg, e <> ValueError msg)
        /\ query_body ev w = (inl e, w')
        /\ outbox w' = outbox w)
  /\ (forall e w1,
        (forall msg, e <> ValueError msg) ->
        query_body ev w = (inl e, w1) -> handle_query ev w = (inl e, w1))
  /\ (forall w', handle_query ev w = (inr tt, w') ->
                 exists msg, outbox w' = outbox w ++ [(msg, ch)])
  /\ (forall batch w0, exists w', read_cycle batch w0 = (inr tt, w')).
Proof.
  intros Hc. pose proof (handle_query_cases ev ch w Hc) as Hq.
  repeat apply conj.
  - intros msg w1 H. rewrite Hq, H. split; [done|].
    by apply query_body_outbox in H.
  - intros msg w'. rewrite Hq.
    destruct (query_body ev w) as [[[]|[]] w1]; discriminate.
  - intros t msg w1 Ht H. by apply (query_body_fails ev t).
  - intros t pre tok post v1 wa w1 msg Ht Hs Hid Hp Hf.
    apply (query_fails_at_token ev t ch pre tok post v1 w wa); try done.
    by apply parse_token_fails.
  - intros i msg w0. apply render_timestamp_fails.
  - intros e w' H. rewrite Hq in H.
    destruct (query_body ev w) as [[e1|[]] w1] eqn:E; [|discriminate].
    apply query_body_outbox in E.
    destruct e1; try discriminate; injection H as <- <-;
      (split; [discriminate|]); by split.
  - intros e w1 He H. rewrite Hq, H. destruct e; try reflexivity.
    by destruct (He msg).
  - intros w' H. rewrite Hq in H.
    destruct (query_body ev w) as [[e1|[]] w1] eqn:E.
    + apply query_body_outbox in E.
      destruct e1; try discriminate. injection H as <-.
      exists msg. cbn. by rewrite E.
    + injection H as <-.
      apply query_body_outbox in E as (msg & ch' & Hc' & E).
      exists msg. congruence.
  - apply read_cycle_returns.
Qed.

(** C5 (as the code has it). In a free-text query whose tokens before
    [from:name] parse, when [name] (its [@] removed) is neither in the
    cache nor among the names the workspace lists, [handle_query] returns
    after sending [User name not found] to the channel of the event.  The
    messages table is neither read nor written; the statements run are
    those of directory refreshes, and the refresh made for [name] does
    write the users table. *)
Theorem unknown_user_fails (ev : event) (t ch name : string)
    (pre post : list string) (v1 : plan) (w w1 : world) :
  e_text ev = Some t -> e_channel ev = Some ch ->
  Py.split (Py.lower t) = pre ++ ("from:" +:+ name) :: post ->
  (forall p0, head (Py.split (Py.lower t)) = Some p0 -> Py.take 3 p0 <> "id:") ->
  Py.count ":" name = 0 ->
  parse_tokens plan0 pre w = (inr v1, w1) ->
  let key := Py.strip (Py.remove_char "@" name) in
  user_id (ENV w1) !! key = None ->
  key ∉ map m_name (users_list (sc w1)) ->
  exists w2,
    handle_query ev w
    = (inr tt, with_outbox (fun o => o ++ [("User " +:+ name +:+ " not found", ch)]) w2)
    /\ directory_step w w2
    /\ journal w2
       = journal w1
         ++ [InsertUsers (map (fun m => (m_name m, m_id m, default default_avatar (m_image_72 m)))
                              (users_list (sc w1))); Commit].
Proof.
  intros Ht Hc Hsplit Hid Hname Hpre key Hmiss Hnone.
  pose (w2 := (update_users w1).2).
  assert (Hbody : query_body ev w
                  = (inl (ValueError ("User " +:+ name +:+ " not found")), w2)).
  { unfold query_body. rewrite Ht. unfold item. rewrite ret_bind.
    assert (Hq : parse_query (Py.split (Py.lower t)) w
                 = (inl (ValueError ("User " +:+ name +:+ " not found")), w2)).
    { destruct (Py.split (Py.lower t)) as [|p0 l] eqn:E;
        [by destruct pre|].
      rewrite (parse_query_free (p0 :: l) p0 w eq_refl (Hid p0 eq_refl)).
      rewrite Hsplit, bind_run, parse_tokens_app, (bind_ok _ _ _ _ _ Hpre).
      cbn [parse_tokens]. rewrite bind_run.
      by rewrite parse_token_unknown_user. }
    by rewrite (bind_raise _ _ _ _ _ Hq). }
  exists w2. split; [|split].
  - unfold handle_query, try_except_ValueError. rewrite Hbody.
    unfold report. rewrite Hc. reflexivity.
  - etrans; [by eapply parse_tokens_directory|].
    apply (update_users_directory w1 (update_users w1).1). unfold w2.
    by destruct (update_users w1).
  - unfold w2. rewrite update_users_run. reflexivity.
Qed.

(** ** Execution of a query *)



(** * Further properties of the code *)

(** ** The directory cache *)

Lemma dict_lookup_last {V} (l1 l2 : list (string * V)) k v :
  k ∉ map fst l2 -> dict (l1 ++ (k, v) :: l2) !! k = Some v.
Proof.
  intros H. unfold dict. rewrite foldl_app. cbn [foldl].
  rewrite dict_acc_notin by done. cbn. apply lookup_insert_eq.
Qed.

Lemma dict_lookup_NoDup {V} (l : list (string * V)) k v :
  NoDup (map fst l) -> (k, v) ∈ l -> dict l !! k = Some v.
Proof.
  intros Hnd Hin. apply list_elem_of_split in Hin as (l1 & l2 & ->).
  apply dict_lookup_last. rewrite map_app in Hnd. cbn in Hnd.
  apply NoDup_app in Hnd as (_ & _ & Hnd). by apply NoDup_cons in Hnd as [? _].
Qed.

Lemma get_user_id_miss name w :
  user_id (ENV w) !! name = None ->
  get_user_id name w
  = (inr (dict (map (fun m => (m_name m, m_id m)) (users_list (sc w))) !! name),
     (update_users w).2).
Proof.
  intros Hmiss. unfold get_user_id. rewrite gets_bind.
  destruct (decide _) as [[x Hx]|_]; [congruence|].
  rewrite (bind_ok _ _ _ _ _ (update_users_run w)).
  by rewrite update_users_run.
Qed.

(** X1. A name that is not cached is looked up in a fresh listing, fetched
    once: when several members carry the name the identifier of the one
    listed last is returned, and when none does the answer is [None]. *)
Theorem get_user_id_refreshed (name : string) (w : world) :
  user_id (ENV w) !! name = None ->
  (forall l1 m l2,
     users_list (sc w) = l1 ++ m :: l2 -> m_name m = name ->
     name ∉ map m_name l2 ->
     get_user_id name w = (inr (Some (m_id m)), (update_users w).2))
  /\ (name ∉ map m_name (users_list (sc w)) ->
      get_user_id name w = (inr None, (update_users w).2)).
Proof using Type.
  intros Hmiss. rewrite (get_user_id_miss _ _ Hmiss). split.
  - intros l1 m l2 -> <- Hl2. do 2 f_equal.
    rewrite map_app. cbn [map]. apply dict_lookup_last. by rewrite map_map.
  - intros Hno. do 2 f_equal. apply dict_lookup_None. by rewrite map_map.
Qed.

(** The loop of lines 90-99 changes the visibility table and nothing
    else, whether it completes or raises. *)
Lemma for_each_record_channel_frame (l : list channel_obj) w r w' :
  for_each l record_channel w = (r, w') ->
  exists ci,
    w' = with_ENV (fun E =>
           Directory (user_id E) (id_user E) (channel_id E) (id_channel E) ci) w.
Proof.
  revert w. induction l as [|m l IH]; intros w; simpl.
  - intros H. inversion H; subst. exists (channel_info (ENV w')).
    by destruct w' as [[] ? ? ? ? ? ?].
  - intros H. apply bind_inv in H as [(e & H1 & _)|([] & w1 & H1 & H2)].
    + unfold record_channel in H1.
      destruct (c_is_group m), (c_is_private m) as [b|], (c_members m) as [k|];
        cbn in H1; inversion H1; subst;
        exists (channel_info (ENV w')); by destruct w' as [[] ? ? ? ? ? ?].
    + apply record_channel_ok in H1 as (v & _ & ->).
      apply IH in H2 as (ci & ->). by exists ci.
Qed.

Lemma update_channels_run w w' :
  update_channels w = (inr tt, w') ->
  let info := listing w in
  let args := map (fun m => (c_name m, c_id m)) info in
  exists ci,
    w' = World (Directory (user_id (ENV w)) (id_user (ENV w))
                          (dict (map (fun m => (c_name m, c_id m)) info))
                          (dict (map (fun m => (c_id m, c_name m)) info)) ci)
               (Database (messages (db w)) (users (db w))
                         (foldl upsert_channel (channels (db w)) args))
               (sc w) (outbox w) (journal w ++ [InsertChannels args; Commit])
               (logs_txt w) (drawn w).
Proof.
  unfold update_channels, listing. intros H.
  rewrite gets_bind, modify_bind in H.
  apply bind_inv in H as [(e & _ & ?)|([] & w3 & H3 & H)]; [done|].
  apply for_each_record_channel_frame in H3 as (ci & ->).
  unfold commit in H. rewrite !modify_bind in H. inversion H; subst; clear H.
  exists ci. unfold with_journal, with_db, with_ENV. cbn.
  by rewrite <- app_assoc.
Qed.

(** X2. After a channel refresh that completes on a listing whose names
    and whose identifiers are pairwise distinct, the two name maps are
    inverse to each other on the listed channels, and both lookups answer
    from the cache, without another refresh. *)
Theorem update_channels_round_trip (w w' : world) (m : channel_obj) :
  update_channels w = (inr tt, w') ->
  NoDup (map c_name (listing w)) -> NoDup (map c_id (listing w)) ->
  m ∈ listing w ->
  get_channel_id (c_name m) w' = (inr (Some (c_id m)), w')
  /\ get_channel_name (c_id m) w' = (inr (Some (c_name m)), w').
Proof using Type.
  intros H Hn Hi Hm. apply update_channels_run in H as (ci & ->).
  assert (A : dict (map (fun m => (c_name m, c_id m)) (listing w)) !! c_name m
              = Some (c_id m)).
  { apply dict_lookup_NoDup; [by rewrite map_map|].
    apply list_elem_of_fmap. by exists m. }
  assert (B : dict (map (fun m => (c_id m, c_name m)) (listing w)) !! c_id m
              = Some (c_name m)).
  { apply dict_lookup_NoDup; [by rewrite map_map|].
    apply list_elem_of_fmap. by exists m. }
  split.
  - unfold get_channel_id. rewrite gets_bind. cbn [ENV channel_id].
    destruct (decide _) as [_|Hx]; [|destruct Hx; by rewrite A].
    rewrite ret_bind. unfold gets. cbn [ENV channel_id]. by rewrite A.
  - unfold get_channel_name. rewrite gets_bind. cbn [ENV id_channel].
    destruct (decide _) as [_|Hx]; [|destruct Hx; by rewrite B].
    rewrite ret_bind. unfold gets. cbn [ENV id_channel]. by rewrite B.
Qed.

(** ** The users table *)

Lemma upsert_user_elem rows a r :
  r ∈ upsert_user rows a <-> (r ∈ rows /\ user_row_id r <> user_row_id a) \/ r = a.
Proof using Type.
  unfold upsert_user. rewrite elem_of_app, list_elem_of_filter, list_elem_of_singleton.
  unfold user_row_id. split.
  - intros [[A B]|C]; [left; by split|by right].
  - intros [[A B]|C]; [left; by split|by right].
Qed.

Lemma upsert_user_NoDup rows a :
  NoDup (map user_row_id rows) -> NoDup (map user_row_id (upsert_user rows a)).
Proof using Type.
  intros H. unfold upsert_user. rewrite map_app. apply NoDup_app. split; [|split].
  - induction rows as [|r rows IH]; [constructor|].
    cbn in H. apply NoDup_cons in H as [Hr H].
    destruct (decide (r.1.2 <> a.1.2)) as [Hne|He].
    + rewrite filter_cons_True by done. cbn. apply NoDup_cons. split; [|by apply IH].
      intros Hin. apply Hr. apply list_elem_of_fmap in Hin as (y & -> & Hy).
      apply list_elem_of_filter in Hy as [_ Hy]. apply list_elem_of_fmap. by exists y.
    + rewrite filter_cons_False by done. by apply IH.
  - intros i Hi Ha. cbn in Ha. apply list_elem_of_singleton in Ha as ->.
    apply list_elem_of_fmap in Hi as (y & Hy & Hin).
    apply list_elem_of_filter in Hin as [Hne _]. by apply Hne.
  - cbn. apply NoDup_singleton.
Qed.

Lemma foldl_upsert_user_NoDup args : forall rows,
  NoDup (map user_row_id rows) ->
  NoDup (map user_row_id (foldl upsert_user rows args)).
Proof using Type.
  induction args as [|a args IH]; intros rows H; cbn; [done|].
  apply IH. by apply upsert_user_NoDup.
Qed.

Lemma foldl_upsert_user_last args : forall rows l1 a l2,
  args = l1 ++ a :: l2 -> user_row_id a ∉ map user_row_id l2 ->
  a ∈ foldl upsert_user rows args.
Proof using Type.
  intros rows l1 a l2 -> Hl2. rewrite foldl_app. cbn [foldl].
  generalize (foldl upsert_user rows l1). intros acc.
  assert (Ha : a ∈ upsert_user acc a) by (apply upsert_user_elem; by right).
  revert Ha. generalize (upsert_user acc a). clear acc.
  induction l2 as [|b l2 IH]; intros acc Ha; cbn; [done|].
  cbn in Hl2. apply not_elem_of_cons in Hl2 as [Hne Hl2].
  apply IH; [done|]. apply upsert_user_elem. left. by split.
Qed.

Lemma foldl_upsert_user_kept args : forall rows r,
  r ∈ rows -> user_row_id r ∉ map user_row_id args ->
  r ∈ foldl upsert_user rows args.
Proof using Type.
  induction args as [|a args IH]; intros rows r Hr Hn; cbn; [done|].
  cbn in Hn. apply not_elem_of_cons in Hn as [Hne Hn].
  apply IH; [|done]. apply upsert_user_elem. left. by split.
Qed.

(** X3. A user refresh keeps the identifiers of the users table pairwise
    distinct; afterwards the table holds, for every identifier listed, the
    row of the member listed last with it (the avatar defaulted when the
    profile has none), and it still holds every earlier row whose
    identifier is not listed. *)
Theorem update_users_table (w : world) :
  NoDup (map user_row_id (users (db w))) ->
  let w' := (update_users w).2 in
  NoDup (map user_row_id (users (db w')))
  /\ (forall l1 m l2,
        users_list (sc w) = l1 ++ m :: l2 -> m_id m ∉ map m_id l2 ->
        user_row m ∈ users (db w'))
  /\ (forall r,
        r ∈ users (db w) -> user_row_id r ∉ map m_id (users_list (sc w)) ->
        r ∈ users (db w')).
Proof using Type.
  intros Hnd w'. unfold w'. rewrite update_users_run. cbn [snd db users].
  split; [|split].
  - by apply foldl_upsert_user_NoDup.
  - intros l1 m l2 Hl Hl2.
    apply (foldl_upsert_user_last _ _ (map user_row l1) (user_row m) (map user_row l2)).
    + rewrite Hl, map_app. reflexivity.
    + by rewrite map_map.
  - intros r Hr Hn. apply foldl_upsert_user_kept; [done|]. by rewrite map_map.
Qed.

(** ** The channel refresh and the gate *)

Lemma for_each_record_channel_total (l : list channel_obj) : forall w,
  (forall m, m ∈ l -> is_Some (entry_of m)) ->
  exists w', for_each l record_channel w = (inr tt, w').
Proof using Type.
  induction l as [|m l IH]; intros w Hall; simpl; [by eexists|].
  pose proof (record_channel_result m w) as Hm.
  destruct (Hall m) as [v Hv]; [by left|]. rewrite Hv in Hm.
  rewrite (bind_ok _ _ _ _ _ Hm). apply IH. intros m' Hm'. apply Hall. by right.
Qed.

(** X4. After a channel refresh that completes, the gate never raises: for
    a channel of the listing it answers with a boolean, and for any other
    channel it answers [None], also when the visibility table still has an
    entry from an earlier listing. *)
Theorem gate_after_refresh (w w' : world) (cid uid : string) :
  update_channels w = (inr tt, w') ->
  (cid ∈ map c_id (listing w) ->
   exists b, can_query_channel cid uid w' = (inr (Some b), w'))
  /\ (cid ∉ map c_id (listing w) ->
      can_query_channel cid uid w' = (inr None, w')).
Proof using Type.
  intros H. pose proof (update_channels_covers _ _ cid H) as Hcov.
  apply update_channels_run in H as (ci & Hw).
  assert (Hid : id_channel (ENV w')
                = dict (map (fun m => (c_id m, c_name m)) (listing w)))
    by (by rewrite Hw).
  unfold can_query_channel. rewrite gets_bind. split.
  - intros Hin.
    assert (Hs : is_Some (id_channel (ENV w') !! cid)).
    { rewrite Hid. apply dict_lookup_is_Some. by rewrite map_map. }
    destruct (decide _) as [_|Hx]; [|done].
    destruct (Hcov Hs) as [v Hv]. rewrite Hv. by eexists.
  - intros Hout.
    assert (Hn : id_channel (ENV w') !! cid = None).
    { rewrite Hid. apply dict_lookup_None. by rewrite map_map. }
    destruct (decide _) as [[x Hx]|_]; [congruence|done].
Qed.

(** ** What a query leaves alone *)

#[local] Instance quiet_po : PreOrder quiet.
Proof using Type.
  split.
  - by intros w.
  - intros w1 w2 w3 (A1 & B1 & C1) (A2 & B2 & C2). repeat split; congruence.
Qed.

Ltac quiet_steps := frame; try (split; [reflexivity|split; reflexivity]).

Lemma update_users_quiet : preserves quiet update_users.
Proof using Type. unfold update_users, commit. quiet_steps. Qed.

Lemma update_channels_quiet : preserves quiet update_channels.
Proof using Type. unfold update_channels, commit, record_channel. quiet_steps. Qed.

Lemma get_user_id_quiet name : preserves quiet (get_user_id name).
Proof using Type. unfold get_user_id. quiet_steps. apply update_users_quiet. Qed.

Lemma get_user_name_quiet uid : preserves quiet (get_user_name uid).
Proof using Type. unfold get_user_name. quiet_steps. apply update_users_quiet. Qed.

Lemma get_channel_id_quiet name : preserves quiet (get_channel_id name).
Proof using Type. unfold get_channel_id. quiet_steps. apply update_channels_quiet. Qed.

Lemma get_channel_name_quiet uid : preserves quiet (get_channel_name uid).
Proof using Type. unfold get_channel_name. quiet_steps. apply update_channels_quiet. Qed.

Lemma parse_tokens_quiet params : forall v, preserves quiet (parse_tokens v params).
Proof using Type.
  induction params as [|p params IH]; intros v; simpl; [quiet_steps|].
  apply preserves_bind; [apply _| |intros v'; apply IH].
  unfold parse_token, parse_filter. quiet_steps;
    first [apply get_user_id_quiet | apply get_channel_id_quiet].
Qed.

Lemma handle_query_quiet ev : preserves quiet (handle_query ev).
Proof using strftime_local.
  unfold handle_query, query_body, report, respond, parse_query, execute,
    send_message, item, index.
  quiet_steps; try apply parse_tokens_quiet.
  all: match goal with
       | |- preserves _ (render_visible _ ?res) =>
           induction res as [|i res' IH]; simpl;
           [quiet_steps
           |unfold item, can_query_channel, render, convert_timestamp;
            quiet_steps;
            first [apply get_user_name_quiet | apply get_channel_name_quiet | apply IH]]
       end.
Qed.

(** X6. A query is read-only on everything but the directory: whatever the
    event and whatever the outcome, [handle_query] leaves the messages
    table as it is and runs no INSERT on it, writes nothing to the audit
    file and draws no identifier. *)
Theorem handle_query_read_only (ev : event) (w w' : world) (r : result unit) :
  handle_query ev w = (r, w') ->
  messages (db w') = messages (db w)
  /\ (exists j, journal w' = journal w ++ j /\ forallb not_insert j = true)
  /\ logs_txt w' = logs_txt w
  /\ drawn w' = drawn w.
Proof using strftime_local.
  intros H. pose proof (handle_query_never ev _ _ _ H) as [A B].
  pose proof (handle_query_quiet ev _ _ _ H) as (C & D & _).
  by repeat split.
Qed.

(** ** The dispatcher on the other events *)

(** X7. For an event of subtype [message_deleted] without a top-level
    text, whose [previous_message] carries its text and a timestamp the
    platform renders, and whose channel name resolves, the dispatcher sends
    one message, to the operations channel: the notice with the author, the
    time, the channel and the deleted text.  The archive keeps the deleted
    message: the messages table is as before. *)
Theorem delete_notice (ev : event) (pm : payload)
    (old ts sent_on ch name : string) (w w1 : world) :
  e_subtype ev = Some "message_deleted" -> e_text ev = None ->
  e_previous_message ev = Some pm ->
  p_text pm = Some old -> p_ts pm = Some ts -> notice_time ts = inr sent_on ->
  e_channel ev = Some ch -> get_channel_name ch w = (inr (Some name), w1) ->
  let notice :=
    "The following message from @" +:+ get_user (p_user pm) +:+ " (sent on "
    +:+ sent_on +:+ ") was deleted from #" +:+ name
    +:+ String (ascii_of_nat 10) ">" +:+ old
    +:+ String (ascii_of_nat 10) EmptyString in
  handle_message ev w
  = (inr tt, with_outbox (fun o => o ++ [(notice, operations_channel)]) w1)
  /\ outbox w1 = outbox w
  /\ messages (db w1) = messages (db w).
Proof using Type.
  intros Hs Ht Hpm Hold Hts Hwhen Hch Hname notice.
  split; [|split].
  - unfold handle_message, notices, route. rewrite Hs, Ht.
    rewrite (bool_decide_eq_true_2 (Some "message_deleted" = Some "message_deleted"))
      by reflexivity.
    rewrite (bool_decide_eq_false_2 (Some "message_deleted" = Some "message_changed"))
      by discriminate.
    unfold deleted_notice, attr, notice_when, channel_name_of.
    rewrite Hpm, Hch. cbn beta iota. rewrite !ret_bind.
    rewrite Hts, Hold. cbn beta iota. rewrite Hwhen.
    rewrite !bind_assoc, lift_bind. rewrite !ret_bind.
    rewrite !bind_assoc, lift_bind.
    rewrite !bind_assoc, (bind_ok _ _ _ _ _ Hname).
    unfold concat, send_message. rewrite !ret_bind.
    rewrite !bind_run. cbn [modify]. unfold notice.
    rewrite !append_assoc. reflexivity.
  - by apply get_channel_name_directory in Hname as (_ & ? & _).
  - by apply get_channel_name_directory in Hname as (? & _).
Qed.

(** X8. Three kinds of events have no effect at all: an event of subtype
    [bot_message], whatever else it carries; an event without text that is
    neither a deletion nor an edit; and a message without author outside
    the direct-message channels that does not start with the mention of
    the bot. *)
Theorem ignored_events (ev : event) (w : world) :
  (e_subtype ev = Some "bot_message" -> handle_message ev w = (inr tt, w))
  /\ (e_text ev = None ->
      e_subtype ev ∉ [Some "message_deleted"; Some "message_changed"] ->
      handle_message ev w = (inr tt, w))
  /\ (forall txt ch c0,
        e_text ev = Some txt -> e_user ev = None ->
        e_subtype ev ∉ [Some "message_deleted"; Some "message_changed"] ->
        e_channel ev = Some ch -> Py.first ch = Some c0 -> c0 <> "D"%char ->
        Py.take 12 txt <> mention ->
        handle_message ev w = (inr tt, w)).
Proof using Type.
  unfold handle_message, notices, route. split; [|split].
  - intros ->.
    rewrite (bool_decide_eq_false_2 (Some "bot_message" = Some "message_deleted"))
      by discriminate.
    rewrite (bool_decide_eq_false_2 (Some "bot_message" = Some "message_changed"))
      by discriminate.
    rewrite (bool_decide_eq_true_2 (Some "bot_message" = Some "bot_message"))
      by reflexivity.
    by destruct (e_text ev).
  - intros -> Hs.
    rewrite (bool_decide_eq_false_2 (e_subtype ev = Some "message_deleted"))
      by (intros E; apply Hs; rewrite E; by left).
    rewrite (bool_decide_eq_false_2 (e_subtype ev = Some "message_changed"))
      by (intros E; apply Hs; rewrite E; right; by left).
    reflexivity.
  - intros txt ch c0 -> -> Hs -> Hc0 HD Hm.
    rewrite (bool_decide_eq_false_2 (e_subtype ev = Some "message_deleted"))
      by (intros E; apply Hs; rewrite E; by left).
    rewrite (bool_decide_eq_false_2 (e_subtype ev = Some "message_changed"))
      by (intros E; apply Hs; rewrite E; right; by left).
    rewrite !ret_bind. destruct (bool_decide _); [reflexivity|].
    unfold item. rewrite ret_bind, Hc0, ret_bind.
    apply Ascii.eqb_neq in HD. rewrite HD.
    apply String.eqb_neq in Hm. by rewrite Hm.
Qed.

(** X9. A message with a text in a direct-message channel, unless a bot
    message, is a query: one line, the author and the text, is appended to
    the audit file before the query is handled, and whatever the query
    does or raises, that line is the only one written, nothing is archived
    and no identifier is drawn. *)
Theorem direct_message_audited (ev : event) (txt ch : string) (w w' : world)
    (r : result unit) :
  e_text ev = Some txt -> e_channel ev = Some ch ->
  Py.first ch = Some "D"%char ->
  e_subtype ev ∉ [Some "message_deleted"; Some "message_changed"; Some "bot_message"] ->
  handle_message ev w = (r, w') ->
  let line := get_user (e_user ev) +:+ "|" +:+ txt
              +:+ String (ascii_of_nat 10) EmptyString in
  handle_message ev w
  = handle_query ev (with_logs_txt (fun l => l ++ [line]) w)
  /\ logs_txt w' = logs_txt w ++ [line]
  /\ messages (db w') = messages (db w)
  /\ drawn w' = drawn w.
Proof using Type.
  intros Ht Hc Hc0 Hs H line.
  assert (E : handle_message ev w
              = handle_query ev (with_logs_txt (fun l => l ++ [line]) w)).
  { unfold handle_message, notices, route.
    rewrite (bool_decide_eq_false_2 (e_subtype ev = Some "message_deleted"))
      by (intros E; apply Hs; rewrite E; by left).
    rewrite (bool_decide_eq_false_2 (e_subtype ev = Some "message_changed"))
      by (intros E; apply Hs; rewrite E; right; by left).
    rewrite (bool_decide_eq_false_2 (e_subtype ev = Some "bot_message"))
      by (intros E; apply Hs; rewrite E; do 2 right; by left).
    rewrite Ht, Hc. unfold item. rewrite !ret_bind, Hc0, ret_bind.
    change (Ascii.eqb "D" "D") with true. cbn beta iota.
    by rewrite modify_bind. }
  split; [exact E|]. rewrite E in H.
  pose proof (handle_query_never ev _ _ _ H) as [A _].
  pose proof (handle_query_quiet ev _ _ _ H) as (B & C & _).
  by repeat split.
Qed.

(** ** Tokens *)

Lemma count_rev_app c s1 : forall s2,
  Py.count c (String.rev_app s1 s2) = Py.count c s1 + Py.count c s2.
Proof using Type.
  induction s1 as [|a s1 IH]; intros s2; simpl; [done|].
  rewrite IH. simpl. lia.
Qed.

Lemma count_rev c s : Py.count c (String.rev s) = Py.count c s.
Proof using Type. unfold String.rev. rewrite count_rev_app. simpl. lia. Qed.

Lemma split_go_count c s : forall cur,
  Py.count c (default EmptyString cur) = 0 ->
  Py.count c s = 0 ->
  Forall (fun p => Py.count c p = 0) (Py.split_go cur s).
Proof using Type.
  induction s as [|a s IH]; intros cur Hcur Hs; simpl.
  - destruct cur as [w|]; simpl; [|constructor].
    constructor; [by rewrite count_rev|constructor].
  - simpl in Hs. destruct (Py.isspace a).
    + apply Forall_app. split.
      * destruct cur as [w|]; simpl; [|constructor].
        constructor; [by rewrite count_rev|constructor].
      * apply IH; [done|lia].
    + apply IH; [|lia]. simpl. lia.
Qed.

Lemma split_go_blank s : forall cur,
  blank s = true -> Py.split_go cur s = Py.flush cur.
Proof using Type.
  induction s as [|a s IH]; intros cur H; simpl; [done|].
  simpl in H. apply andb_true_iff in H as [Ha H]. rewrite Ha.
  rewrite (IH None H). simpl. by rewrite app_nil_r.
Qed.

Lemma split_go_some_not_nil t : forall w, Py.split_go (Some w) t <> [].
Proof using Type.
  induction t as [|b t IH]; intros w; simpl; [discriminate|].
  destruct (Py.isspace b); [discriminate|apply IH].
Qed.

Lemma split_go_not_blank s : forall cur,
  blank s = false -> Py.split_go cur s <> [].
Proof using Type.
  induction s as [|a s IH]; intros cur H; simpl; [done|].
  simpl in H. destruct (Py.isspace a) eqn:Ha.
  - simpl in H. intros E. apply app_eq_nil in E as [_ E]. by apply (IH None H).
  - apply split_go_some_not_nil.
Qed.

Lemma lower_char_isspace c : Py.isspace (Py.lower_char c) = Py.isspace c.
Proof using Type. destruct c as [[] [] [] [] [] [] [] []]; reflexivity. Qed.

Lemma lower_char_colon c :
  Ascii.eqb (Py.lower_char c) ":" = Ascii.eqb c ":".
Proof using Type. destruct c as [[] [] [] [] [] [] [] []]; reflexivity. Qed.

Lemma blank_lower t : blank (Py.lower t) = blank t.
Proof using Type.
  induction t as [|c t IH]; simpl; [done|]. by rewrite lower_char_isspace, IH.
Qed.

Lemma count_colon_lower t : Py.count ":" (Py.lower t) = Py.count ":" t.
Proof using Type.
  induction t as [|c t IH]; simpl; [done|]. by rewrite lower_char_colon, IH.
Qed.

Lemma take3_no_colon p : Py.count ":" p = 0 -> Py.take 3 p <> "id:".
Proof using Type.
  intros H E. apply split_on_id in E as (uid & l & E).
  rewrite (split_on_none _ _ H) in E. discriminate.
Qed.

Lemma parse_tokens_plain l : forall v w,
  Forall (fun p => Py.count ":" p = 0) l ->
  parse_tokens v l w
  = (inr (Plan (text v ++ l) (user v) (channel v) (sort v) (limit v)), w).
Proof using Type.
  induction l as [|p l IH]; intros v w H; simpl.
  - rewrite app_nil_r. by destruct v.
  - apply Forall_cons in H as [Hp H].
    unfold parse_token. rewrite (is_emoji_no_colon _ Hp), (split_on_none _ _ Hp).
    rewrite ret_bind, (IH _ _ H). cbn. by rewrite <- app_assoc.
Qed.

(** X10. A query text without a colon is a search for its words: the
    words, in lower case and in their order, joined by single blanks and
    wrapped in [%], are the LIKE pattern on the message; no filter and no
    order is set, the limit is 10, and nothing is looked up or refreshed. *)
Theorem plain_text_query (t : string) (w : world) :
  Py.count ":" t = 0 -> blank t = false ->
  parse_query (Py.split (Py.lower t)) w
  = (inr (Sql.Select
            [Sql.MessageLike ("%" +:+ Py.join " " (Py.split (Py.lower t)) +:+ "%")]
            None, 10%Z), w).
Proof using Type.
  intros Hc Hb.
  assert (Hall : Forall (fun p => Py.count ":" p = 0) (Py.split (Py.lower t))).
  { apply split_go_count; [done|by rewrite count_colon_lower]. }
  assert (Hne : Py.split (Py.lower t) <> [])
    by (apply split_go_not_blank; by rewrite blank_lower).
  destruct (Py.split (Py.lower t)) as [|p0 l] eqn:E; [done|].
  rewrite (parse_query_free (p0 :: l) p0 w eq_refl).
  2:{ apply take3_no_colon. by apply Forall_cons in Hall as [? _]. }
  rewrite bind_run, (parse_tokens_plain _ _ _ Hall). reflexivity.
Qed.

(** X11. A query text made of blanks only, the empty text included, has
    no first token: [handle_query] raises [IndexError] at line 160, which
    its handler does not catch; nothing is sent, run or changed. *)
Theorem blank_query_raises (ev : event) (t : string) (w : world) :
  e_text ev = Some t -> blank t = true ->
  handle_query ev w = (inl IndexError, w).
Proof using Type.
  intros Ht Hb. unfold handle_query, try_except_ValueError, query_body.
  rewrite Ht. unfold item. rewrite ret_bind.
  unfold Py.split. rewrite split_go_blank by (by rewrite blank_lower).
  reflexivity.
Qed.

(** ** What a search finds *)

Lemma like_percent p s :
  Sql.like (String "%" p) s
  = Sql.like p s || match s with
                    | EmptyString => false
                    | String _ s' => Sql.like (String "%" p) s'
                    end.
Proof using Type. by destruct s. Qed.


Lemma like_skip p s1 : forall s2,
  Sql.like p s2 = true -> Sql.like (String "%" p) (s1 +:+ s2) = true.
Proof using Type.
  induction s1 as [|d s1 IH]; intros s2 H.
  - change (EmptyString +:+ s2) with s2. rewrite like_percent, H. done.
  - change (String d s1 +:+ s2) with (String d (s1 +:+ s2)).
    rewrite like_percent, (IH _ H). apply orb_true_r.
Qed.


Lemma fold_case_percent d :
  Sql.fold_case d = Sql.fold_case "%" -> d = "%"%char.
Proof using Type.
  destruct d as [[] [] [] [] [] [] [] []]; vm_compute; congruence.
Qed.





(** X13. Every record a free-text query matches is a stored record whose
    message matches the pattern of the query, whose author is the user the
    query resolved, if it names one, and whose channel is the channel it
    resolved, if it names one. *)
Theorem search_respects_filters (v : plan) (t : Sql.table) (r : Sql.row) :
  r ∈ Sql.matching (build_query v) t ->
  r ∈ map (Sql.project (Sql.t_cols t)) (Sql.t_rows t)
  /\ Sql.like ("%" +:+ Py.join " " (text v) +:+ "%") (Sql.r_message r) = true
  /\ (forall u, nonempty (user v) = Some u -> Sql.r_user r = u)
  /\ (forall c, nonempty (channel v) = Some c -> Sql.r_channel r = c).
Proof using Type.
  intros H. apply matching_elem in H as [Hr H]. split; [done|].
  unfold build_query in H. cbn [Sql.q_where] in H.
  rewrite !forallb_app in H. cbn [forallb Sql.holds] in H.
  apply andb_true_iff in H as [Hl H]. rewrite andb_true_r in Hl.
  apply andb_true_iff in H as [Hu Hc]. split; [done|]. split.
  - intros u E. rewrite E in Hu. cbn in Hu. rewrite andb_true_r in Hu.
    by apply String.eqb_eq.
  - intros c E. rewrite E in Hc. cbn in Hc. rewrite andb_true_r in Hc.
    by apply String.eqb_eq.
Qed.

Lemma by_channel_build_query v :
  Sql.by_channel (build_query v)
  = match nonempty (channel v) with Some _ => true | None => false end.
Proof using Type.
  unfold Sql.by_channel, build_query. cbn [Sql.q_where].
  rewrite !existsb_app. cbn [existsb].
  destruct (nonempty (user v)), (nonempty (channel v)); reflexivity.
Qed.

(** X14. The rows a free-text query yields, when its statement is
    accepted, are the stored records that satisfy its WHERE clause, each
    once, and their order is this: with [sort:asc] the timestamps,
    compared as text, never decrease, and with [sort:desc] they never
    increase; without [sort:], on a table with no constraint but, at most,
    the one of line 33, the rows come in stored (rowid) order when the
    query names no channel or the table has no constraint, and by
    ascending timestamp when the query names a channel and the table has
    the constraint of line 33, whose index answers the statement. *)
Theorem search_order (v : plan) (t : Sql.table) (rows : list Sql.row) :
  Sql.execute (build_query v) t = inr rows ->
  let hits :=
    filter (fun r => forallb (Sql.holds r) (Sql.q_where (build_query v)) = true)
           (map (Sql.project (Sql.t_cols t)) (Sql.t_rows t)) in
  rows ≡ₚ hits
  /\ (sort v = Some "asc" -> Sorted Sql.ts_le rows)
  /\ (sort v = Some "desc" -> Sorted Sql.ts_ge rows)
  /\ (sort v = None -> nonempty (channel v) = None -> planned t -> rows = hits)
  /\ (sort v = None -> Sql.t_unique t = [] -> rows = hits)
  /\ (sort v = None -> is_Some (nonempty (channel v)) ->
      Sql.t_unique t = messages_schema.2 ->
      Sorted Sql.ts_le rows).
Proof using Type.
  intros Hx hits.
  destruct (sql_execute_cases (build_query v) t) as [E|[m E]];
    rewrite E in Hx; [|discriminate]. injection Hx as <-.
  repeat apply conj.
  - apply matching_Permutation.
  - intros E1. unfold Sql.matching, build_query at 1. rewrite E1. cbn.
    apply (sort_by_Sorted _).
  - intros E1. unfold Sql.matching, build_query at 1. rewrite E1. cbn.
    apply (sort_by_Sorted _).
  - intros E1 E2 _. unfold Sql.matching, build_query at 1. rewrite E1.
    cbn [nonempty Sql.q_order Sql.sorted].
    apply scan_rowid. by rewrite by_channel_build_query, E2.
  - intros E1 E2. unfold Sql.matching, build_query at 1. rewrite E1.
    cbn [nonempty Sql.q_order Sql.sorted].
    unfold Sql.scan. rewrite E2.
    rewrite (bool_decide_eq_false_2 ([] = [["channel"; "timestamp"]]))
      by discriminate.
    by rewrite andb_false_r.
  - intros E1 [c E2] E3. unfold Sql.matching, build_query at 1. rewrite E1.
    cbn [nonempty Sql.q_order Sql.sorted].
    unfold Sql.scan. rewrite by_channel_build_query, E2, E3.
    rewrite (bool_decide_eq_true_2 (messages_schema.2 = [["channel"; "timestamp"]]))
      by reflexivity.
    cbn [andb]. apply (sort_by_Sorted _).
Qed.

(** ** The limit at its bounds *)


(** ** The time of a record *)

Lemma split_on_first sep a b :
  Py.count sep a = 0 ->
  Py.split_on sep (a +:+ String sep b) = a :: Py.split_on sep b.
Proof using Type.
  induction a as [|c a IH]; intros H.
  - change (EmptyString +:+ String sep b) with (String sep b).
    cbn [Py.split_on]. by rewrite Ascii.eqb_refl.
  - simpl in H. change (String c a +:+ String sep b) with (String c (a +:+ String sep b)).
    cbn [Py.split_on]. destruct (Ascii.eqb c sep); [simpl in H; lia|].
    by rewrite IH.
Qed.

(** X16. The time shown for a record depends on the whole seconds of its
    timestamp only: what follows the first dot is dropped before the
    conversion, so a timestamp with a fraction is rendered, or refused,
    exactly as its integer part is. *)
Theorem convert_timestamp_seconds (secs frac : string) (w : world) :
  Py.count "." secs = 0 ->
  convert_timestamp (secs +:+ "." +:+ frac) w = convert_timestamp secs w.
Proof using Type.
  intros H. unfold convert_timestamp.
  change (secs +:+ "." +:+ frac) with (secs +:+ String "." frac).
  by rewrite (split_on_first _ _ _ H), (split_on_none _ _ H).
Qed.

(** ** Archiving on a table that has the [id] column *)

Lemma archive_stores ev txt usr ch ts w rows0 :
  reaches_archive ev txt usr ch ts ->
  messages (db w) = Sql.Table archive_columns messages_schema.2 rows0 ->
  exists w',
    handle_message ev w = (inr tt, w')
    /\ drawn w' = S (drawn w)
    /\ exists rows1,
         messages (db w') = Sql.Table archive_columns messages_schema.2 rows1
         /\ filter (at_key ch ts) rows1 = [[uuid4 (drawn w); txt; usr; ch; ts]]
         /\ forall ch' ts', (ch', ts') <> (ch, ts) ->
              filter (at_key ch' ts') rows1 = filter (at_key ch' ts') rows0.
Proof using Type.
  intros Hr Hm.
  destruct (archive_replaces_same_key _ _ _ _ _ _ _ Hr Hm)
    as (w' & Hrun & Hc & Hu & Hk & Ho).
  exists w'. split; [done|]. split.
  - rewrite (handle_message_archive _ _ _ _ _ _ Hr) in Hrun.
    destruct Hr as (_ & _ & Hch & Hts & _).
    rewrite (archive_run _ _ _ _ _ _ Hch Hts), Hm, insert_values_archive in Hrun.
    by inversion Hrun.
  - exists (Sql.t_rows (messages (db w'))). split; [|by split].
    destruct (messages (db w')) as [c u r]. cbn in *. by subst.
Qed.

(** X17. On a messages table made beforehand with the columns [id],
    [message], [user], [channel], [timestamp] and the constraint of line
    33, two events that reach the archival branch with the same channel
    and timestamp leave one record for that pair: it carries the text and
    the author of the second event and the second identifier drawn; the
    records of every other pair are as they were. *)
Theorem archive_twice (ev1 ev2 : event) (t1 t2 u1 u2 ch ts : string)
    (w : world) (rows0 : list (list string)) :
  reaches_archive ev1 t1 u1 ch ts -> reaches_archive ev2 t2 u2 ch ts ->
  messages (db w) = Sql.Table archive_columns messages_schema.2 rows0 ->
  exists w1 w2,
    handle_message ev1 w = (inr tt, w1)
    /\ handle_message ev2 w1 = (inr tt, w2)
    /\ filter (at_key ch ts) (Sql.t_rows (messages (db w2)))
       = [[uuid4 (S (drawn w)); t2; u2; ch; ts]]
    /\ forall ch' ts', (ch', ts') <> (ch, ts) ->
         filter (at_key ch' ts') (Sql.t_rows (messages (db w2)))
         = filter (at_key ch' ts') rows0.
Proof using Type.
  intros H1 H2 Hm.
  destruct (archive_stores _ _ _ _ _ _ _ H1 Hm)
    as (w1 & R1 & D1 & rows1 & M1 & _ & O1).
  destruct (archive_stores _ _ _ _ _ _ _ H2 M1)
    as (w2 & R2 & _ & rows2 & M2 & K2 & O2).
  exists w1, w2. split; [done|]. split; [done|]. rewrite M2. cbn [Sql.t_rows].
  split; [by rewrite K2, D1|].
  intros ch' ts' Hne. by rewrite O2, O1.
Qed.

(** ** The event loop *)

Lemma for_each_stops {A} (body : A -> M unit) (pre : list A) x post w w1 e w2 :
  for_each pre body w = (inr tt, w1) -> body x w1 = (inl e, w2) ->
  for_each (pre ++ x :: post) body w = (inl e, w2).
Proof using Type.
  revert w. induction pre as [|y pre IH]; intros w; simpl.
  - intros H Hx. inversion H; subst. by rewrite (bind_raise _ _ _ _ _ Hx).
  - intros H Hx. apply bind_inv in H as [(e' & _ & ?)|([] & w0 & Hy & H)]; [done|].
    rewrite (bind_ok _ _ _ _ _ Hy). by apply IH.
Qed.

(** X18. When handling an event raises, the events read with it and not
    yet handled are never handled: the cycle ends in the state the
    exception left, whatever the remaining events are, and returns. *)
Theorem read_cycle_drops_rest (pre post : list (option string * event))
    (te : option string * event) (w w1 w2 : world) (e : exn) :
  for_each pre (fun te => dispatch te.1 te.2) w = (inr tt, w1) ->
  dispatch te.1 te.2 w1 = (inl e, w2) ->
  read_cycle (pre ++ te :: post) w = (inr tt, w2).
Proof using Type.
  intros Hpre Hte. unfold read_cycle, try_except.
  by rewrite (for_each_stops _ _ _ post _ _ _ _ Hpre Hte).
Qed.

(** ** An unknown channel in a query *)

Lemma parse_token_unknown_channel v name w w2 :
  Py.count ":" name = 0 ->
  channel_id (ENV w) !! Py.strip (Py.remove_char "#" name) = None ->
  Py.strip (Py.remove_char "#" name) ∉ map c_name (listing w) ->
  update_channels w = (inr tt, w2) ->
  parse_token v ("in:" +:+ name) w
  = (inl (ValueError ("Channel " +:+ name +:+ " not found")), w2).
Proof using Type.
  intros Hname Hmiss Hnone Hup.
  unfold parse_token.
  assert (He : is_emoji ("in:" +:+ name) = false).
  { unfold is_emoji. cbn [String.append Py.first String.get].
    rewrite bool_decide_eq_false_2 by discriminate. by rewrite andb_false_r. }
  rewrite He.
  change (Py.split_on ":" ("in:" +:+ name)) with ("in" :: Py.split_on ":" name).
  rewrite (split_on_none _ _ Hname).
  unfold parse_filter.
  change (String.eqb "in" "from") with false.
  change (String.eqb "in" "in") with true. cbn beta iota.
  rewrite ret_bind, !bind_assoc. unfold get_channel_id. rewrite bind_assoc, gets_bind.
  destruct (decide _) as [[x Hx]|_]; [congruence|].
  rewrite bind_assoc, (bind_ok _ _ _ _ _ Hup), gets_bind.
  apply update_channels_run in Hup as (ci & ->). cbn [ENV channel_id].
  rewrite (dict_lookup_None _ (Py.strip (Py.remove_char "#" name)))
    by (by rewrite map_map).
  by rewrite !raise_bind.
Qed.

(** X19. In a free-text query whose tokens before [in:name] parse, when
    [name] (its [#] removed) is neither cached nor among the channels and
    groups the workspace lists, and the refresh made for it completes,
    [handle_query] returns after sending [Channel name not found] to the
    channel of the event; the messages table is neither read nor written
    and the statements run are those of directory refreshes. *)
Theorem unknown_channel_fails (ev : event) (t ch name : string)
    (pre post : list string) (v1 : plan) (w w1 w2 : world) :
  e_text ev = Some t -> e_channel ev = Some ch ->
  Py.split (Py.lower t) = pre ++ ("in:" +:+ name) :: post ->
  (forall p0, head (Py.split (Py.lower t)) = Some p0 -> Py.take 3 p0 <> "id:") ->
  Py.count ":" name = 0 ->
  parse_tokens plan0 pre w = (inr v1, w1) ->
  let key := Py.strip (Py.remove_char "#" name) in
  channel_id (ENV w1) !! key = None ->
  key ∉ map c_name (listing w1) ->
  update_channels w1 = (inr tt, w2) ->
  handle_query ev w
  = (inr tt, with_outbox (fun o => o ++ [("Channel " +:+ name +:+ " not found", ch)]) w2)
  /\ directory_step w w2.
Proof using Type.
  intros Ht Hc Hsplit Hid Hname Hpre key Hmiss Hnone Hup.
  assert (Hq : parse_query (Py.split (Py.lower t)) w
               = (inl (ValueError ("Channel " +:+ name +:+ " not found")), w2)).
  { destruct (Py.split (Py.lower t)) as [|p0 l] eqn:E; [by destruct pre|].
    rewrite (parse_query_free (p0 :: l) p0 w eq_refl (Hid p0 eq_refl)).
    rewrite Hsplit, bind_run, parse_tokens_app, (bind_ok _ _ _ _ _ Hpre).
    cbn [parse_tokens]. rewrite bind_run.
    by rewrite (parse_token_unknown_channel _ _ _ w2). }
  split.
  - unfold handle_query, try_except_ValueError, query_body.
    rewrite Ht. unfold item. rewrite ret_bind, (bind_raise _ _ _ _ _ Hq).
    unfold report. rewrite Hc. reflexivity.
  - etrans; [by eapply parse_tokens_directory|].
    by eapply update_channels_directory.
Qed.

(** ** A bad value in a query *)

Lemma parse_token_keyed key value v w :
  Py.count ":" key = 0 -> Py.count ":" value = 0 -> key <> EmptyString ->
  Py.first key <> Some ":"%char ->
  parse_token v (key +:+ ":" +:+ value) w = parse_filter v key value w.
Proof using Type.
  intros Hk Hv Hne Hf. unfold parse_token.
  assert (He : is_emoji (key +:+ ":" +:+ value) = false).
  { unfold is_emoji. destruct key as [|c key]; [done|].
    cbn [String.append Py.first String.get].
    rewrite (bool_decide_eq_false_2 (Some c = Some ":"%char)) by done.
    by rewrite andb_false_r. }
  rewrite He. change (key +:+ ":" +:+ value) with (key +:+ String ":" value).
  by rewrite (split_on_first _ _ _ Hk), (split_on_none _ _ Hv).
Qed.

(** X20. In a free-text query whose earlier tokens parse, a [sort:] value
    other than [asc] and [desc], and a [limit:] value that [int] does not
    read, end the query at that token: the reply names the value, the
    tokens after it are not read, and no statement is run for it. *)
Theorem bad_sort_or_limit_fails (ev : event) (t ch value : string)
    (pre post : list string) (v1 : plan) (w w1 : world) :
  e_text ev = Some t -> e_channel ev = Some ch ->
  (forall p0, head (Py.split (Py.lower t)) = Some p0 -> Py.take 3 p0 <> "id:") ->
  Py.count ":" value = 0 ->
  parse_tokens plan0 pre w = (inr v1, w1) ->
  (Py.split (Py.lower t) = pre ++ ("sort:" +:+ value) :: post ->
   value ∉ ["asc"; "desc"] ->
   handle_query ev w
   = (inr tt, with_outbox (fun o => o ++ [("Invalid sort order " +:+ value, ch)]) w1))
  /\ (Py.split (Py.lower t) = pre ++ ("limit:" +:+ value) :: post ->
      Py.int value = None ->
      handle_query ev w
      = (inr tt, with_outbox (fun o => o ++ [(value +:+ " not a valid number", ch)]) w1)).
Proof using Type.
  intros Ht Hc Hid Hv Hpre. split.
  - intros Hsplit Hbad.
    apply (query_fails_at_token ev t ch pre ("sort:" +:+ value) post v1 w w1);
      try done.
    change ("sort:" +:+ value) with ("sort" +:+ ":" +:+ value).
    rewrite parse_token_keyed by (done || discriminate).
    unfold parse_filter.
    change (String.eqb "sort" "from") with false.
    change (String.eqb "sort" "in") with false.
    change (String.eqb "sort" "sort") with true. cbn beta iota.
    rewrite !ret_bind. by rewrite bool_decide_eq_false_2, raise_bind.
  - intros Hsplit Hbad.
    apply (query_fails_at_token ev t ch pre ("limit:" +:+ value) post v1 w w1);
      try done.
    change ("limit:" +:+ value) with ("limit" +:+ ":" +:+ value).
    rewrite parse_token_keyed by (done || discriminate).
    unfold parse_filter.
    change (String.eqb "limit" "from") with false.
    change (String.eqb "limit" "in") with false.
    change (String.eqb "limit" "sort") with false.
    change (String.eqb "limit" "limit") with true. cbn beta iota.
    rewrite !ret_bind. by rewrite Hbad.
Qed.

(** ** Records the requester may not see *)

(** X21. When none of the fetched records may be seen by the requester
    (its channel is not in the directory, or is private and the requester
    is not a member), the reply is [No results found], the reply given
    when nothing was fetched at all, and nothing else changes. *)
Theorem hidden_results_look_empty (ev : event) (uid ch : string)
    (res : list Sql.row) (w : world) :
  e_user ev = Some uid -> e_channel ev = Some ch ->
  (forall r, r ∈ res ->
     id_channel (ENV w) !! Sql.r_channel r = None
     \/ exists ci, channel_info (ENV w) !! Sql.r_channel r = Some ci
                   /\ is_private ci = true /\ uid ∉ members ci) ->
  respond ev res w
  = (inr tt, with_outbox (fun o => o ++ [("No results found", ch)]) w)
  /\ respond ev res w = respond ev [] w.
Proof using Type.
  intros Hu Hc Hall.
  assert (He : respond ev [] w
               = (inr tt, with_outbox (fun o => o ++ [("No results found", ch)]) w)).
  { unfold respond. rewrite ret_bind, Hc. reflexivity. }
  assert (Hm : respond ev res w
               = (inr tt, with_outbox (fun o => o ++ [("No results found", ch)]) w)).
  { destruct res as [|i res]; [exact He|].
    unfold respond. rewrite bind_assoc.
    rewrite (bind_ok _ _ _ _ _ (render_visible_hidden ev uid (i :: res) w Hu Hall)).
    rewrite ret_bind, Hc. reflexivity. }
  split; [exact Hm|]. by rewrite Hm, He.
Qed.

(** ** Membership events *)

Lemma for_each_record_channel_notin (l : list channel_obj) k : forall w w',
  for_each l record_channel w = (inr tt, w') ->
  k ∉ map c_id l ->
  channel_info (ENV w') !! k = channel_info (ENV w) !! k.
Proof using Type.
  induction l as [|m l IH]; intros w w'; simpl.
  - intros H _. by inversion H.
  - intros H Hk. apply bind_inv in H as [(e & _ & ?)|([] & w1 & H1 & H2)]; [done|].
    apply record_channel_ok in H1 as (v & _ & ->).
    apply not_elem_of_cons in Hk as [Hk1 Hk2].
    rewrite (IH _ _ H2 Hk2). cbn. by apply lookup_insert_ne.
Qed.

Lemma for_each_record_channel_last l1 m l2 w w' :
  for_each (l1 ++ m :: l2) record_channel w = (inr tt, w') ->
  c_id m ∉ map c_id l2 ->
  exists v, entry_of m = Some v /\ channel_info (ENV w') !! c_id m = Some v.
Proof using Type.
  intros H Hk. apply for_each_app in H as (w1 & _ & H). simpl in H.
  apply bind_inv in H as [(e & _ & ?)|([] & w2 & H1 & H2)]; [done|].
  apply record_channel_ok in H1 as (v & Hv & ->).
  exists v. split; [done|].
  rewrite (for_each_record_channel_notin _ _ _ _ H2 Hk). cbn.
  apply lookup_insert_eq.
Qed.

Lemma update_channels_last w w' l1 m l2 :
  update_channels w = (inr tt, w') ->
  listing w = l1 ++ m :: l2 -> c_id m ∉ map c_id l2 ->
  id_channel (ENV w') !! c_id m = Some (c_name m)
  /\ exists v, entry_of m = Some v /\ channel_info (ENV w') !! c_id m = Some v.
Proof using Type.
  intros H Hl Hk.
  pose proof (update_channels_run _ _ H) as (ci & Hw).
  split.
  - rewrite Hw. cbn. rewrite Hl, map_app. cbn [map].
    apply dict_lookup_last. by rewrite map_map.
  - unfold update_channels in H. rewrite gets_bind, modify_bind in H.
    apply bind_inv in H as [(e & _ & ?)|([] & w3 & H3 & H)]; [done|].
    unfold commit in H. rewrite !modify_bind in H. inversion H; subst; clear H.
    unfold listing in Hl. rewrite Hl in H3.
    apply for_each_record_channel_last in H3 as (v & Hv & Hci); [|done].
    exists v. split; [done|]. exact Hci.
Qed.

(** X22. An event of type [group_joined], [member_joined_channel],
    [channel_created] or [group_left] whose handling completes brings the
    gate up to date with the listing: for a listed channel (the object
    listed last for its identifier) the gate answers from that object,
    admitting the requester exactly when the channel is not private or
    the requester is among the members listed now. *)
Theorem membership_event_refreshes_gate (ty : string) (ev : event)
    (w w' : world) (l1 l2 : list channel_obj) (m : channel_obj) (uid : string) :
  ty ∈ ["group_joined"; "member_joined_channel"; "channel_created"; "group_left"] ->
  dispatch (Some ty) ev w = (inr tt, w') ->
  listing w = l1 ++ m :: l2 -> c_id m ∉ map c_id l2 ->
  exists v,
    entry_of m = Some v
    /\ can_query_channel (c_id m) uid w'
       = (inr (Some (negb (is_private v) || bool_decide (uid ∈ members v))), w').
Proof using Type.
  intros Hty H Hl Hk.
  assert (Hd : dispatch (Some ty) ev w = update_channels w).
  { unfold dispatch, item. rewrite ret_bind.
    rewrite (bool_decide_eq_true_2 _ Hty).
    repeat (apply elem_of_cons in Hty as [->|Hty]; [reflexivity|]).
    by apply elem_of_nil in Hty. }
  rewrite Hd in H.
  destruct (update_channels_last _ _ _ _ _ H Hl Hk) as (Hid & v & Hv & Hci).
  exists v. split; [done|].
  unfold can_query_channel. rewrite gets_bind.
  destruct (decide _) as [_|Hx]; [|by rewrite Hid in Hx; destruct Hx; eexists].
  by rewrite Hci.
Qed.

(** ** A channel refresh that fails *)

Lemma record_channel_raises m w :
  entry_of m = None ->
  record_channel m w
  = (inl (KeyError (if c_is_group m then "members"
                    else match c_is_private m with
                         | Some _ => "members"
                         | None => "is_private"
                         end)), w).
Proof using Type.
  unfold record_channel, entry_of.
  destruct (c_is_group m), (c_is_private m) as [b|], (c_members m) as [l|];
    cbn; done.
Qed.

(** X5. When an object of the listing lacks [members], or lacks
    [is_private] while it has no [is_group] key, and the objects listed
    before it are complete, the channel refresh raises [KeyError] on that
    key.  By then the two name maps hold the new listing and the
    visibility of the objects listed before is recorded, while no
    statement has been run: the tables, the journal and the outbox are as
    before.  The directory is left inconsistent: for a channel listed from
    that object on that had no visibility entry, the gate raises
    [KeyError]. *)
Theorem update_channels_partial (w : world) (l1 l2 : list channel_obj)
    (m : channel_obj) :
  listing w = l1 ++ m :: l2 ->
  (forall m', m' ∈ l1 -> is_Some (entry_of m')) ->
  entry_of m = None ->
  exists w',
    update_channels w
    = (inl (KeyError (if c_is_group m then "members"
                      else match c_is_private m with
                           | Some _ => "members"
                           | None => "is_private"
                           end)), w')
    /\ db w' = db w /\ journal w' = journal w /\ outbox w' = outbox w
    /\ channel_id (ENV w') = dict (map (fun m => (c_name m, c_id m)) (listing w))
    /\ id_channel (ENV w') = dict (map (fun m => (c_id m, c_name m)) (listing w))
    /\ (forall a m' b, l1 = a ++ m' :: b -> c_id m' ∉ map c_id b ->
          channel_info (ENV w') !! c_id m' = entry_of m')
    /\ (forall k, k ∉ map c_id l1 ->
          channel_info (ENV w') !! k = channel_info (ENV w) !! k)
    /\ (forall m2 uid,
          m2 ∈ m :: l2 -> c_id m2 ∉ map c_id l1 ->
          channel_info (ENV w) !! c_id m2 = None ->
          can_query_channel (c_id m2) uid w' = (inl (KeyError (c_id m2)), w')).
Proof using Type.
  intros Hl Hall Hm.
  pose (w0 := with_ENV (fun E =>
                Directory (user_id E) (id_user E)
                  (dict (map (fun m => (c_name m, c_id m)) (listing w)))
                  (dict (map (fun m => (c_id m, c_name m)) (listing w)))
                  (channel_info E)) w).
  destruct (for_each_record_channel_total l1 w0 Hall) as (w1 & H1).
  pose proof (for_each_stops record_channel l1 m l2 w0 w1 _ w1 H1
                (record_channel_raises m w1 Hm)) as Hstop.
  pose proof (for_each_record_channel_frame _ _ _ _ H1) as (ci & Hw1).
  assert (Hinfo_out : forall k, k ∉ map c_id l1 ->
            channel_info (ENV w1) !! k = channel_info (ENV w) !! k).
  { intros k Hk. by rewrite (for_each_record_channel_notin _ _ _ _ H1 Hk). }
  exists w1. repeat apply conj.
  - unfold update_channels. rewrite gets_bind, modify_bind.
    fold (listing w). fold w0. rewrite Hl.
    by rewrite (bind_raise _ _ _ _ _ Hstop).
  - by rewrite Hw1.
  - by rewrite Hw1.
  - by rewrite Hw1.
  - by rewrite Hw1.
  - by rewrite Hw1.
  - intros a m' b -> Hb.
    destruct (for_each_record_channel_last _ _ _ _ _ H1 Hb) as (v & Hv & Hci).
    by rewrite Hv.
  - exact Hinfo_out.
  - intros m2 uid Hm2 Hk Hold.
    unfold can_query_channel. rewrite gets_bind.
    assert (Hs : is_Some (id_channel (ENV w1) !! c_id m2)).
    { rewrite Hw1. cbn. apply dict_lookup_is_Some. rewrite map_map. cbn.
      apply list_elem_of_fmap. exists m2. split; [done|].
      rewrite Hl. apply elem_of_app. by right. }
    destruct (decide _) as [_|Hx]; [|done].
    by rewrite (Hinfo_out _ Hk), Hold.
Qed.
End Handlers.

(** ** The theorems at work, and where the written claims part from the code *)


(** C2 as written fails: with nothing cached for the channel, the gate
    returns [None], not [True], and the record is dropped. *)
Lemma can_query_channel_unknown_counterexample :
  channel_info (ENV Sample.fresh) !! "C1" = None
  /\ id_channel (ENV Sample.fresh) !! "C1" = None
  /\ can_query_channel "C1" "U1" Sample.fresh = (inr None, Sample.fresh)
  /\ (can_query_channel "C1" "U1" Sample.fresh).1 <> inr (Some true)
  /\ truthy None = false.
Proof. repeat split; try reflexivity. vm_compute. discriminate. Qed.

(** C2 on the loaded directory: an unknown channel, and the private group
    asked for by a user who is not in it. *)
Lemma can_query_channel_spec_witness :
  can_query_channel "C404" "U1" Sample.archive = (inr None, Sample.archive)
  /\ exists b, can_query_channel "G1" "U1" Sample.archive = (inr (Some b), Sample.archive)
               /\ (b = true <-> true = false \/ "U1" ∈ ["U2"]).
Proof.
  destruct (can_query_channel_spec "C404" "U1" Sample.archive) as (A & _ & _).
  destruct (can_query_channel_spec "G1" "U1" Sample.archive) as (_ & B & _).
  split.
  - apply A. reflexivity.
  - apply (B "secret" (Visibility true ["U2"])); reflexivity.
Defined.

(** C10 as written fails: an object of the groups list without the
    [is_group] key is recorded with its own [is_private], here false, and
    the gate lets a user in who is not a member. *)
Lemma groups_list_counterexample :
  let w' := (update_channels Sample.odd).2 in
  groups_list (sc Sample.odd) = [ChannelObj "g" "G9" false (Some false) (Some [])]
  /\ update_channels Sample.odd = (inr tt, w')
  /\ channel_info (ENV w') !! "G9" = Some (Visibility false [])
  /\ can_query_channel "G9" "U7" w' = (inr (Some true), w')
  /\ "U7" ∉ @nil string.
Proof.
  repeat split; try reflexivity. apply not_elem_of_nil.
Qed.

(** C10 on the sample workspace: the group [G1] has no [is_private] field
    at all. *)
Lemma update_channels_groups_witness :
  exists ci,
    channel_info (ENV (update_channels Sample.cold).2) !! "G1" = Some ci
    /\ is_private ci = true
    /\ forall uid,
         can_query_channel "G1" uid (update_channels Sample.cold).2
         = (inr (Some (bool_decide (uid ∈ members ci))), (update_channels Sample.cold).2).
Proof.
  apply (update_channels_groups Sample.cold (update_channels Sample.cold).2
           (ChannelObj "secret" "G1" true None (Some ["U2"]))).
  - reflexivity.
  - apply list_elem_of_singleton. reflexivity.
  - intros g' Hg _. apply list_elem_of_singleton in Hg. by rewrite Hg.
Defined.

(** C1 on a new database file. *)
Lemma archive_refused_by_created_table_witness :
  exists w',
    handle_message Sample.strftime Sample.notice_time Sample.uuid4
      (Sample.said "C1" "U1" "hello world" "1.0") Sample.fresh
    = (inl (OperationalError
              "table messages has 4 columns but 5 values were supplied"), w')
    /\ messages (db w') = messages (db Sample.fresh).
Proof.
  apply (archive_refused_by_created_table Sample.strftime Sample.notice_time
           Sample.uuid4 _ "hello world" "U1" "C1" "1.0").
  - repeat split; try reflexivity.
    + not_among.
    + exists "C"%char. split; [reflexivity|discriminate].
    + vm_compute. discriminate.
  - reflexivity.
Defined.

(** C9 as written fails: a bot message that mentions the bot and carries
    an identifier is dropped at line 260, where handing it to the query
    pipeline would have sent an answer. *)
Lemma bot_mention_counterexample :
  Py.take 12 "<@UJ8U80MKL> 123e4567-e89b-42d3-a456-426614174000" = mention
  /\ Py.split "<@UJ8U80MKL> 123e4567-e89b-42d3-a456-426614174000" !! 1
     = Some "123e4567-e89b-42d3-a456-426614174000"
  /\ re_match uuid4hex "123e4567-e89b-42d3-a456-426614174000" = true
  /\ handle_message Sample.strftime Sample.notice_time Sample.uuid4 Sample2.bot_mention Sample.archive = (inr tt, Sample.archive)
  /\ outbox (handle_query Sample.strftime
               (set_text "id:123e4567-e89b-42d3-a456-426614174000" Sample2.bot_mention)
               Sample.archive).2
     = [("No results found", "C1")]
  /\ handle_message Sample.strftime Sample.notice_time Sample.uuid4 Sample2.bot_mention Sample.archive
     <> handle_query Sample.strftime
          (set_text "id:123e4567-e89b-42d3-a456-426614174000" Sample2.bot_mention)
          Sample.archive.
Proof.
  repeat split; try reflexivity.
  intros H. apply (f_equal (fun r => outbox r.2)) in H. vm_compute in H.
  discriminate.
Qed.

(** C9 on the same text sent by a user, on a mention followed by a word
    that is no identifier, and on a bare mention. *)
Lemma mention_never_archived_witness :
  handle_message Sample.strftime Sample.notice_time Sample.uuid4 Sample2.user_mention Sample.archive
  = handle_query Sample.strftime
      (set_text "id:123e4567-e89b-42d3-a456-426614174000" Sample2.user_mention)
      Sample.archive
  /\ never_archives Sample.archive (handle_message Sample.strftime Sample.notice_time Sample.uuid4 Sample2.user_mention Sample.archive).2
  /\ handle_message Sample.strftime Sample.notice_time Sample.uuid4
       (Sample.said "C1" "U1" "<@UJ8U80MKL> hello" "6.0") Sample.archive
     = (inr tt, Sample.archive)
  /\ handle_message Sample.strftime Sample.notice_time Sample.uuid4
       (Sample.said "C1" "U1" "<@UJ8U80MKL>" "6.0") Sample.archive
     = (inl IndexError, Sample.archive).
Proof.
  destruct (mention_never_archived Sample.strftime Sample.notice_time Sample.uuid4
              Sample2.user_mention "<@UJ8U80MKL> 123e4567-e89b-42d3-a456-426614174000"
              "C1" "C"%char Sample.archive) as (A & B & _);
    [reflexivity|reflexivity|reflexivity|reflexivity|discriminate|].
  destruct (mention_never_archived Sample.strftime Sample.notice_time Sample.uuid4
              (Sample.said "C1" "U1" "<@UJ8U80MKL> hello" "6.0") "<@UJ8U80MKL> hello"
              "C1" "C"%char Sample.archive) as (_ & _ & C & _);
    [reflexivity|reflexivity|reflexivity|reflexivity|discriminate|].
  destruct (mention_never_archived Sample.strftime Sample.notice_time Sample.uuid4
              (Sample.said "C1" "U1" "<@UJ8U80MKL>" "6.0") "<@UJ8U80MKL>"
              "C1" "C"%char Sample.archive) as (_ & _ & _ & D & _);
    [reflexivity|reflexivity|reflexivity|reflexivity|discriminate|].
  split; [|split; [|split]].
  - apply (B Sample.archive "123e4567-e89b-42d3-a456-426614174000");
      [discriminate|reflexivity|reflexivity|reflexivity].
  - apply (A (handle_message Sample.strftime Sample.notice_time Sample.uuid4 Sample2.user_mention Sample.archive).1).
    by destruct (handle_message Sample.strftime Sample.notice_time Sample.uuid4 Sample2.user_mention Sample.archive).
  - apply (C Sample.archive "hello"); [discriminate|reflexivity|reflexivity|reflexivity].
  - apply D; [discriminate|reflexivity|reflexivity].
Defined.

(** C8 as written fails twice: the edit of a message in a channel the
    directory does not list (a direct-message channel) raises [TypeError]
    before any notice is sent; and an edit event that also carries a text,
    an author and a timestamp goes on to the archival branch, where it
    replaces the record of its channel and timestamp. *)
Lemma edit_counterexample :
  (let r := handle_message Sample.strftime Sample.notice_time Sample.uuid4 (Sample.edited "D1" "a" "b") Sample.archive in
   r.1 = inl TypeError /\ outbox r.2 = [])
  /\ (let r := handle_message Sample.strftime Sample.notice_time Sample.uuid4 Sample2.edited_with_text Sample.archive in
      r.1 = inr tt
      /\ Sql.t_rows (messages (db Sample.archive))
         = [["aaaa"; "hello world"; "U1"; "C1"; "1.0"];
            ["bbbb"; "hello secret"; "U2"; "G1"; "2.0"];
            ["cccc"; "hello there"; "U1"; "C1"; "3.0"]]
      /\ Sql.t_rows (messages (db r.2))
         = [["bbbb"; "hello secret"; "U2"; "G1"; "2.0"];
            ["cccc"; "hello there"; "U1"; "C1"; "3.0"];
            ["00000000-0000-4000-8000-000000000000"; "new body"; "U1"; "C1"; "1.0"]]).
Proof. repeat split; reflexivity. Qed.

(** C8 on an edit in the public channel. *)
Lemma edit_notice_witness :
  handle_message Sample.strftime Sample.notice_time Sample.uuid4 (Sample.edited "C1" "a" "b") Sample.archive
  = (inr tt,
     with_outbox
       (fun o => o ++ [("@U1 edited their message (sent on 1.0) from #general: "
                        +:+ String (ascii_of_nat 10) ">a"
                        +:+ String (ascii_of_nat 10) (" to say: " +:+ String (ascii_of_nat 10) ">b"),
                        "CJ9745N3U")])
       Sample.archive)
  /\ messages (db Sample.archive) = messages (db Sample.archive).
Proof.
  destruct (edit_notice Sample.strftime Sample.notice_time Sample.uuid4
              (Sample.edited "C1" "a" "b")
              (Payload (Some "b") (Some "U1") (Some "1.0"))
              (Payload (Some "a") (Some "U1") (Some "1.0"))
              "b" "a" "1.0" "1.0" "C1" "general" Sample.archive Sample.archive)
    as (A & _ & (B & _)); try reflexivity.
  split; [exact A|exact B].
Defined.

(** C4 as written fails: an empty query raises [IndexError] at line 160,
    which the [except ValueError] does not catch; nothing is sent. *)
Lemma empty_query_counterexample :
  handle_query Sample.strftime (Sample.said "D1" "U1" "" "9.0") Sample.archive
  = (inl IndexError, Sample.archive).
Proof. reflexivity. Qed.

(** C4 on a query with a bad sort order, on a query for a record whose
    timestamp is no number, and on the cycle of the event loop. *)
Lemma handle_query_catches_ValueError_witness :
  handle_query Sample.strftime (Sample.said "D1" "U1" "hello sort:up" "9.0") Sample.archive
  = (inr tt, with_outbox (fun o => o ++ [("Invalid sort order up", "D1")]) Sample.archive)
  /\ (exists w1,
        render Sample.strftime (Sql.Row "eeee" "hi" "U1" "soon" "C1") Sample.archive
        = (inl (ValueError "invalid literal for int() with base 10: 'soon'"), w1))
  /\ exists w',
       read_cycle Sample.strftime Sample.notice_time Sample.uuid4
         [(Some "message", Sample.said "D1" "U1" "" "9.0")] Sample.archive
       = (inr tt, w').
Proof.
  destruct (handle_query_catches_ValueError Sample.strftime Sample.notice_time
              Sample.uuid4
              (Sample.said "D1" "U1" "hello sort:up" "9.0") "D1" Sample.archive)
    as (A & _ & _ & _ & B & _ & _ & _ & C); [reflexivity|].
  split; [|split].
  - apply A. reflexivity.
  - apply B. left. reflexivity.
  - apply C.
Defined.

(** C5 as written fails: the refresh made to resolve the unknown name
    writes the users table and commits, so the store is accessed. *)
Lemma unknown_user_counterexample :
  let r := handle_query Sample.strftime (Sample.said "D1" "U1" "from:bob" "9.0") Sample.cold in
  r.1 = inr tt
  /\ outbox r.2 = [("User bob not found", "D1")]
  /\ journal Sample.cold = []
  /\ journal r.2 = [InsertUsers [("alice", "U1", default_avatar)]; Commit]
  /\ users (db Sample.cold) = []
  /\ users (db r.2) = [("alice", "U1", default_avatar)].
Proof. repeat split; reflexivity. Qed.

(** C5 on a query with a text token before the filter. *)
Lemma unknown_user_fails_witness :
  exists w2,
    handle_query Sample.strftime (Sample.said "D1" "U1" "hello from:@Bob" "9.0") Sample.archive
    = (inr tt, with_outbox (fun o => o ++ [("User @bob not found", "D1")]) w2)
    /\ directory_step Sample.archive w2
    /\ journal w2
       = journal Sample.archive ++ [InsertUsers [("alice", "U1", default_avatar)]; Commit].
Proof.
  apply (unknown_user_fails Sample.strftime
           (Sample.said "D1" "U1" "hello from:@Bob" "9.0")
           "hello from:@Bob" "D1" "@bob" ["hello"] []
           (Plan ["hello"] None None None 10) Sample.archive Sample.archive).
  - reflexivity.
  - reflexivity.
  - reflexivity.
  - intros p0 H. vm_compute in H. injection H as <-. vm_compute. discriminate.
  - reflexivity.
  - reflexivity.
  - reflexivity.
  - vm_compute. not_among.
Defined.





(** On the table of line 33 the SELECT of lines 162 and 196 is refused as
    well, and the error leaves [handle_query]. *)
Example query_refused_by_created_table :
  handle_query Sample.strftime (Sample.said "D1" "U1" "hello" "9.0") Sample.fresh
  = (inl (OperationalError "no such column: id"),
     with_journal (fun j => j ++ [SelectMessages (Sql.Select [Sql.MessageLike "%hello%"] None)])
       Sample.fresh).
Proof. reflexivity. Qed.

(** ** Further properties at work *)

(** X1 on a workspace that lists [alice] twice and nobody called
    [dave]. *)
Lemma get_user_id_refreshed_witness :
  get_user_id "alice" Sample3.twins
  = (inr (Some "U3"), (update_users Sample3.twins).2)
  /\ get_user_id "dave" Sample3.twins
     = (inr None, (update_users Sample3.twins).2).
Proof.
  destruct (get_user_id_refreshed "alice" Sample3.twins) as (A & _);
    [reflexivity|].
  destruct (get_user_id_refreshed "dave" Sample3.twins) as (_ & B);
    [reflexivity|].
  split.
  - apply (A [Member "alice" "U1" None; Member "bob" "U2" None]
             (Member "alice" "U3" (Some "https://example.org/a.png")) []);
      [reflexivity|reflexivity|apply not_elem_of_nil].
  - apply B. vm_compute. not_among.
Defined.

(** X2 on the public channel of the sample workspace. *)
Lemma update_channels_round_trip_witness :
  let w' := (update_channels Sample.cold).2 in
  get_channel_id "general" w' = (inr (Some "C1"), w')
  /\ get_channel_name "C1" w' = (inr (Some "general"), w').
Proof.
  apply (update_channels_round_trip Sample.cold (update_channels Sample.cold).2
           (ChannelObj "general" "C1" false (Some false) (Some ["U1"]))).
  - reflexivity.
  - vm_compute. repeat (apply NoDup_cons; split; [not_among|]). apply NoDup_nil_2.
  - vm_compute. repeat (apply NoDup_cons; split; [not_among|]). apply NoDup_nil_2.
  - vm_compute. left.
Defined.

(** X3 on a table with a stale row for [U1] and a row for a user the
    workspace no longer lists. *)
Lemma update_users_table_witness :
  let w' := (update_users Sample3.twins).2 in
  NoDup (map user_row_id (users (db w')))
  /\ ("alice", "U1", default_avatar) ∈ users (db w')
  /\ ("carol", "U0", "old.png") ∈ users (db w').
Proof.
  destruct (update_users_table Sample3.twins) as (A & B & C).
  - vm_compute. repeat (apply NoDup_cons; split; [not_among|]). apply NoDup_nil_2.
  - split; [exact A|]. split.
    + apply (B [] (Member "alice" "U1" None)
               [Member "bob" "U2" None;
                Member "alice" "U3" (Some "https://example.org/a.png")]);
        [reflexivity|]. vm_compute. not_among.
    + apply C; [vm_compute; left|]. vm_compute. not_among.
Defined.

(** X4 on the sample workspace: a listed channel and an unlisted one. *)
Lemma gate_after_refresh_witness :
  let w' := (update_channels Sample.cold).2 in
  (exists b, can_query_channel "G1" "U1" w' = (inr (Some b), w'))
  /\ can_query_channel "C404" "U1" w' = (inr None, w').
Proof.
  destruct (gate_after_refresh Sample.cold (update_channels Sample.cold).2 "G1" "U1")
    as (A & _); [reflexivity|].
  destruct (gate_after_refresh Sample.cold (update_channels Sample.cold).2 "C404" "U1")
    as (_ & B); [reflexivity|].
  split.
  - apply A. vm_compute. right. left.
  - apply B. vm_compute. not_among.
Defined.

(** X5 on a workspace whose second channel has no [members] key: the
    refresh stops there, with the name maps already replaced and the
    database untouched, and the gate then fails for the channel listed
    after it. *)
Lemma update_channels_partial_witness :
  exists w',
    update_channels Sample3.broken = (inl (KeyError "members"), w')
    /\ db w' = db Sample3.broken
    /\ journal w' = journal Sample3.broken
    /\ channel_id (ENV w')
       = dict [("general", "C1"); ("lobby", "C7"); ("late", "C8")]
    /\ channel_info (ENV w') !! "C1" = Some (Visibility false ["U1"])
    /\ can_query_channel "C8" "U1" w' = (inl (KeyError "C8"), w').
Proof.
  destruct (update_channels_partial Sample3.broken
              [ChannelObj "general" "C1" false (Some false) (Some ["U1"])]
              [ChannelObj "late" "C8" false (Some false) (Some [])]
              (ChannelObj "lobby" "C7" false (Some false) None))
    as (w' & A & Hdb & Hj & _ & Hc & _ & Hin & _ & Hgate).
  - reflexivity.
  - intros m' Hm'. apply list_elem_of_singleton in Hm' as ->. by eexists.
  - reflexivity.
  - exists w'. split; [exact A|]. split; [exact Hdb|]. split; [exact Hj|].
    split; [exact Hc|]. split.
    + apply (Hin [] (ChannelObj "general" "C1" false (Some false) (Some ["U1"])) []);
        [reflexivity|apply not_elem_of_nil].
    + apply (Hgate (ChannelObj "late" "C8" false (Some false) (Some [])) "U1").
      * right. left.
      * vm_compute. not_among.
      * reflexivity.
Defined.

(** X6 on a query that refreshes the users directory. *)
Lemma handle_query_read_only_witness :
  let r := handle_query Sample.strftime
             (Sample.said "D1" "U1" "hello from:bob" "9.0") Sample.archive in
  messages (db r.2) = messages (db Sample.archive)
  /\ (exists j, journal r.2 = journal Sample.archive ++ j
                /\ forallb not_insert j = true)
  /\ logs_txt r.2 = logs_txt Sample.archive
  /\ drawn r.2 = drawn Sample.archive.
Proof.
  apply (handle_query_read_only Sample.strftime
           (Sample.said "D1" "U1" "hello from:bob" "9.0") Sample.archive
           (handle_query Sample.strftime
              (Sample.said "D1" "U1" "hello from:bob" "9.0") Sample.archive).2
           (handle_query Sample.strftime
              (Sample.said "D1" "U1" "hello from:bob" "9.0") Sample.archive).1).
  by destruct (handle_query Sample.strftime
                 (Sample.said "D1" "U1" "hello from:bob" "9.0") Sample.archive).
Defined.

(** X7 on a deletion in the public channel. *)
Lemma delete_notice_witness :
  handle_message Sample.strftime Sample.notice_time Sample.uuid4
    (Sample3.deleted "C1" "hello world") Sample.archive
  = (inr tt,
     with_outbox
       (fun o => o ++ [("The following message from @U1 (sent on 1.0) was deleted from #general"
                        +:+ String (ascii_of_nat 10) ">hello world"
                        +:+ String (ascii_of_nat 10) EmptyString,
                        "CJ9745N3U")])
       Sample.archive)
  /\ messages (db Sample.archive) = messages (db Sample.archive).
Proof.
  destruct (delete_notice Sample.strftime Sample.notice_time Sample.uuid4
              (Sample3.deleted "C1" "hello world")
              (Payload (Some "hello world") (Some "U1") (Some "1.0"))
              "hello world" "1.0" "1.0" "C1" "general" Sample.archive Sample.archive)
    as (A & _ & B); try reflexivity.
  split; [exact A|exact B].
Defined.

(** X8 on a bot message, an event without text, and a message without
    author in the public channel. *)
Lemma ignored_events_witness :
  handle_message Sample.strftime Sample.notice_time Sample.uuid4
    Sample2.bot_mention Sample.archive = (inr tt, Sample.archive)
  /\ handle_message Sample.strftime Sample.notice_time Sample.uuid4
       (Event (Some "channel_join") None (Some "C1") (Some "U1") (Some "4.0") None None)
       Sample.archive = (inr tt, Sample.archive)
  /\ handle_message Sample.strftime Sample.notice_time Sample.uuid4
       (Event None (Some "hello") (Some "C1") None (Some "4.0") None None)
       Sample.archive = (inr tt, Sample.archive).
Proof.
  destruct (ignored_events Sample.strftime Sample.notice_time Sample.uuid4
              Sample2.bot_mention Sample.archive) as (A & _ & _).
  destruct (ignored_events Sample.strftime Sample.notice_time Sample.uuid4
              (Event (Some "channel_join") None (Some "C1") (Some "U1") (Some "4.0") None None)
              Sample.archive) as (_ & B & _).
  destruct (ignored_events Sample.strftime Sample.notice_time Sample.uuid4
              (Event None (Some "hello") (Some "C1") None (Some "4.0") None None)
              Sample.archive) as (_ & _ & C).
  split; [|split].
  - apply A. reflexivity.
  - apply B; [reflexivity|]. not_among.
  - apply (C "hello" "C1" "C"%char); try reflexivity.
    + not_among.
    + discriminate.
    + vm_compute. discriminate.
Defined.

(** X9 on a direct message. *)
Lemma direct_message_audited_witness :
  let ev := Sample.said "D1" "U1" "hello" "9.0" in
  let line := "U1|hello" +:+ String (ascii_of_nat 10) EmptyString in
  handle_message Sample.strftime Sample.notice_time Sample.uuid4 ev Sample.archive
  = handle_query Sample.strftime ev
      (with_logs_txt (fun l => l ++ [line]) Sample.archive)
  /\ logs_txt (handle_message Sample.strftime Sample.notice_time Sample.uuid4
                 ev Sample.archive).2
     = logs_txt Sample.archive ++ [line]
  /\ messages (db (handle_message Sample.strftime Sample.notice_time Sample.uuid4
                     ev Sample.archive).2)
     = messages (db Sample.archive)
  /\ drawn (handle_message Sample.strftime Sample.notice_time Sample.uuid4
              ev Sample.archive).2
     = drawn Sample.archive.
Proof.
  apply (direct_message_audited Sample.strftime Sample.notice_time Sample.uuid4
           (Sample.said "D1" "U1" "hello" "9.0") "hello" "D1" Sample.archive
           (handle_message Sample.strftime Sample.notice_time Sample.uuid4
              (Sample.said "D1" "U1" "hello" "9.0") Sample.archive).2
           (handle_message Sample.strftime Sample.notice_time Sample.uuid4
              (Sample.said "D1" "U1" "hello" "9.0") Sample.archive).1).
  - reflexivity.
  - reflexivity.
  - reflexivity.
  - not_among.
  - by destruct (handle_message Sample.strftime Sample.notice_time Sample.uuid4
                   (Sample.said "D1" "U1" "hello" "9.0") Sample.archive).
Defined.

(** X10 on a text with capitals and a run of blanks. *)
Lemma plain_text_query_witness :
  parse_query (Py.split (Py.lower "Hello   big World")) Sample.archive
  = (inr (Sql.Select [Sql.MessageLike "%hello big world%"] None, 10%Z),
     Sample.archive).
Proof.
  apply (plain_text_query "Hello   big World" Sample.archive); reflexivity.
Defined.

(** X11 on a text of two blanks. *)
Lemma blank_query_raises_witness :
  handle_query Sample.strftime (Sample.said "D1" "U1" "  " "9.0") Sample.archive
  = (inl IndexError, Sample.archive).
Proof.
  apply (blank_query_raises Sample.strftime (Sample.said "D1" "U1" "  " "9.0") "  ");
    reflexivity.
Defined.


(** X13 on the stored table, with a channel filter. *)
Lemma search_respects_filters_witness :
  let v := Plan ["hello"] None (Some "G1") None 10 in
  let r := Sql.Row "bbbb" "hello secret" "U2" "2.0" "G1" in
  r ∈ map (Sql.project (Sql.t_cols Sample.stored)) (Sql.t_rows Sample.stored)
  /\ Sql.like ("%" +:+ Py.join " " (text v) +:+ "%") (Sql.r_message r) = true
  /\ (forall u, nonempty (user v) = Some u -> Sql.r_user r = u)
  /\ (forall c, nonempty (channel v) = Some c -> Sql.r_channel r = c).
Proof.
  apply (search_respects_filters (Plan ["hello"] None (Some "G1") None 10)
           Sample.stored (Sql.Row "bbbb" "hello secret" "U2" "2.0" "G1")).
  vm_compute. left.
Defined.

(** X14 on a table stored out of order: the rows of the channel come by
    timestamp when the query names the channel, and in stored order when
    it names none. *)
Lemma search_order_witness :
  let late := Sql.Row "aaaa" "hello late" "U1" "3.0" "C1" in
  let secret := Sql.Row "bbbb" "hello secret" "U2" "2.0" "G1" in
  let early := Sql.Row "cccc" "hello early" "U1" "1.0" "C1" in
  Sql.execute (build_query (Plan ["hello"] None (Some "C1") None 10)) Sample4.shuffled
  = inr [early; late]
  /\ Sorted Sql.ts_le [early; late]
  /\ Sql.execute (build_query (Plan ["hello"] None None None 10)) Sample4.shuffled
     = inr [late; secret; early]
  /\ Sql.execute (build_query (Plan ["hello"] None None (Some "desc") 10)) Sample4.shuffled
     = inr [late; secret; early]
  /\ Sorted Sql.ts_ge [late; secret; early].
Proof.
  destruct (search_order (Plan ["hello"] None (Some "C1") None 10) Sample4.shuffled
              [Sql.Row "cccc" "hello early" "U1" "1.0" "C1";
               Sql.Row "aaaa" "hello late" "U1" "3.0" "C1"] eq_refl)
    as (_ & _ & _ & _ & _ & A).
  destruct (search_order (Plan ["hello"] None None (Some "desc") 10) Sample4.shuffled
              [Sql.Row "aaaa" "hello late" "U1" "3.0" "C1";
               Sql.Row "bbbb" "hello secret" "U2" "2.0" "G1";
               Sql.Row "cccc" "hello early" "U1" "1.0" "C1"] eq_refl)
    as (_ & _ & B & _).
  split; [reflexivity|]. split; [|split; [reflexivity|split; [reflexivity|]]].
  - apply A; [reflexivity|by eexists|reflexivity].
  - apply B. reflexivity.
Defined.


(** X16 on a timestamp of the workspace. *)
Lemma convert_timestamp_seconds_witness :
  convert_timestamp Sample.strftime ("1555555555" +:+ "." +:+ "000200") Sample.archive
  = convert_timestamp Sample.strftime "1555555555" Sample.archive.
Proof.
  apply (convert_timestamp_seconds Sample.strftime "1555555555" "000200").
  reflexivity.
Defined.

(** X17 on the stored table: two messages with the channel and timestamp
    of the first stored row. *)
Lemma archive_twice_witness :
  exists w1 w2,
    handle_message Sample.strftime Sample.notice_time Sample.uuid4
      (Sample.said "C1" "U1" "first" "1.0") Sample.archive = (inr tt, w1)
    /\ handle_message Sample.strftime Sample.notice_time Sample.uuid4
         (Sample.said "C1" "U2" "second" "1.0") w1 = (inr tt, w2)
    /\ filter (at_key "C1" "1.0") (Sql.t_rows (messages (db w2)))
       = [[Sample.uuid4 (S (drawn Sample.archive)); "second"; "U2"; "C1"; "1.0"]]
    /\ forall ch' ts', (ch', ts') <> ("C1", "1.0") ->
         filter (at_key ch' ts') (Sql.t_rows (messages (db w2)))
         = filter (at_key ch' ts') (Sql.t_rows Sample.stored).
Proof.
  apply (archive_twice Sample.strftime Sample.notice_time Sample.uuid4
           (Sample.said "C1" "U1" "first" "1.0")
           (Sample.said "C1" "U2" "second" "1.0")
           "first" "second" "U1" "U2" "C1" "1.0" Sample.archive
           (Sql.t_rows Sample.stored)).
  - repeat split; try reflexivity.
    + not_among.
    + exists "C"%char. split; [reflexivity|discriminate].
    + vm_compute. discriminate.
  - repeat split; try reflexivity.
    + not_among.
    + exists "C"%char. split; [reflexivity|discriminate].
    + vm_compute. discriminate.
  - reflexivity.
Defined.

(** X18 on a batch of three: the second event raises, the third is never
    handled. *)
Lemma read_cycle_drops_rest_witness :
  let w1 := (handle_message Sample.strftime Sample.notice_time Sample.uuid4
               (Sample.said "C1" "U1" "one" "7.0") Sample.archive).2 in
  read_cycle Sample.strftime Sample.notice_time Sample.uuid4
    Sample3.batch Sample.archive
  = (inr tt,
     with_logs_txt (fun l => l ++ ["U1|" +:+ String (ascii_of_nat 10) EmptyString]) w1).
Proof.
  apply (read_cycle_drops_rest Sample.strftime Sample.notice_time Sample.uuid4
           [(Some "message", Sample.said "C1" "U1" "one" "7.0")]
           [(Some "message", Sample.said "C1" "U1" "two" "8.0")]
           (Some "message", Sample.said "D1" "U1" "" "9.0")
           Sample.archive
           (handle_message Sample.strftime Sample.notice_time Sample.uuid4
              (Sample.said "C1" "U1" "one" "7.0") Sample.archive).2
           (with_logs_txt
              (fun l => l ++ ["U1|" +:+ String (ascii_of_nat 10) EmptyString])
              (handle_message Sample.strftime Sample.notice_time Sample.uuid4
                 (Sample.said "C1" "U1" "one" "7.0") Sample.archive).2)
           IndexError).
  - reflexivity.
  - reflexivity.
Defined.

(** X19 on a query that names a channel the workspace does not list. *)
Lemma unknown_channel_fails_witness :
  let w2 := (update_channels Sample.archive).2 in
  handle_query Sample.strftime
    (Sample.said "D1" "U1" "hello in:#Nowhere" "9.0") Sample.archive
  = (inr tt, with_outbox (fun o => o ++ [("Channel #nowhere not found", "D1")]) w2)
  /\ directory_step Sample.archive w2.
Proof.
  apply (unknown_channel_fails Sample.strftime
           (Sample.said "D1" "U1" "hello in:#Nowhere" "9.0")
           "hello in:#Nowhere" "D1" "#nowhere" ["hello"] []
           (Plan ["hello"] None None None 10) Sample.archive Sample.archive).
  - reflexivity.
  - reflexivity.
  - reflexivity.
  - intros p0 H. vm_compute in H. injection H as <-. vm_compute. discriminate.
  - reflexivity.
  - reflexivity.
  - reflexivity.
  - vm_compute. not_among.
  - reflexivity.
Defined.

(** X20 on a sort order and a limit the program does not accept, each
    followed by a further token. *)
Lemma bad_sort_or_limit_fails_witness :
  handle_query Sample.strftime
    (Sample.said "D1" "U1" "hello sort:up from:bob" "9.0") Sample.archive
  = (inr tt, with_outbox (fun o => o ++ [("Invalid sort order up", "D1")]) Sample.archive)
  /\ handle_query Sample.strftime
       (Sample.said "D1" "U1" "hello limit:ten from:bob" "9.0") Sample.archive
     = (inr tt, with_outbox (fun o => o ++ [("ten not a valid number", "D1")]) Sample.archive).
Proof.
  destruct (bad_sort_or_limit_fails Sample.strftime
              (Sample.said "D1" "U1" "hello sort:up from:bob" "9.0")
              "hello sort:up from:bob" "D1" "up" ["hello"] ["from:bob"]
              (Plan ["hello"] None None None 10) Sample.archive Sample.archive)
    as (A & _); try reflexivity.
  { intros p0 H. vm_compute in H. injection H as <-. vm_compute. discriminate. }
  destruct (bad_sort_or_limit_fails Sample.strftime
              (Sample.said "D1" "U1" "hello limit:ten from:bob" "9.0")
              "hello limit:ten from:bob" "D1" "ten" ["hello"] ["from:bob"]
              (Plan ["hello"] None None None 10) Sample.archive Sample.archive)
    as (_ & B); try reflexivity.
  { intros p0 H. vm_compute in H. injection H as <-. vm_compute. discriminate. }
  split.
  - apply A; [reflexivity|]. not_among.
  - apply B; reflexivity.
Defined.

(** X21 on a record of the private group and a record of a channel the
    directory does not know, fetched for a user who is not in the
    group. *)
Lemma hidden_results_look_empty_witness :
  let ev := Sample.said "D1" "U1" "hello secret" "9.0" in
  let res := [Sql.Row "bbbb" "hello secret" "U2" "2.0" "G1";
              Sql.Row "dddd" "hello nobody" "U1" "4.0" "C404"] in
  respond Sample.strftime ev res Sample.archive
  = (inr tt, with_outbox (fun o => o ++ [("No results found", "D1")]) Sample.archive)
  /\ respond Sample.strftime ev res Sample.archive
     = respond Sample.strftime ev [] Sample.archive.
Proof.
  apply (hidden_results_look_empty Sample.strftime
           (Sample.said "D1" "U1" "hello secret" "9.0") "U1" "D1"
           [Sql.Row "bbbb" "hello secret" "U2" "2.0" "G1";
            Sql.Row "dddd" "hello nobody" "U1" "4.0" "C404"] Sample.archive).
  - reflexivity.
  - reflexivity.
  - intros r Hr.
    apply elem_of_cons in Hr as [->|Hr].
    + right. exists (Visibility true ["U2"]).
      split; [reflexivity|]. split; [reflexivity|]. not_among.
    + apply elem_of_cons in Hr as [->|Hr]; [left; reflexivity|].
      by apply elem_of_nil in Hr.
Defined.

(** X22 on the sample workspace: after a [group_joined] event the gate
    answers for the private group from its listed members. *)
Lemma membership_event_refreshes_gate_witness :
  exists v,
    entry_of (ChannelObj "secret" "G1" true None (Some ["U2"])) = Some v
    /\ can_query_channel "G1" "U2" (update_channels Sample.cold).2
       = (inr (Some (negb (is_private v) || bool_decide ("U2" ∈ members v))),
          (update_channels Sample.cold).2).
Proof.
  apply (membership_event_refreshes_gate Sample.strftime Sample.notice_time
           Sample.uuid4 "group_joined"
           (Event None None None None None None None)
           Sample.cold (update_channels Sample.cold).2
           [ChannelObj "general" "C1" false (Some false) (Some ["U1"])] []
           (ChannelObj "secret" "G1" true None (Some ["U2"])) "U2").
  - left.
  - reflexivity.
  - reflexivity.
  - apply not_elem_of_nil.
Defined.
